(** * Service-cascade and dynamic-pricing engine

    A shallow embedding of the cascade engine ([CascadeEngine]), of the
    revenue optimizer ([RevenueOptimizer]) and of the completion hook that
    connects them to the order API ([handleServiceCompletion]), with the
    two order endpoints that reach them and the reporting and optimization
    jobs of both services.

    Conventions of the embedding.
    - JavaScript numbers are exact rationals ([Q]) plus [NaN]; the rounding
      error of IEEE doubles and the two infinities are not modelled.  Where
      a statement bounds an amount that the code rounds to cents, it leaves
      the margin of a cent, so that it does not depend on the side to which
      a double computation resolves a tie; the quotients of the pricing job,
      which are compared with thresholds, are left abstract.
    - A lookup in a plain object used as a table ([table[key]]) finds the
      properties every object inherits from [Object.prototype] as well; a
      lookup in a [Map] does not.
    - A JSONB column reaches the engine as SQL NULL, as JSON text or as an
      object, depending on the driver; all three are values of the model.
    - Rows of the relational store are records, tables are lists in insertion
      order, identifiers (UUIDs in the store) are natural numbers.
    - Every [await]ed store query may be rejected: the world carries a list of
      fault flags, one consumed per query. [Math.random] consumes a list of
      draws. Both lists are inputs of the model, so that every run is a
      function of its initial world.
    - [setTimeout] appends a task to the list of pending timers; a timer is
      run by [fireTimer]. *)

From Stdlib Require Import QArith Qround Qabs Lqa ZArith Lia List Bool Ascii String Sorted.
From stdpp Require Import gmap strings list.

Local Open Scope string_scope.

(** ** JavaScript values *)

Inductive Num : Type :=
| NaN
| Fin (q : Q).

(** The primitive values that reach the engine from JSON documents, from
    store rows and from the cache. *)
Inductive Value : Type :=
| JUndefined
| JNull
| JBool (b : bool)
| JNum (n : Num)
| JStr (s : string).

Definition num (q : Q) : Value := JNum (Fin q).

Definition Qltb (x y : Q) : bool := negb (Qle_bool y x).

(** ToBoolean *)
Definition truthy (v : Value) : bool :=
  match v with
  | JUndefined | JNull => false
  | JBool b => b
  | JNum NaN => false
  | JNum (Fin q) => negb (Qeq_bool q 0)
  | JStr s => negb (String.eqb s "")
  end.

(** [a === b] *)
Definition strict_eq (a b : Value) : bool :=
  match a, b with
  | JUndefined, JUndefined => true
  | JNull, JNull => true
  | JBool x, JBool y => Bool.eqb x y
  | JNum (Fin x), JNum (Fin y) => Qeq_bool x y
  | JStr x, JStr y => String.eqb x y
  | _, _ => false
  end.

(** [Math.round(x * 100) / 100]; [Math.round] is [floor (x + 1/2)]. *)
Definition round2 (x : Q) : Q := (inject_Z (Qfloor (x * 100 + (1 # 2))) / 100)%Q.

(** The value a [DECIMAL(10,2)] column stores for a number (schema.sql, the
    price columns of [service_orders]): two decimals, half away from zero. *)
Definition decimal2 (x : Q) : Q :=
  if Qle_bool 0 x
  then (inject_Z (Qfloor (x * 100 + (1 # 2))) / 100)%Q
  else (- (inject_Z (Qfloor (- x * 100 + (1 # 2))) / 100))%Q.

Definition Qmax (x y : Q) : Q := if Qle_bool x y then y else x.
Definition Qmin (x y : Q) : Q := if Qle_bool x y then x else y.

Section Engine.

(** ToNumber on strings (the grammar of StringNumericLiteral) is left
    abstract: every statement below holds for any such conversion. *)
Variable StringToNumber : string -> Num.

Definition ToNumber (v : Value) : Num :=
  match v with
  | JUndefined => NaN
  | JNull => Fin 0
  | JBool true => Fin 1
  | JBool false => Fin 0
  | JNum n => n
  | JStr s => StringToNumber s
  end.

(** The abstract relational comparison: [None] is the "undefined" outcome
    that a [NaN] operand produces.  Two strings are compared as strings. *)
Definition js_compare (a b : Value) : option comparison :=
  match a, b with
  | JStr x, JStr y => Some (String.compare x y)
  | _, _ =>
      match ToNumber a, ToNumber b with
      | Fin x, Fin y => Some (x ?= y)%Q
      | _, _ => None
      end
  end.

(** [a < b], [a > b], [a >= b], [a <= b] *)
Definition js_lt (a b : Value) : bool :=
  match js_compare a b with Some Lt => true | _ => false end.
Definition js_gt (a b : Value) : bool :=
  match js_compare a b with Some Gt => true | _ => false end.
Definition js_ge (a b : Value) : bool :=
  match js_compare a b with Some Gt | Some Eq => true | _ => false end.
Definition js_le (a b : Value) : bool :=
  match js_compare a b with Some Lt | Some Eq => true | _ => false end.


(** ** Errors and results *)

Inductive Exn : Type :=
| Error (message : string)
| TypeError (message : string)
| SyntaxError (message : string)
| AppError (message : string) (statusCode : nat) (code : string).

Inductive Res (A : Type) : Type :=
| Ok (a : A)
| Throw (e : Exn).
#[global] Arguments Ok {A} a.
#[global] Arguments Throw {A} e.

(** ** Rows of the store (schema.sql) *)

Inductive service_status : Type :=
| pending | in_progress | completed | cancelled | failed.

Record Service : Type := {
  s_id : nat;
  s_name : string;
  s_base_price : Q;
  s_service_category : option string
}.

Record ClientRow : Type := {
  c_id : nat;
  c_user_id : option nat;
  c_business_name : Value;
  c_client_type : Value;
  c_vehicle_value : Value;
  c_credit_score : Value;
  c_annual_income : Value;
  c_journey_stage : Value
}.

Record Vehicle : Type := {
  v_id : nat;
  v_client_id : nat;
  v_condition : Value;
  v_created_at : Z
}.

(** The JSON document [createTriggeredService] writes to [service_data]. *)
Record ServiceData : Type := {
  triggeredBy : string;
  cascadeTriggerId : nat;
  originalConversionRate : Q;
  depth : nat
}.

Record Order : Type := {
  o_id : nat;
  o_client_id : nat;
  o_service_id : nat;
  o_status : service_status;
  o_base_price : Q;
  o_final_price : Q;
  o_discount_amount : Q;
  o_priority : Z;
  o_service_data : option ServiceData;
  o_completed_at : option Z
}.

(** A JSONB column of a row as a query delivers it: SQL NULL, the JSON text
    of the document (a driver that leaves the type unparsed), or the document
    itself as an object (node-postgres parses JSONB unless told otherwise).
    The documents are JSON objects. *)
Inductive Jsonb : Type :=
| SqlNull
| JsonText (document : gmap string Value)
| JsonObject (document : gmap string Value).

(** A row of [service_cascades]. *)
Record CascadeRow : Type := {
  sc_id : nat;
  sc_entry_service_id : nat;
  sc_triggered_service_id : nat;
  sc_conversion_rate : Q;
  sc_priority : Z;
  sc_conditions : Jsonb;
  sc_is_active : bool
}.

Record Trigger : Type := {
  t_id : nat;
  t_client_id : nat;
  t_entry_order_id : nat;
  t_triggered_order_id : option nat;
  t_cascade_id : nat;
  t_converted : bool;
  t_revenue_generated : Q
}.

Record Journey : Type := {
  j_client_id : nat;
  j_stage : string;
  j_conversion_probability : Q;
  j_next_recommended_action : string
}.

(** ** Objects of the engine *)

(** A rule of the in-memory index built by [loadCascadeRules]. *)
Record Rule : Type := {
  id : nat;
  entryServiceId : nat;
  triggeredServiceId : nat;
  conversionRate : Q;
  priority : Z;
  conditions : gmap string Value;
  entryServiceName : string;
  triggeredServiceName : string
}.

(** The profile [CascadeEngine.getClientProfile] builds and caches. *)
Record Client : Type := {
  client_id : nat;
  user_id : option nat;
  business_name : Value;
  client_type : Value;
  vehicle_value : Value;
  credit_score : Value;
  annual_income : Value;
  journey_stage : Value;
  vehicles : option (list Vehicle);
  totalOrders : Z;
  totalSpent : Q;
  lastOrderDate : option Z
}.

(** The profile [RevenueOptimizer.getClientProfile] builds and caches. *)
Record PricingClient : Type := {
  pc_id : nat;
  pc_credit_score : Value;
  pc_vehicle_value : Value;
  pc_services_count : Z
}.

Record Notification : Type := {
  n_type : string;
  n_serviceId : nat;
  n_orderId : nat
}.

(** The closure handed to [setTimeout] by [triggerCascade]. *)
Record Task : Type := {
  task_rule : Rule;
  task_client : Client;
  task_cascadeTrigger : Trigger;
  task_depth : nat
}.

Inductive Level : Type :=
| LError | LWarn | LInfo | LDebug | LCascade | LRevenue | LAudit.

Definition LogEntry : Type := Level * string.

(** ** The world: store, cache, timers, log and the two oracles *)

(** Modelled from the spec: the key-value cache of utils/redis, which is not
    among the sources.  Following the cache interface of the specification
    (get and set by string key), [cache_client_profile] holds the entries
    [client_profile:<id>], [cache_revenue] the revenue data of a client and
    [notifications] the queue of outbound messages; cache operations never
    fail and entries are dropped only by an explicit delete.  The entry
    [triggered_service:<client>:<service>] is written and never read, and is
    left out. *)

Record World : Type := {
  services : list Service;
  clients : list ClientRow;
  vehicle_rows : list Vehicle;
  service_cascades : list CascadeRow;
  admin_users : list nat;
  now : Z;
  currentMonth : nat;
  service_orders : list Order;
  cascade_triggers : list Trigger;
  client_journey : list Journey;
  cache_client_profile : gmap nat Client;
  cache_revenue : gmap nat PricingClient;
  notifications : list (option nat * Notification);
  timers : list Task;
  log : list LogEntry;
  faults : list bool;
  draws : list Q;
  next_id : nat
}.

Definition set_service_orders (x : list Order) (w : World) : World :=
  {| services := services w; clients := clients w; vehicle_rows := vehicle_rows w;
     service_cascades := service_cascades w; admin_users := admin_users w;
     now := now w; currentMonth := currentMonth w;
     service_orders := x; cascade_triggers := cascade_triggers w;
     client_journey := client_journey w;
     cache_client_profile := cache_client_profile w;
     cache_revenue := cache_revenue w; notifications := notifications w;
     timers := timers w; log := log w; faults := faults w; draws := draws w;
     next_id := next_id w |}.

Definition set_cascade_triggers (x : list Trigger) (w : World) : World :=
  {| services := services w; clients := clients w; vehicle_rows := vehicle_rows w;
     service_cascades := service_cascades w; admin_users := admin_users w;
     now := now w; currentMonth := currentMonth w;
     service_orders := service_orders w; cascade_triggers := x;
     client_journey := client_journey w;
     cache_client_profile := cache_client_profile w;
     cache_revenue := cache_revenue w; notifications := notifications w;
     timers := timers w; log := log w; faults := faults w; draws := draws w;
     next_id := next_id w |}.

Definition set_client_journey (x : list Journey) (w : World) : World :=
  {| services := services w; clients := clients w; vehicle_rows := vehicle_rows w;
     service_cascades := service_cascades w; admin_users := admin_users w;
     now := now w; currentMonth := currentMonth w;
     service_orders := service_orders w; cascade_triggers := cascade_triggers w;
     client_journey := x;
     cache_client_profile := cache_client_profile w;
     cache_revenue := cache_revenue w; notifications := notifications w;
     timers := timers w; log := log w; faults := faults w; draws := draws w;
     next_id := next_id w |}.

Definition set_cache_client_profile (x : gmap nat Client) (w : World) : World :=
  {| services := services w; clients := clients w; vehicle_rows := vehicle_rows w;
     service_cascades := service_cascades w; admin_users := admin_users w;
     now := now w; currentMonth := currentMonth w;
     service_orders := service_orders w; cascade_triggers := cascade_triggers w;
     client_journey := client_journey w;
     cache_client_profile := x;
     cache_revenue := cache_revenue w; notifications := notifications w;
     timers := timers w; log := log w; faults := faults w; draws := draws w;
     next_id := next_id w |}.

Definition set_cache_revenue (x : gmap nat PricingClient) (w : World) : World :=
  {| services := services w; clients := clients w; vehicle_rows := vehicle_rows w;
     service_cascades := service_cascades w; admin_users := admin_users w;
     now := now w; currentMonth := currentMonth w;
     service_orders := service_orders w; cascade_triggers := cascade_triggers w;
     client_journey := client_journey w;
     cache_client_profile := cache_client_profile w;
     cache_revenue := x; notifications := notifications w;
     timers := timers w; log := log w; faults := faults w; draws := draws w;
     next_id := next_id w |}.

Definition set_notifications (x : list (option nat * Notification)) (w : World) : World :=
  {| services := services w; clients := clients w; vehicle_rows := vehicle_rows w;
     service_cascades := service_cascades w; admin_users := admin_users w;
     now := now w; currentMonth := currentMonth w;
     service_orders := service_orders w; cascade_triggers := cascade_triggers w;
     client_journey := client_journey w;
     cache_client_profile := cache_client_profile w;
     cache_revenue := cache_revenue w; notifications := x;
     timers := timers w; log := log w; faults := faults w; draws := draws w;
     next_id := next_id w |}.

Definition set_timers (x : list Task) (w : World) : World :=
  {| services := services w; clients := clients w; vehicle_rows := vehicle_rows w;
     service_cascades := service_cascades w; admin_users := admin_users w;
     now := now w; currentMonth := currentMonth w;
     service_orders := service_orders w; cascade_triggers := cascade_triggers w;
     client_journey := client_journey w;
     cache_client_profile := cache_client_profile w;
     cache_revenue := cache_revenue w; notifications := notifications w;
     timers := x; log := log w; faults := faults w; draws := draws w;
     next_id := next_id w |}.

Definition set_log (x : list LogEntry) (w : World) : World :=
  {| services := services w; clients := clients w; vehicle_rows := vehicle_rows w;
     service_cascades := service_cascades w; admin_users := admin_users w;
     now := now w; currentMonth := currentMonth w;
     service_orders := service_orders w; cascade_triggers := cascade_triggers w;
     client_journey := client_journey w;
     cache_client_profile := cache_client_profile w;
     cache_revenue := cache_revenue w; notifications := notifications w;
     timers := timers w; log := x; faults := faults w; draws := draws w;
     next_id := next_id w |}.

Definition set_faults (x : list bool) (w : World) : World :=
  {| services := services w; clients := clients w; vehicle_rows := vehicle_rows w;
     service_cascades := service_cascades w; admin_users := admin_users w;
     now := now w; currentMonth := currentMonth w;
     service_orders := service_orders w; cascade_triggers := cascade_triggers w;
     client_journey := client_journey w;
     cache_client_profile := cache_client_profile w;
     cache_revenue := cache_revenue w; notifications := notifications w;
     timers := timers w; log := log w; faults := x; draws := draws w;
     next_id := next_id w |}.

Definition set_draws (x : list Q) (w : World) : World :=
  {| services := services w; clients := clients w; vehicle_rows := vehicle_rows w;
     service_cascades := service_cascades w; admin_users := admin_users w;
     now := now w; currentMonth := currentMonth w;
     service_orders := service_orders w; cascade_triggers := cascade_triggers w;
     client_journey := client_journey w;
     cache_client_profile := cache_client_profile w;
     cache_revenue := cache_revenue w; notifications := notifications w;
     timers := timers w; log := log w; faults := faults w; draws := x;
     next_id := next_id w |}.

Definition set_next_id (x : nat) (w : World) : World :=
  {| services := services w; clients := clients w; vehicle_rows := vehicle_rows w;
     service_cascades := service_cascades w; admin_users := admin_users w;
     now := now w; currentMonth := currentMonth w;
     service_orders := service_orders w; cascade_triggers := cascade_triggers w;
     client_journey := client_journey w;
     cache_client_profile := cache_client_profile w;
     cache_revenue := cache_revenue w; notifications := notifications w;
     timers := timers w; log := log w; faults := faults w; draws := draws w;
     next_id := x |}.

(** ** A state-and-exception monad for [async] code *)

Definition M (A : Type) : Type := World -> Res A * World.

Definition ret {A} (a : A) : M A := fun w => (Ok a, w).

Definition throw {A} (e : Exn) : M A := fun w => (Throw e, w).

Definition bind {A B} (m : M A) (k : A -> M B) : M B :=
  fun w => match m w with
           | (Ok a, w') => k a w'
           | (Throw e, w') => (Throw e, w')
           end.

(** [try { m } catch (error) { h error }] *)
Definition try_catch {A} (m : M A) (h : Exn -> M A) : M A :=
  fun w => match m w with
           | (Ok a, w') => (Ok a, w')
           | (Throw e, w') => h e w'
           end.

Notation "'let!' x ':=' m 'in' k" := (bind m (fun x => k))
  (at level 10, x name, m at level 100, k at level 200).
Notation "m ';;' k" := (bind m (fun _ => k))
  (at level 100, k at level 200, right associativity).

Definition gets {A} (f : World -> A) : M A := fun w => (Ok (f w), w).
Definition modify (f : World -> World) : M unit := fun w => (Ok tt, f w).

Definition logger (l : Level) (message : string) : M unit :=
  modify (fun w => set_log (log w ++ [(l, message)]) w).

(** ** The store interface (database/connection.js) *)

(** [database.query]: consumes one fault flag; a rejected query is logged by
    the connection and rethrown. *)
Definition query : M unit :=
  fun w => match faults w with
           | [] => (Ok tt, w)
           | false :: fs => (Ok tt, set_faults fs w)
           | true :: fs =>
               (logger LError "Database query error:" ;;
                throw (Error "query rejected")) (set_faults fs w)
           end.

(** [Math.random()]: the next draw of the oracle, in [0,1). *)
Definition random : M Q :=
  fun w => match draws w with
           | [] => (Ok 0%Q, w)
           | d :: ds => (Ok d, set_draws ds w)
           end.

Definition fresh_id : M nat :=
  fun w => (Ok (next_id w), set_next_id (S (next_id w)) w).

(** [database.findById('services', id)] *)
Definition findById_services (i : nat) : M (option Service) :=
  query ;;
  gets (fun w => List.find (fun s => Nat.eqb (s_id s) i) (services w)).

(** [database.findById('service_orders', id)] *)
Definition findById_service_orders (i : nat) : M (option Order) :=
  query ;;
  gets (fun w => List.find (fun o => Nat.eqb (o_id o) i) (service_orders w)).

(** [database.findOne('service_orders', { client_id, service_id })] *)
Definition findOne_service_orders (clientId serviceId : nat) : M (option Order) :=
  query ;;
  gets (fun w => List.find
                   (fun o => Nat.eqb (o_client_id o) clientId
                             && Nat.eqb (o_service_id o) serviceId)
                   (service_orders w)).

(** A row of [service_orders] as the store holds it: the three price columns
    are [DECIMAL(10,2)]. *)
Definition stored (o : Order) : Order :=
  {| o_id := o_id o; o_client_id := o_client_id o; o_service_id := o_service_id o;
     o_status := o_status o;
     o_base_price := decimal2 (o_base_price o);
     o_final_price := decimal2 (o_final_price o);
     o_discount_amount := decimal2 (o_discount_amount o);
     o_priority := o_priority o; o_service_data := o_service_data o;
     o_completed_at := o_completed_at o |}.

(** [database.create('service_orders', row)]: [INSERT ... RETURNING *] answers
    with the row as stored.  An overflow of a price column is one of the
    rejections the fault flag stands for. *)
Definition create_service_orders (mk : nat -> Order) : M Order :=
  query ;;
  let! i := fresh_id in
  modify (fun w => set_service_orders (service_orders w ++ [stored (mk i)]) w) ;;
  ret (stored (mk i)).

(** [database.create('cascade_triggers', row)] *)
Definition create_cascade_triggers (mk : nat -> Trigger) : M Trigger :=
  query ;;
  let! i := fresh_id in
  modify (fun w => set_cascade_triggers (cascade_triggers w ++ [mk i]) w) ;;
  ret (mk i).

(** [database.update('cascade_triggers', id, data)] *)
Definition update_cascade_triggers (i : nat) (f : Trigger -> Trigger) : M unit :=
  query ;;
  modify (fun w => set_cascade_triggers
                     (List.map (fun t => if Nat.eqb (t_id t) i then f t else t)
                               (cascade_triggers w)) w).

(** [database.create('client_journey', row)] *)
Definition create_client_journey (j : Journey) : M unit :=
  query ;;
  modify (fun w => set_client_journey (client_journey w ++ [j]) w).

(** ** RevenueOptimizer (revenue/optimizer.js) *)

Record CreditScoreMultipliers : Type := {
  cs_excellent : Q; cs_good : Q; cs_fair : Q; cs_poor : Q; cs_bad : Q
}.

Record VehicleValueMultipliers : Type := {
  vv_luxury : Q; vv_premium : Q; vv_standard : Q; vv_economy : Q
}.

Record LoyaltyDiscounts : Type := {
  ld_new : Q; ld_returning : Q; ld_loyal : Q; ld_premium : Q
}.

Record VolumeDiscounts : Type := {
  vd_single : Q; vd_bundle : Q; vd_package : Q
}.

Record PricingRules : Type := {
  creditScoreMultipliers : CreditScoreMultipliers;
  vehicleValueMultipliers : VehicleValueMultipliers;
  loyaltyDiscounts : LoyaltyDiscounts;
  volumeDiscounts : VolumeDiscounts;
  urgencyPremiums : gmap string Q
}.

Record RevenueOptimizer : Type := {
  ro_isInitialized : bool;
  dynamicPricingEnabled : bool;
  pricingRules : PricingRules;
  seasonalFactors : gmap string (gmap nat Q);
  marketConditions : gmap string Q
}.

Definition priceAdjustmentCap : Q := 3 # 10.

(** The default rules of [loadPricingRules]. *)
Definition defaultPricingRules : PricingRules :=
  {| creditScoreMultipliers :=
       {| cs_excellent := 1; cs_good := 105 # 100; cs_fair := 11 # 10;
          cs_poor := 115 # 100; cs_bad := 12 # 10 |};
     vehicleValueMultipliers :=
       {| vv_luxury := 115 # 100; vv_premium := 11 # 10; vv_standard := 1;
          vv_economy := 95 # 100 |};
     loyaltyDiscounts :=
       {| ld_new := 85 # 100; ld_returning := 95 # 100; ld_loyal := 9 # 10;
          ld_premium := 85 # 100 |};
     volumeDiscounts :=
       {| vd_single := 1; vd_bundle := 92 # 100; vd_package := 85 # 100 |};
     urgencyPremiums :=
       {[ "standard" := 1%Q; "expedited" := (125 # 100)%Q;
          "emergency" := (15 # 10)%Q ]} |}.

Definition months (fs : list Q) : gmap nat Q :=
  list_to_map (zip (seq 1 (length fs)) fs).

(** The tables of [loadSeasonalFactors]. *)
Definition defaultSeasonalFactors : gmap string (gmap nat Q) :=
  {[ "financial" :=
       months [12 # 10; 115 # 100; 11 # 10; 1; 95 # 100; 9 # 10; 9 # 10;
               95 # 100; 105 # 100; 11 # 10; 115 # 100; 125 # 100]%Q;
     "inspection" :=
       months [9 # 10; 95 # 100; 11 # 10; 12 # 10; 115 # 100; 11 # 10;
               105 # 100; 1; 11 # 10; 115 # 100; 1; 9 # 10]%Q;
     "transport" :=
       months [9 # 10; 95 # 100; 11 # 10; 115 # 100; 12 # 10; 125 # 100;
               12 # 10; 115 # 100; 11 # 10; 1; 95 # 100; 9 # 10]%Q ]}.

(** The defaults of [loadMarketConditions] (the [factor] of each entry). *)
Definition defaultMarketConditions : gmap string Q :=
  {[ "economy" := 1%Q; "automotive" := (105 # 100)%Q; "credit" := (98 # 100)%Q ]}.

Record Options : Type := {
  urgency : option string;
  bundleSize : Value
}.

(** A recorded factor; [NaN] stands for a factor that is no number. *)
Record AdjustmentFactor : Type := {
  af_type : string;
  af_factor : Num
}.

(** The object [calculateOptimalPrice] returns.  The two quotients are [None]
    when JavaScript's division is infinite (a zero divisor under a number
    that is not zero). *)
Record Pricing : Type := {
  basePrice : Q;
  finalPrice : Num;
  adjustmentFactors : list AdjustmentFactor;
  estimatedCost : Num;
  profitMargin : option Num;
  discountAmount : Num;
  premiumAmount : Num;
  totalAdjustment : option Num
}.

(** Arithmetic on numbers: [NaN] is absorbing, also for [Math.max],
    [Math.min] and [Math.round]. *)
Definition Nmul (x y : Num) : Num :=
  match x, y with Fin a, Fin b => Fin (a * b) | _, _ => NaN end.

Definition Nsub (x y : Num) : Num :=
  match x, y with Fin a, Fin b => Fin (a - b) | _, _ => NaN end.

Definition Nmax (x y : Num) : Num :=
  match x, y with Fin a, Fin b => Fin (Qmax a b) | _, _ => NaN end.

Definition Nmin (x y : Num) : Num :=
  match x, y with Fin a, Fin b => Fin (Qmin a b) | _, _ => NaN end.

Definition Nround2 (x : Num) : Num :=
  match x with Fin a => Fin (round2 a) | NaN => NaN end.

Definition Nquot (x y : Num) : option Num :=
  match x, y with
  | Fin a, Fin b =>
      if Qeq_bool b 0 then (if Qeq_bool a 0 then Some NaN else None)
      else Some (Fin (a / b))
  | _, _ => Some NaN
  end.

(** The property names a plain object inherits from [Object.prototype]. *)
Definition objectPrototypeKeys : list string :=
  [ "constructor"; "toString"; "toLocaleString"; "valueOf"; "hasOwnProperty";
    "isPrototypeOf"; "propertyIsEnumerable"; "__proto__";
    "__defineGetter__"; "__defineSetter__"; "__lookupGetter__"; "__lookupSetter__" ].

(** [obj[key] || 1.0] on an object literal whose own properties are numbers:
    an own property unless it is 0; else, for an inherited name, the member
    of [Object.prototype] - a function or an object, truthy and no number;
    else 1.0. *)
Definition property_or_one (obj : gmap string Q) (key : string) : Num :=
  match obj !! key with
  | Some q => if Qeq_bool q 0 then Fin 1 else Fin q
  | None => if existsb (String.eqb key) objectPrototypeKeys then NaN else Fin 1
  end.

(** [x || 1.0] on a number that may be missing *)
Definition or_one (x : option Q) : Q :=
  match x with
  | Some q => if Qeq_bool q 0 then 1%Q else q
  | None => 1%Q
  end.

Definition getCreditScoreFactor (this : RevenueOptimizer) (creditScore : Value) : Q :=
  if negb (truthy creditScore) then 1%Q
  else if js_ge creditScore (num 750) then cs_excellent (creditScoreMultipliers (pricingRules this))
  else if js_ge creditScore (num 650) then cs_good (creditScoreMultipliers (pricingRules this))
  else if js_ge creditScore (num 550) then cs_fair (creditScoreMultipliers (pricingRules this))
  else if js_ge creditScore (num 450) then cs_poor (creditScoreMultipliers (pricingRules this))
  else cs_bad (creditScoreMultipliers (pricingRules this)).

Definition getVehicleValueFactor (this : RevenueOptimizer) (vehicleValue : Value) : Q :=
  if negb (truthy vehicleValue) then 1%Q
  else if js_ge vehicleValue (num 100000) then vv_luxury (vehicleValueMultipliers (pricingRules this))
  else if js_ge vehicleValue (num 50000) then vv_premium (vehicleValueMultipliers (pricingRules this))
  else if js_ge vehicleValue (num 25000) then vv_standard (vehicleValueMultipliers (pricingRules this))
  else vv_economy (vehicleValueMultipliers (pricingRules this)).

Definition getLoyaltyFactor (this : RevenueOptimizer) (servicesCount : Z) : Q :=
  if Z.eqb servicesCount 0 then ld_new (loyaltyDiscounts (pricingRules this))
  else if Z.leb servicesCount 3 then ld_returning (loyaltyDiscounts (pricingRules this))
  else if Z.leb servicesCount 10 then ld_loyal (loyaltyDiscounts (pricingRules this))
  else ld_premium (loyaltyDiscounts (pricingRules this)).

Definition getVolumeFactor (this : RevenueOptimizer) (size : Value) : Q :=
  if js_ge size (num 4) then vd_package (volumeDiscounts (pricingRules this))
  else if js_ge size (num 2) then vd_bundle (volumeDiscounts (pricingRules this))
  else vd_single (volumeDiscounts (pricingRules this)).

Definition getSeasonalFactor (this : RevenueOptimizer) (month : nat)
    (serviceCategory : option string) : Q :=
  match serviceCategory with
  | None => 1%Q
  | Some c =>
      match seasonalFactors this !! c with
      | Some factors => or_one (factors !! month)
      | None => 1%Q
      end
  end.

Definition getMarketFactor (this : RevenueOptimizer)
    (serviceCategory : option string) : Q :=
  match serviceCategory with
  | None => 1%Q
  | Some c =>
      match marketConditions this !! c with
      | Some factor => factor
      | None => 1%Q
      end
  end.

Definition complexityFactors : gmap string Q :=
  {[ "financial" := (12 # 10)%Q; "legal" := (13 # 10)%Q;
     "inspection" := (8 # 10)%Q; "transport" := (9 # 10)%Q;
     "administrative" := (7 # 10)%Q; "maintenance" := (11 # 10)%Q;
     "parts" := (6 # 10)%Q; "purchase" := (4 # 10)%Q; "sales" := (3 # 10)%Q;
     "business" := (14 # 10)%Q; "support" := 1%Q ]}.

Definition estimateServiceCost (service : Service) (client : PricingClient) : Num :=
  let baseCost := Fin (s_base_price service * (35 # 100)) in
  let complexityFactor :=
    match s_service_category service with
    | Some c => property_or_one complexityFactors c
    | None => Fin 1
    end in
  let baseCost := Nmul baseCost complexityFactor in
  let baseCost :=
    if js_lt (pc_credit_score client) (num 600) then Nmul baseCost (Fin (11 # 10))
    else baseCost in
  let baseCost :=
    if js_gt (pc_vehicle_value client) (num 100000) then Nmul baseCost (Fin (115 # 100))
    else baseCost in
  Nround2 baseCost.

(** [RevenueOptimizer.getClientProfile] *)
Definition ro_getClientProfile (clientId : nat) : M (option PricingClient) :=
  try_catch
    (let! cached := gets (fun w => cache_revenue w !! clientId) in
     match cached with
     | Some p => ret (Some p)
     | None =>
         query ;;
         let! row := gets (fun w => List.find (fun c => Nat.eqb (c_id c) clientId)
                                              (clients w)) in
         match row with
         | None => ret None
         | Some c =>
             let! n := gets (fun w =>
                 length (List.filter (fun o => Nat.eqb (o_client_id o) clientId)
                                     (service_orders w))) in
             let profile :=
               {| pc_id := c_id c;
                  pc_credit_score := c_credit_score c;
                  pc_vehicle_value := c_vehicle_value c;
                  pc_services_count := Z.of_nat n |} in
             modify (fun w => set_cache_revenue
                                (<[clientId := profile]> (cache_revenue w)) w) ;;
             ret (Some profile)
         end
     end)
    (fun error =>
       logger LError "Error getting client profile for pricing:" ;;
       ret None).

(** [handleRevenueError] (middleware/errorHandler.js) *)
Definition handleRevenueError {A} (error : Exn) : M A :=
  logger LError "Revenue calculation failed" ;;
  throw (AppError "Revenue calculation service is temporarily unavailable"
                  503 "REVENUE_SERVICE_ERROR").

(** The factors pushed, in order, when dynamic pricing is enabled. *)
Definition dynamicFactors (this : RevenueOptimizer) (month : nat)
    (service : Service) (client : PricingClient) (options : Options)
  : list AdjustmentFactor :=
  [ {| af_type := "credit_score";
       af_factor := Fin (getCreditScoreFactor this (pc_credit_score client)) |};
    {| af_type := "vehicle_value";
       af_factor := Fin (getVehicleValueFactor this (pc_vehicle_value client)) |};
    {| af_type := "loyalty";
       af_factor := Fin (getLoyaltyFactor this (pc_services_count client)) |};
    {| af_type := "seasonal";
       af_factor := Fin (getSeasonalFactor this month (s_service_category service)) |};
    {| af_type := "market";
       af_factor := Fin (getMarketFactor this (s_service_category service)) |} ]
  ++ match urgency options with
     | Some u =>
         if String.eqb u "" then []
         else [ {| af_type := "urgency";
                   af_factor := property_or_one (urgencyPremiums (pricingRules this)) u |} ]
     | None => []
     end
  ++ (if truthy (bundleSize options) && js_gt (bundleSize options) (num 1)
      then [ {| af_type := "volume";
                af_factor := Fin (getVolumeFactor this (bundleSize options)) |} ]
      else []).

(** The body of [calculateOptimalPrice] once service and client are loaded. *)
Definition computePricing (this : RevenueOptimizer) (month : nat)
    (service : Service) (client : PricingClient) (options : Options) : Pricing :=
  let basePrice := s_base_price service in
  let adjustmentFactors :=
    if dynamicPricingEnabled this
    then dynamicFactors this month service client options
    else [] in
  let finalPrice :=
    fold_left (fun p f => Nmul p (af_factor f)) adjustmentFactors (Fin basePrice) in
  let maxPrice := (basePrice * (1 + priceAdjustmentCap))%Q in
  let minPrice := (basePrice * (1 - priceAdjustmentCap))%Q in
  let finalPrice := Nmin (Nmax finalPrice (Fin minPrice)) (Fin maxPrice) in
  let estimatedCost := estimateServiceCost service client in
  {| basePrice := basePrice;
     finalPrice := Nround2 finalPrice;
     adjustmentFactors := adjustmentFactors;
     estimatedCost := estimatedCost;
     profitMargin := Nquot (Nsub finalPrice estimatedCost) finalPrice;
     discountAmount := Nmax (Fin 0) (Nsub (Fin basePrice) finalPrice);
     premiumAmount := Nmax (Fin 0) (Nsub finalPrice (Fin basePrice));
     totalAdjustment := Nquot (Nsub finalPrice (Fin basePrice)) (Fin basePrice) |}.

Definition calculateOptimalPrice (this : RevenueOptimizer)
    (serviceId clientId : nat) (options : Options) : M Pricing :=
  try_catch
    (if negb (ro_isInitialized this)
     then throw (Error "Revenue optimizer not initialized")
     else
       let! service := findById_services serviceId in
       match service with
       | None => throw (Error "Service not found")
       | Some service =>
           let! client := ro_getClientProfile clientId in
           match client with
           | None => throw (Error "Client not found")
           | Some client =>
               let! month := gets currentMonth in
               let pricing := computePricing this month service client options in
               logger LRevenue "Price calculated" ;;
               ret pricing
           end
       end)
    handleRevenueError.

(** ** CascadeEngine *)

Record CascadeEngine : Type := {
  isInitialized : bool;
  cascadeRules : gmap nat (list Rule);
  conversionThreshold : Q
}.

Definition maxCascadeDepth : nat := 3.

(** [handleCascadeError] (middleware/errorHandler.js) *)
Definition handleCascadeError {A} (error : Exn) : M A :=
  logger LError "Service cascade failed" ;;
  throw (AppError "Service cascade engine is temporarily unavailable"
                  503 "CASCADE_SERVICE_ERROR").

(** [ORDER BY sc.priority ASC, sc.conversion_rate DESC] *)
Definition cascade_before (a b : CascadeRow) : bool :=
  Z.ltb (sc_priority a) (sc_priority b)
  || (Z.eqb (sc_priority a) (sc_priority b)
      && Qle_bool (sc_conversion_rate b) (sc_conversion_rate a)).

Fixpoint insert_sorted {A} (before : A -> A -> bool) (x : A) (l : list A) : list A :=
  match l with
  | [] => [x]
  | y :: l' => if before x y then x :: l else y :: insert_sorted before x l'
  end.

Definition order_by {A} (before : A -> A -> bool) (l : list A) : list A :=
  fold_right (insert_sorted before) [] l.

(** One row of the query of [loadCascadeRules]: the rule joined with the
    names of its two services; the join drops a rule whose service is gone. *)
Record RuleRow : Type := {
  rr_cascade : CascadeRow;
  entry_service_name : string;
  triggered_service_name : string
}.

Definition joinRow (svcs : list Service) (r : CascadeRow) : option RuleRow :=
  match List.find (fun s => Nat.eqb (s_id s) (sc_entry_service_id r)) svcs,
        List.find (fun s => Nat.eqb (s_id s) (sc_triggered_service_id r)) svcs with
  | Some es, Some ts =>
      Some {| rr_cascade := r;
              entry_service_name := s_name es;
              triggered_service_name := s_name ts |}
  | _, _ => None
  end.

(** The rows the query returns, in its order. *)
Definition activeRows (w : World) : list RuleRow :=
  omap (joinRow (services w))
       (order_by cascade_before (List.filter sc_is_active (service_cascades w))).

(** [rule.conditions ? JSON.parse(rule.conditions) : {}]: [JSON.parse]
    converts its argument to a string first, and the string of an object,
    "[object Object]", is not JSON. *)
Definition parseConditions (c : Jsonb) : Res (gmap string Value) :=
  match c with
  | SqlNull => Ok ∅
  | JsonText document => Ok document
  | JsonObject _ => Throw (SyntaxError "Unexpected token o in JSON at position 1")
  end.

(** The object the loop pushes for a row. *)
Definition ruleOf (row : RuleRow) : Res Rule :=
  match parseConditions (sc_conditions (rr_cascade row)) with
  | Ok conds =>
      Ok {| id := sc_id (rr_cascade row);
            entryServiceId := sc_entry_service_id (rr_cascade row);
            triggeredServiceId := sc_triggered_service_id (rr_cascade row);
            conversionRate := sc_conversion_rate (rr_cascade row);
            priority := sc_priority (rr_cascade row);
            conditions := conds;
            entryServiceName := entry_service_name row;
            triggeredServiceName := triggered_service_name row |}
  | Throw error => Throw error
  end.

(** The loop [for (const rule of rules.rows)] on the index [idx]: the index
    as the loop leaves it, and how the loop ends.  The list of an entry
    service is created before the object to push is evaluated, so a row
    whose conditions do not parse can leave an empty list behind. *)
Fixpoint groupRows (rows : list RuleRow) (idx : gmap nat (list Rule))
  : gmap nat (list Rule) * Res unit :=
  match rows with
  | [] => (idx, Ok tt)
  | row :: rest =>
      let entryServiceId := sc_entry_service_id (rr_cascade row) in
      let idx := match idx !! entryServiceId with
                 | Some _ => idx
                 | None => <[entryServiceId := []]> idx
                 end in
      match ruleOf row with
      | Throw error => (idx, Throw error)
      | Ok rule =>
          groupRows rest
            (<[entryServiceId :=
                 (match idx !! entryServiceId with
                  | Some rs => rs
                  | None => []
                  end ++ [rule])%list]> idx)
      end
  end.

(** The rule the loop files for a row of the store, when the row is in the
    join and its conditions parse. *)
Definition joinRule (svcs : list Service) (r : CascadeRow) : option Rule :=
  match joinRow svcs r with
  | Some row =>
      match ruleOf row with
      | Ok rule => Some rule
      | Throw _ => None
      end
  | None => None
  end.

Definition activeRules (w : World) : list Rule :=
  omap (joinRule (services w))
       (order_by cascade_before (List.filter sc_is_active (service_cascades w))).

(** The grouping loop of [loadCascadeRules] on rules whose conditions are
    parsed. *)
Definition groupRules (rules : list Rule) : gmap nat (list Rule) :=
  fold_left (fun idx rule =>
               <[entryServiceId rule :=
                   (match idx !! entryServiceId rule with
                    | Some rs => rs
                    | None => []
                    end ++ [rule])%list]> idx)
            rules ∅.

(** [try { m } catch (error) { ... }] with the outcome of [m] as a value. *)
Definition attempt {A} (m : M A) : M (Res A) :=
  fun w => let (r, w') := m w in (Ok r, w').

(** [loadCascadeRules] works on the index of the engine in place: the result
    is the engine as the call leaves it and how the call completes.  The
    index is cleared once the query has answered, and filled row by row. *)
Definition loadCascadeRules (this : CascadeEngine) : M (CascadeEngine * Res unit) :=
  let! rules := attempt (query ;; gets activeRows) in
  match rules with
  | Throw error =>
      let! thrown := attempt (handleCascadeError error) in
      ret (this, thrown)
  | Ok rows =>
      let loaded := groupRows rows ∅ in
      let this := {| isInitialized := isInitialized this;
                     cascadeRules := fst loaded;
                     conversionThreshold := conversionThreshold this |} in
      match snd loaded with
      | Throw error =>
          let! thrown := attempt (handleCascadeError error) in
          ret (this, thrown)
      | Ok _ =>
          logger LInfo "Loaded cascade rules" ;;
          ret (this, Ok tt)
      end
  end.

Definition initialize (this : CascadeEngine) : M (CascadeEngine * Res unit) :=
  let! loaded := loadCascadeRules this in
  match snd loaded with
  | Ok _ =>
      logger LInfo "Cascade engine initialized successfully" ;;
      ret ({| isInitialized := true;
              cascadeRules := cascadeRules (fst loaded);
              conversionThreshold := conversionThreshold (fst loaded) |}, Ok tt)
  | Throw error =>
      logger LError "Failed to initialize cascade engine:" ;;
      ret (fst loaded, Throw error)
  end.

(** [findMany('vehicles', { client_id }, { limit: 5, orderBy: 'created_at DESC' })] *)
Definition recentVehicles (clientId : nat) (w : World) : list Vehicle :=
  take 5 (order_by (fun a b => Z.leb (v_created_at b) (v_created_at a))
                   (List.filter (fun v => Nat.eqb (v_client_id v) clientId)
                                (vehicle_rows w))).

Definition ordersOf (clientId : nat) (w : World) : list Order :=
  List.filter (fun o => Nat.eqb (o_client_id o) clientId) (service_orders w).

Definition is_completed (o : Order) : bool :=
  match o_status o with completed => true | _ => false end.

(** [SUM(CASE WHEN so.status = 'completed' THEN so.final_price ELSE 0 END)] *)
Definition sumCompleted (os : list Order) : Q :=
  fold_left (fun acc o => if is_completed o then (acc + o_final_price o)%Q else acc)
            os 0%Q.

(** [MAX(so.completed_at)] *)
Definition maxCompletedAt (os : list Order) : option Z :=
  fold_left (fun acc o =>
               match acc, o_completed_at o with
               | Some a, Some t => Some (Z.max a t)
               | None, t => t
               | a, None => a
               end) os None.

(** [CascadeEngine.getClientProfile] *)
Definition getClientProfile (clientId : nat) : M (option Client) :=
  try_catch
    (let! cached := gets (fun w => cache_client_profile w !! clientId) in
     match cached with
     | Some p => ret (Some p)
     | None =>
         query ;;
         let! row := gets (fun w => List.find (fun c => Nat.eqb (c_id c) clientId)
                                              (clients w)) in
         match row with
         | None => ret None
         | Some c =>
             match c_user_id c with
             | None => ret None
             | Some u =>
                 let! os := gets (ordersOf clientId) in
                 query ;;
                 let! vs := gets (recentVehicles clientId) in
                 query ;;
                 let profile :=
                   {| client_id := c_id c;
                      user_id := Some u;
                      business_name := c_business_name c;
                      client_type := c_client_type c;
                      vehicle_value := c_vehicle_value c;
                      credit_score := c_credit_score c;
                      annual_income := c_annual_income c;
                      journey_stage := c_journey_stage c;
                      vehicles := Some vs;
                      totalOrders := Z.of_nat (length os);
                      totalSpent := sumCompleted os;
                      lastOrderDate := maxCompletedAt os |} in
                 modify (fun w => set_cache_client_profile
                                    (<[clientId := profile]> (cache_client_profile w)) w) ;;
                 ret (Some profile)
             end
         end
     end)
    (fun error =>
       logger LError "Failed to get client profile" ;;
       ret None).

(** *** Condition evaluation *)

(** [conditions.key]: a missing property reads as [undefined]. *)
Definition prop (conditions : gmap string Value) (key : string) : Value :=
  match conditions !! key with
  | Some v => v
  | None => JUndefined
  end.

Definition hasFinancingNeed (client : Client) : bool :=
  js_lt (credit_score client) (num 700) || js_gt (vehicle_value client) (num 50000).

Definition hasVehiclePurchaseIntent (client : Client) : bool :=
  strict_eq (journey_stage client) (JStr "consideration")
  || strict_eq (journey_stage client) (JStr "purchase").

Definition hasBusinessFinancingNeed (client : Client) : Value :=
  if strict_eq (client_type client) (JStr "business") then JBool true
  else business_name client.

(** [client.vehicles.some(...)] throws a TypeError when [vehicles] is missing. *)
Definition hasVehicleConditionIssues (client : Client) : Res bool :=
  match vehicles client with
  | None => Throw (TypeError "Cannot read properties of undefined (reading 'some')")
  | Some vs =>
      Ok (existsb (fun v => strict_eq (v_condition v) (JStr "fair")
                            || strict_eq (v_condition v) (JStr "poor")) vs)
  end.

Definition getDaysSinceLastOrder (today : Z) (client : Client) : Z :=
  match lastOrderDate client with
  | None => 999
  | Some t => (today - t) / (24 * 60 * 60 * 1000)
  end.

Definition needsCreditImprovement (client : Client) : bool :=
  js_lt (credit_score client) (num 650).

Definition hasComplexLegalNeeds (client : Client) : bool :=
  strict_eq (client_type client) (JStr "business")
  || Qltb 100000 (totalSpent client).

(** [if (c) { return false; } rest] where evaluating [c] may throw. *)
Definition return_false_if (c : Res bool) (rest : Res bool) : Res bool :=
  match c with
  | Throw e => Throw e
  | Ok true => Ok false
  | Ok false => rest
  end.

(** [v && e]: [e] is evaluated only when [v] is truthy. *)
Definition and_then (v : Value) (e : Res bool) : Res bool :=
  if truthy v then e else Ok false.

(** The thirteen [if] statements of [evaluateConditions], in source order. *)
Definition checkConditions (today : Z) (conditions : gmap string Value)
    (client : Client) : Res bool :=
  return_false_if
    (and_then (prop conditions "min_credit_score")
       (Ok (js_lt (credit_score client) (prop conditions "min_credit_score")))) (
  return_false_if
    (and_then (prop conditions "max_credit_score")
       (Ok (js_gt (credit_score client) (prop conditions "max_credit_score")))) (
  return_false_if
    (and_then (prop conditions "min_vehicle_value")
       (Ok (js_lt (vehicle_value client) (prop conditions "min_vehicle_value")))) (
  return_false_if
    (and_then (prop conditions "min_annual_income")
       (Ok (js_lt (annual_income client) (prop conditions "min_annual_income")))) (
  return_false_if
    (and_then (prop conditions "journey_stage")
       (Ok (negb (strict_eq (journey_stage client) (prop conditions "journey_stage"))))) (
  return_false_if
    (and_then (prop conditions "financing_needed")
       (Ok (negb (hasFinancingNeed client)))) (
  return_false_if
    (and_then (prop conditions "vehicle_purchase_intent")
       (Ok (negb (hasVehiclePurchaseIntent client)))) (
  return_false_if
    (and_then (prop conditions "business_financing_needed")
       (Ok (negb (truthy (hasBusinessFinancingNeed client))))) (
  return_false_if
    (and_then (prop conditions "vehicle_condition_fair_or_below")
       (match hasVehicleConditionIssues client with
        | Ok b => Ok (negb b)
        | Throw e => Throw e
        end)) (
  return_false_if
    (and_then (prop conditions "min_days_since_last_order")
       (Ok (js_lt (num (inject_Z (getDaysSinceLastOrder today client)))
                  (prop conditions "min_days_since_last_order")))) (
  return_false_if
    (and_then (prop conditions "min_total_spent")
       (Ok (js_lt (num (totalSpent client)) (prop conditions "min_total_spent")))) (
  return_false_if
    (and_then (prop conditions "credit_score_improvement_needed")
       (Ok (negb (needsCreditImprovement client)))) (
  return_false_if
    (and_then (prop conditions "legal_structure_complex")
       (Ok (negb (hasComplexLegalNeeds client)))) (
  Ok true))))))))))))).

(** The [try] block of [evaluateConditions]. *)
Definition evaluateConditionsBody (today : Z) (conditions : gmap string Value)
    (client : Client) (serviceOrder : Order) : Res bool :=
  if Nat.eqb (size conditions) 0 then Ok true
  else checkConditions today conditions client.

(** [evaluateConditions]: an exception is logged and counts as "not met". *)
Definition evaluateConditions (conditions : gmap string Value)
    (client : Client) (serviceOrder : Order) : M bool :=
  let! today := gets now in
  match evaluateConditionsBody today conditions client serviceOrder with
  | Ok b => ret b
  | Throw error =>
      logger LError "Error evaluating cascade conditions" ;;
      ret false
  end.

(** *** Duplicate check and cascade pricing *)

Definition checkExistingService (clientId serviceId : nat) : M (option Order) :=
  try_catch
    (let! existing := findOne_service_orders clientId serviceId in
     ret existing)
    (fun error =>
       logger LError "Error checking existing service" ;;
       ret None).

Record DynamicPricing : Type := {
  dp_basePrice : Q;
  dp_finalPrice : Q;
  dp_discountAmount : Q;
  dp_discountPercentage : Q
}.

(** [calculateDynamicPricing]; nothing in its [try] block can throw. *)
Definition calculateDynamicPricing (service : Service) (client : Client)
  : DynamicPricing :=
  let basePrice := s_base_price service in
  let discountAmount := 0%Q in
  let discountAmount :=
    if Qltb 50000 (totalSpent client) then (basePrice * (1 # 10))%Q
    else discountAmount in
  let discountAmount :=
    if js_gt (credit_score client) (num 750)
    then Qmax discountAmount (basePrice * (5 # 100))
    else discountAmount in
  let discountAmount :=
    if Z.eqb (totalOrders client) 0
    then Qmax discountAmount (basePrice * (15 # 100))
    else discountAmount in
  let discountAmount :=
    if Z.ltb 5 (totalOrders client)
    then Qmax discountAmount (basePrice * (8 # 100))
    else discountAmount in
  let finalPrice := Qmax (basePrice - discountAmount) (basePrice * (5 # 10)) in
  {| dp_basePrice := basePrice;
     dp_finalPrice := finalPrice;
     dp_discountAmount := discountAmount;
     dp_discountPercentage :=
       if Qltb 0 discountAmount then (discountAmount / basePrice * 100)%Q else 0%Q |}.

Definition updateClientJourney (clientId : nat) (action serviceName : string)
    (rate : Q) : M unit :=
  try_catch
    (create_client_journey
       {| j_client_id := clientId;
          j_stage := action;
          j_conversion_probability := rate;
          j_next_recommended_action := "Complete " +:+ serviceName +:+ " service" |})
    (fun error => logger LError "Error updating client journey").

(** [redis.queueNotification(userId, notification)] *)
Definition queueNotification (userId : option nat) (n : Notification) : M unit :=
  modify (fun w => set_notifications (notifications w ++ [(userId, n)]) w).

Fixpoint forEach {A} (f : A -> M unit) (l : list A) : M unit :=
  match l with
  | [] => ret tt
  | x :: l' => f x ;; forEach f l'
  end.

Definition sendCascadeNotifications (client : Client) (service : Service)
    (serviceOrder : Order) : M unit :=
  try_catch
    (queueNotification (user_id client)
       {| n_type := "service_recommended";
          n_serviceId := s_id service; n_orderId := o_id serviceOrder |} ;;
     query ;;
     let! adminUsers := gets admin_users in
     forEach (fun admin =>
                queueNotification (Some admin)
                  {| n_type := "cascade_triggered";
                     n_serviceId := s_id service; n_orderId := o_id serviceOrder |})
             adminUsers)
    (fun error => logger LError "Error sending cascade notifications").

(** *** Materialising a triggered order (the timer callback) *)

(** [createTriggeredService].  The order number (a timestamp and a random
    suffix) is not modelled: nothing in the engine reads it. *)

Definition createTriggeredService (rule : Rule) (client : Client)
    (cascadeTrigger : Trigger) (depth : nat) : M unit :=
  try_catch
    (let! service := findById_services (triggeredServiceId rule) in
     match service with
     | None => logger LError "Triggered service not found"
     | Some service =>
         let pricing := calculateDynamicPricing service client in
         let! serviceOrder :=
           create_service_orders (fun i =>
             {| o_id := i;
                o_client_id := client_id client;
                o_service_id := s_id service;
                o_status := pending;
                o_base_price := s_base_price service;
                o_final_price := dp_finalPrice pricing;
                o_discount_amount := dp_discountAmount pricing;
                o_priority := priority rule;
                o_service_data :=
                  Some {| triggeredBy := "cascade";
                          cascadeTriggerId := t_id cascadeTrigger;
                          originalConversionRate := conversionRate rule;
                          depth := depth + 1 |};
                o_completed_at := None |}) in
         update_cascade_triggers (t_id cascadeTrigger) (fun t =>
             {| t_id := t_id t; t_client_id := t_client_id t;
                t_entry_order_id := t_entry_order_id t;
                t_triggered_order_id := Some (o_id serviceOrder);
                t_cascade_id := t_cascade_id t;
                t_converted := true;
                t_revenue_generated := t_revenue_generated t |}) ;;
         updateClientJourney (client_id client) "service_triggered"
                             (s_name service) (conversionRate rule) ;;
         sendCascadeNotifications client service serviceOrder ;;
         logger LCascade "Service cascade conversion successful"
     end)
    (fun error =>
       logger LError "Failed to create triggered service" ;;
       update_cascade_triggers (t_id cascadeTrigger) (fun t =>
           {| t_id := t_id t; t_client_id := t_client_id t;
              t_entry_order_id := t_entry_order_id t;
              t_triggered_order_id := t_triggered_order_id t;
              t_cascade_id := t_cascade_id t;
              t_converted := false;
              t_revenue_generated := 0 |})).

(** [setTimeout(callback, this.cascadeDelayMs)] *)
Definition setTimeout (task : Task) : M unit :=
  modify (fun w => set_timers (timers w ++ [task]) w).

(** *** Evaluating the rules of a completed order *)

(** The body of the [for (const rule of rules)] loop. *)
Definition processRule (this : CascadeEngine) (serviceOrderId clientId : nat)
    (depth : nat) (client : Client) (serviceOrder : Order) (rule : Rule) : M unit :=
  try_catch
    (if Qltb (conversionRate rule) (conversionThreshold this)
     then logger LDebug "Rule conversion rate below threshold"
     else
       let! existingOrder := checkExistingService clientId (triggeredServiceId rule) in
       match existingOrder with
       | Some _ => logger LDebug "Client already has triggered service"
       | None =>
           let! conditionsMet := evaluateConditions (conditions rule) client serviceOrder in
           if negb conditionsMet
           then logger LDebug "Cascade conditions not met"
           else
             let! r := random in
             let shouldTrigger := Qltb r (conversionRate rule) in
             if negb shouldTrigger
             then logger LDebug "Cascade not triggered due to probability"
             else
               let! cascadeTrigger :=
                 create_cascade_triggers (fun i =>
                   {| t_id := i;
                      t_client_id := clientId;
                      t_entry_order_id := serviceOrderId;
                      t_triggered_order_id := None;
                      t_cascade_id := id rule;
                      t_converted := false;
                      t_revenue_generated := 0 |}) in
               setTimeout {| task_rule := rule; task_client := client;
                             task_cascadeTrigger := cascadeTrigger;
                             task_depth := depth |} ;;
               logger LCascade "Service cascade triggered"
       end)
    (fun error => logger LError "Error processing cascade rule").

Definition triggerCascade (this : CascadeEngine) (serviceOrderId clientId : nat)
    (depth : nat) : M unit :=
  try_catch
    (if negb (isInitialized this)
     then throw (Error "Cascade engine not initialized")
     else if Nat.leb maxCascadeDepth depth
     then logger LWarn "Maximum cascade depth reached"
     else
       let! serviceOrder := findById_service_orders serviceOrderId in
       match serviceOrder with
       | None => logger LWarn "Service order not found or not completed"
       | Some serviceOrder =>
           if negb (is_completed serviceOrder)
           then logger LWarn "Service order not found or not completed"
           else
             match cascadeRules this !! o_service_id serviceOrder with
             | None | Some [] => logger LDebug "No cascade rules found for service"
             | Some rules =>
                 let! client := getClientProfile clientId in
                 match client with
                 | None => logger LWarn "Client not found for cascade"
                 | Some client =>
                     forEach (processRule this serviceOrderId clientId depth
                                          client serviceOrder) rules
                 end
             end
       end)
    handleCascadeError.

(** ** The completion hook (api/services.js) *)

(** [RevenueOptimizer.updateClientLifetimeValue]: the counters it rewrites on
    the client row are not read by the engine; it drops both cached profiles. *)
Definition updateClientLifetimeValue (clientId : nat) : M unit :=
  try_catch
    (query ;;
     let! client := gets (fun w => List.find (fun c => Nat.eqb (c_id c) clientId)
                                             (clients w)) in
     match client with
     | None => ret tt
     | Some _ =>
         query ;;
         modify (fun w => set_cache_client_profile
                            (delete clientId (cache_client_profile w)) w) ;;
         modify (fun w => set_cache_revenue (delete clientId (cache_revenue w)) w)
     end)
    (fun error => logger LError "Error updating client lifetime value:").

(** [RevenueOptimizer.trackRevenue]; the revenue record and the metric
    counters it writes are not read by the engine. *)
Definition trackRevenue (clientId : nat) : M unit :=
  try_catch
    (query ;;
     updateClientLifetimeValue clientId ;;
     logger LRevenue "Revenue Generated")
    handleRevenueError.

(** [handleServiceCompletion(orderId, clientId, app)] with both services
    registered on the application: [triggerCascade] is called with two
    arguments, so its [depth] parameter takes the default [0]. *)
Definition handleServiceCompletion (cascadeEngine : CascadeEngine)
    (orderId clientId : nat) : M unit :=
  try_catch
    (let! order := findById_service_orders orderId in
     match order with
     | None => throw (TypeError "Cannot read properties of null (reading 'final_price')")
     | Some order =>
         trackRevenue clientId ;;
         triggerCascade cascadeEngine orderId clientId 0 ;;
         logger LRevenue "Service completed"
     end)
    (fun error => logger LError "Error handling service completion").

Definition set_completed (today : Z) (o : Order) : Order :=
  {| o_id := o_id o; o_client_id := o_client_id o; o_service_id := o_service_id o;
     o_status := completed;
     o_base_price := o_base_price o; o_final_price := o_final_price o;
     o_discount_amount := o_discount_amount o; o_priority := o_priority o;
     o_service_data := o_service_data o;
     o_completed_at := match o_completed_at o with
                       | Some t => Some t
                       | None => Some today
                       end |}.

(** The answers of [PUT /orders/:orderId]. *)
Inductive UpdateResponse : Type :=
| Updated             (* 200 *)
| OrderNotFound       (* 404, ORDER_NOT_FOUND *)
| UpdateFailed.       (* 500, ORDER_UPDATE_FAILED *)

(** [PUT /orders/:orderId] with body [{ status: 'completed' }], sent by a
    staff user. *)
Definition completeOrder (cascadeEngine : CascadeEngine) (orderId : nat)
  : M UpdateResponse :=
  try_catch
    (let! currentOrder := findById_service_orders orderId in
     match currentOrder with
     | None => ret OrderNotFound
     | Some currentOrder =>
         query ;;
         modify (fun w => set_service_orders
                   (List.map (fun o => if Nat.eqb (o_id o) orderId
                                       then set_completed (now w) o else o)
                             (service_orders w)) w) ;;
         (if negb (is_completed currentOrder)
          then handleServiceCompletion cascadeEngine orderId (o_client_id currentOrder)
          else ret tt) ;;
         logger LAudit "Service order updated" ;;
         ret Updated
     end)
    (fun error =>
       logger LError "Error updating order" ;;
       ret UpdateFailed).

(** ** Running the system *)

Inductive Event : Type :=
| Complete (orderId : nat)       (* an order is marked completed through the API *)
| Elapse.                        (* the delay of the oldest pending timer elapses *)

(** The oldest pending timer runs; a rejection of its callback is unhandled. *)
Definition fireTimer (w : World) : World :=
  match timers w with
  | [] => w
  | task :: rest =>
      snd (createTriggeredService (task_rule task) (task_client task)
                                  (task_cascadeTrigger task) (task_depth task)
                                  (set_timers rest w))
  end.

Definition step (cascadeEngine : CascadeEngine) (e : Event) (w : World) : World :=
  match e with
  | Complete orderId => snd (completeOrder cascadeEngine orderId w)
  | Elapse => fireTimer w
  end.

Definition run (cascadeEngine : CascadeEngine) (es : list Event) (w : World) : World :=
  fold_left (fun w e => step cascadeEngine e w) es w.

(** ** Observations on the store *)

(** The orders a customer holds for a service. *)
Definition ordersFor (clientId serviceId : nat) (w : World) : list Order :=
  List.filter (fun o => Nat.eqb (o_client_id o) clientId
                        && Nat.eqb (o_service_id o) serviceId)
              (service_orders w).

(** The service a trigger record proposes: the triggered service of its rule. *)
Definition triggeredServiceOf (w : World) (t : Trigger) : option nat :=
  match List.find (fun r => Nat.eqb (sc_id r) (t_cascade_id t)) (service_cascades w) with
  | Some r => Some (sc_triggered_service_id r)
  | None => None
  end.

(** The converted trigger records of a (customer, service) pair. *)
Definition convertedTriggersFor (clientId serviceId : nat) (w : World) : list Trigger :=
  List.filter (fun t => t_converted t
                        && Nat.eqb (t_client_id t) clientId
                        && match triggeredServiceOf w t with
                           | Some s => Nat.eqb s serviceId
                           | None => false
                           end)
              (cascade_triggers w).

(** The number of recommendation hops between an order and the organic order
    its chain started from, read off the trigger records. *)
Fixpoint hops (fuel : nat) (w : World) (orderId : nat) : nat :=
  match fuel with
  | O => 0
  | S fuel' =>
      match List.find (fun o => Nat.eqb (o_id o) orderId) (service_orders w) with
      | Some o =>
          match o_service_data o with
          | Some d =>
              match List.find (fun t => Nat.eqb (t_id t) (cascadeTriggerId d))
                              (cascade_triggers w) with
              | Some t => S (hops fuel' w (t_entry_order_id t))
              | None => 0
              end
          | None => 0
          end
      | None => 0
      end
  end.

(** ** The condition keys the engine reads *)

Definition knownKeys : list string :=
  [ "min_credit_score"; "max_credit_score"; "min_vehicle_value";
    "min_annual_income"; "journey_stage"; "financing_needed";
    "vehicle_purchase_intent"; "business_financing_needed";
    "vehicle_condition_fair_or_below"; "min_days_since_last_order";
    "min_total_spent"; "credit_score_improvement_needed";
    "legal_structure_complex" ].

(** The test of the [if] statement of [key]: [Ok true] makes
    [evaluateConditions] return false. *)
Definition guard (today : Z) (client : Client) (key : string) (v : Value)
  : Res bool :=
  if String.eqb key "min_credit_score" then Ok (js_lt (credit_score client) v)
  else if String.eqb key "max_credit_score" then Ok (js_gt (credit_score client) v)
  else if String.eqb key "min_vehicle_value" then Ok (js_lt (vehicle_value client) v)
  else if String.eqb key "min_annual_income" then Ok (js_lt (annual_income client) v)
  else if String.eqb key "journey_stage"
       then Ok (negb (strict_eq (journey_stage client) v))
  else if String.eqb key "financing_needed" then Ok (negb (hasFinancingNeed client))
  else if String.eqb key "vehicle_purchase_intent"
       then Ok (negb (hasVehiclePurchaseIntent client))
  else if String.eqb key "business_financing_needed"
       then Ok (negb (truthy (hasBusinessFinancingNeed client)))
  else if String.eqb key "vehicle_condition_fair_or_below"
       then match hasVehicleConditionIssues client with
            | Ok b => Ok (negb b)
            | Throw e => Throw e
            end
  else if String.eqb key "min_days_since_last_order"
       then Ok (js_lt (num (inject_Z (getDaysSinceLastOrder today client))) v)
  else if String.eqb key "min_total_spent" then Ok (js_lt (num (totalSpent client)) v)
  else if String.eqb key "credit_score_improvement_needed"
       then Ok (negb (needsCreditImprovement client))
  else if String.eqb key "legal_structure_complex"
       then Ok (negb (hasComplexLegalNeeds client))
  else Ok false.

(** The [if] statements of a list of keys, in order. *)
Definition checkKeys (today : Z) (conditions : gmap string Value)
    (client : Client) (keys : list string) : Res bool :=
  fold_right
    (fun key rest =>
       return_false_if
         (and_then (prop conditions key) (guard today client key (prop conditions key)))
         rest)
    (Ok true) keys.

(** The price the specification expects for a cascade-created order of a
    customer in the 650-749 credit tier, other factors neutral. *)
Definition tierPrice (base : Q) : Q :=
  round2 (Qmin (Qmax (base * (105 # 100)) (base * (1 - priceAdjustmentCap)))
               (base * (1 + priceAdjustmentCap))).

End Engine.

Local Open Scope list_scope.

(** ** A concrete string-to-number conversion

    The decimal fragment of StringNumericLiteral, [-]digits[.digits]; the
    empty string converts to 0 and anything else to [NaN].  It instantiates
    the abstract conversion in the concrete runs below. *)

Definition digitValue (c : ascii) : option Z :=
  let n := Z.of_nat (nat_of_ascii c) in
  if (48 <=? n)%Z && (n <=? 57)%Z then Some (n - 48)%Z else None.

(** Reads digits; returns the accumulated value, the number of digits read
    and the rest of the string. *)
Fixpoint readDigits (s : string) (acc : Z) (count : nat) : Z * nat * string :=
  match s with
  | String c s' =>
      match digitValue c with
      | Some d => readDigits s' (10 * acc + d)%Z (S count)
      | None => (acc, count, s)
      end
  | EmptyString => (acc, count, s)
  end.

Definition parseUnsigned (s : string) : Num :=
  match readDigits s 0 0 with
  | (i, ni, EmptyString) => if Nat.eqb ni 0 then NaN else Fin (inject_Z i)
  | (i, ni, String "." rest) =>
      match readDigits rest 0 0 with
      | (f, nf, EmptyString) =>
          if Nat.eqb (ni + nf) 0 then NaN
          else Fin (inject_Z i + inject_Z f / inject_Z (10 ^ Z.of_nat nf))%Q
      | _ => NaN
      end
  | _ => NaN
  end.

Definition parseDecimal (s : string) : Num :=
  match s with
  | EmptyString => Fin 0
  | String "-" s' =>
      match parseUnsigned s' with
      | Fin q => Fin (- q)
      | NaN => NaN
      end
  | _ => parseUnsigned s
  end.

(** ** Concrete worlds *)

Definition newEngine : CascadeEngine :=
  {| isInitialized := false; cascadeRules := ∅; conversionThreshold := 75 # 100 |}.

(** The engine after [initialize] on a world, as the call leaves it. *)
Definition engineOf (w : World) : CascadeEngine :=
  match initialize newEngine w with
  | (Ok (e, _), _) => e
  | (Throw _, _) => newEngine
  end.

Definition mkService (i : nat) (name : string) (price : Q) (cat : string) : Service :=
  {| s_id := i; s_name := name; s_base_price := price;
     s_service_category := Some cat |}.

Definition mkClient (i : nat) (score : Value) : ClientRow :=
  {| c_id := i; c_user_id := Some i; c_business_name := JNull;
     c_client_type := JStr "individual"; c_vehicle_value := JNull;
     c_credit_score := score; c_annual_income := JNull;
     c_journey_stage := JStr "discovery" |}.

Definition mkOrder (i client service : nat) (st : service_status) (price : Q) : Order :=
  {| o_id := i; o_client_id := client; o_service_id := service; o_status := st;
     o_base_price := price; o_final_price := price; o_discount_amount := 0;
     o_priority := 1; o_service_data := None;
     o_completed_at := match st with completed => Some 0%Z | _ => None end |}.

(** An active rule of priority 1 whose conditions are delivered as JSON
    text. *)
Definition mkCascade (i entry triggered : nat) (rate : Q)
    (conds : gmap string Value) : CascadeRow :=
  {| sc_id := i; sc_entry_service_id := entry; sc_triggered_service_id := triggered;
     sc_conversion_rate := rate; sc_priority := 1; sc_conditions := JsonText conds;
     sc_is_active := true |}.

(** Two seeded rules of migrate.js lead to the same service: a customer
    completes a vehicle purchase and a vehicle finance order. *)
Definition raceWorld : World :=
  {| services := [ mkService 1 "vehicle-purchase" 5000 "purchase";
                   mkService 2 "vehicle-finance" 1500 "financial";
                   mkService 3 "vehicle-inspection" 300 "inspection" ];
     clients := [ mkClient 1 (num 720) ];
     vehicle_rows := [];
     service_cascades :=
       [ mkCascade 11 1 3 (85 # 100) {[ "pre_purchase_inspection" := JBool true ]};
         mkCascade 12 2 3 (81 # 100) {[ "lender_inspection_required" := JBool true ]} ];
     admin_users := []; now := 0; currentMonth := 12;
     service_orders := [ mkOrder 21 1 1 in_progress 5000;
                         mkOrder 22 1 2 in_progress 1500 ];
     cascade_triggers := []; client_journey := [];
     cache_client_profile := ∅; cache_revenue := ∅; notifications := [];
     timers := []; log := []; faults := [];
     draws := [1 # 10; 1 # 10]%Q; next_id := 100 |}.

(** The scenario of the specification: service A (1000.00) cascades to
    service B with conversion rate 0.84 under [min_credit_score: 500]; the
    customer has credit score 720 and no order for B; the draw is 0.10. *)
Definition scenarioWorld : World :=
  {| services := [ mkService 1 "A" 1000 "financial";
                   mkService 2 "B" 2000 "financial" ];
     clients := [ mkClient 1 (num 720) ];
     vehicle_rows := [];
     service_cascades := [ mkCascade 11 1 2 (84 # 100) {[ "min_credit_score" := num 500 ]} ];
     admin_users := []; now := 0; currentMonth := 4;
     service_orders := [ mkOrder 21 1 1 in_progress 1000 ];
     cascade_triggers := []; client_journey := [];
     cache_client_profile := ∅; cache_revenue := ∅; notifications := [];
     timers := []; log := []; faults := [];
     draws := [1 # 10]%Q; next_id := 100 |}.

(** A chain of five services, each recommending the next. *)
Definition chainWorld : World :=
  {| services := [ mkService 1 "S0" 100 "support"; mkService 2 "S1" 100 "support";
                   mkService 3 "S2" 100 "support"; mkService 4 "S3" 100 "support";
                   mkService 5 "S4" 100 "support" ];
     clients := [ mkClient 1 (num 720) ];
     vehicle_rows := [];
     service_cascades := [ mkCascade 11 1 2 (9 # 10) ∅; mkCascade 12 2 3 (9 # 10) ∅;
                           mkCascade 13 3 4 (9 # 10) ∅; mkCascade 14 4 5 (9 # 10) ∅ ];
     admin_users := []; now := 0; currentMonth := 4;
     service_orders := [ mkOrder 21 1 1 in_progress 100 ];
     cascade_triggers := []; client_journey := [];
     cache_client_profile := ∅; cache_revenue := ∅; notifications := [];
     timers := []; log := []; faults := [];
     draws := [1 # 10; 1 # 10; 1 # 10; 1 # 10]%Q; next_id := 100 |}.

Definition defaultOptimizer : RevenueOptimizer :=
  {| ro_isInitialized := true; dynamicPricingEnabled := true;
     pricingRules := defaultPricingRules;
     seasonalFactors := defaultSeasonalFactors;
     marketConditions := defaultMarketConditions |}.

(** A service priced 99.99 and a customer with a low credit score. *)
Definition pricingWorld : World :=
  {| services := [ mkService 1 "credit-analysis" (9999 # 100) "financial" ];
     clients := [ mkClient 1 (num 400) ];
     vehicle_rows := []; service_cascades := [];
     admin_users := []; now := 0; currentMonth := 12;
     service_orders := []; cascade_triggers := []; client_journey := [];
     cache_client_profile := ∅; cache_revenue := ∅; notifications := [];
     timers := []; log := []; faults := []; draws := []; next_id := 100 |}.

Definition noOptions : Options := {| urgency := None; bundleSize := JUndefined |}.

Definition emergency : Options := {| urgency := Some "emergency"; bundleSize := JUndefined |}.

Definition AppError503 : Exn :=
  AppError "Revenue calculation service is temporarily unavailable"
           503 "REVENUE_SERVICE_ERROR".

(** ** What one evaluation may add to the world

    A task scheduled by an evaluation for customer [clientId] is [sound] when
    its rule meets the activation threshold, its trigger record is the
    unconverted record of that rule and customer, and - provided no store
    query was rejected - the customer held no order for the triggered
    service in the world the evaluation started from. *)

Definition sound (this : CascadeEngine) (clientId : nat) (w : World) (k : Task) : Prop :=
  (conversionThreshold this <= conversionRate (task_rule k))%Q
  /\ t_cascade_id (task_cascadeTrigger k) = id (task_rule k)
  /\ t_client_id (task_cascadeTrigger k) = clientId
  /\ t_converted (task_cascadeTrigger k) = false
  /\ (faults w = [] -> ordersFor clientId (triggeredServiceId (task_rule k)) w = []).

(** [w'] differs from [w] on orders, triggers and timers only by sound tasks
    and their trigger records, appended. *)
Definition extends (this : CascadeEngine) (clientId : nat) (w w' : World) : Prop :=
  service_orders w' = service_orders w
  /\ (faults w = [] -> faults w' = [])
  /\ exists tasks,
       timers w' = timers w ++ tasks
       /\ cascade_triggers w' = cascade_triggers w ++ List.map task_cascadeTrigger tasks
       /\ Forall (sound this clientId w) tasks.

Definition stable (this : CascadeEngine) (clientId : nat) {A} (m : M A) : Prop :=
  forall w, extends this clientId w (snd (m w)).

(** The profile of the customer of [raceWorld] after both completions. *)
Definition raceClient : Client :=
  {| client_id := 1; user_id := Some 1; business_name := JNull;
     client_type := JStr "individual"; vehicle_value := JNull;
     credit_score := num 720; annual_income := JNull;
     journey_stage := JStr "discovery"; vehicles := Some [];
     totalOrders := 2; totalSpent := 6500; lastOrderDate := Some 0%Z |}.

(** A customer whose credit score is not on file. *)
Definition unscoredClient : Client :=
  {| client_id := 1; user_id := Some 1; business_name := JNull;
     client_type := JStr "individual"; vehicle_value := JNull;
     credit_score := JUndefined; annual_income := JNull;
     journey_stage := JStr "discovery"; vehicles := Some [];
     totalOrders := 2; totalSpent := 6500; lastOrderDate := Some 0%Z |}.

Definition purchaseOrder : Order := mkOrder 21 1 1 completed 5000.

Definition inspectionKey : gmap string Value :=
  {[ "pre_purchase_inspection" := JBool true ]}.

(** A rule below the default activation threshold, without conditions. *)
Definition weakRule : Rule :=
  {| id := 11; entryServiceId := 1; triggeredServiceId := 3;
     conversionRate := 60 # 100; priority := 1; conditions := ∅;
     entryServiceName := "vehicle-purchase";
     triggeredServiceName := "vehicle-inspection" |}.

(** A rule above the threshold, without conditions. *)
Definition strongRule : Rule :=
  {| id := 11; entryServiceId := 1; triggeredServiceId := 3;
     conversionRate := 85 # 100; priority := 1; conditions := ∅;
     entryServiceName := "vehicle-purchase";
     triggeredServiceName := "vehicle-inspection" |}.

Definition readyEngine : CascadeEngine :=
  {| isInitialized := true; cascadeRules := {[ 1 := [strongRule] ]};
     conversionThreshold := 75 # 100 |}.

(** The customer already holds an inspection order and the next store query
    is rejected. *)
Definition faultyWorld : World :=
  {| services := [ mkService 1 "vehicle-purchase" 5000 "purchase";
                   mkService 3 "vehicle-inspection" 300 "inspection" ];
     clients := [ mkClient 1 (num 720) ];
     vehicle_rows := []; service_cascades := [];
     admin_users := []; now := 0; currentMonth := 12;
     service_orders := [ purchaseOrder; mkOrder 22 1 3 pending 300 ];
     cascade_triggers := []; client_journey := [];
     cache_client_profile := ∅; cache_revenue := ∅; notifications := [];
     timers := []; log := []; faults := [true];
     draws := [1 # 10]%Q; next_id := 100 |}.

Definition noFinancing : gmap string Value := {[ "financing_needed" := JBool false ]}.

Definition minScore600 : gmap string Value := {[ "min_credit_score" := num 600 ]}.

(** The customer already holds an inspection order; every query succeeds. *)
Definition heldWorld : World :=
  {| services := [ mkService 1 "vehicle-purchase" 5000 "purchase";
                   mkService 3 "vehicle-inspection" 300 "inspection" ];
     clients := [ mkClient 1 (num 720) ];
     vehicle_rows := []; service_cascades := [];
     admin_users := []; now := 0; currentMonth := 12;
     service_orders := [ purchaseOrder; mkOrder 22 1 3 pending 300 ];
     cascade_triggers := []; client_journey := [];
     cache_client_profile := ∅; cache_revenue := ∅; notifications := [];
     timers := []; log := []; faults := [];
     draws := [1 # 10]%Q; next_id := 100 |}.

(** The trigger record [processRule] creates for a rule. *)
Definition newTrigger (i clientId serviceOrderId : nat) (rule : Rule) : Trigger :=
  {| t_id := i; t_client_id := clientId; t_entry_order_id := serviceOrderId;
     t_triggered_order_id := None; t_cascade_id := id rule;
     t_converted := false; t_revenue_generated := 0 |}.

(** The order row [createTriggeredService] inserts, as the store holds it. *)
Definition triggeredOrder (S2N : string -> Num) (rule : Rule) (client : Client)
    (cascadeTrigger : Trigger) (depth : nat) (service : Service) (i : nat) : Order :=
  stored
    {| o_id := i;
       o_client_id := client_id client;
       o_service_id := s_id service;
       o_status := pending;
       o_base_price := s_base_price service;
       o_final_price := dp_finalPrice (calculateDynamicPricing S2N service client);
       o_discount_amount := dp_discountAmount (calculateDynamicPricing S2N service client);
       o_priority := priority rule;
       o_service_data :=
         Some {| triggeredBy := "cascade";
                 cascadeTriggerId := t_id cascadeTrigger;
                 originalConversionRate := conversionRate rule;
                 depth := depth + 1 |};
       o_completed_at := None |}.

Definition keeps_orders {A} (m : M A) : Prop :=
  forall w, service_orders (snd (m w)) = service_orders w.

(** The rule of the specification's scenario and the customer's profile when
    the timer fires. *)
Definition scenarioRule : Rule :=
  {| id := 11; entryServiceId := 1; triggeredServiceId := 2;
     conversionRate := 84 # 100; priority := 1;
     conditions := {[ "min_credit_score" := num 500 ]};
     entryServiceName := "A"; triggeredServiceName := "B" |}.

Definition scenarioClient : Client :=
  {| client_id := 1; user_id := Some 1; business_name := JNull;
     client_type := JStr "individual"; vehicle_value := JNull;
     credit_score := num 720; annual_income := JNull;
     journey_stage := JStr "discovery"; vehicles := Some [];
     totalOrders := 1; totalSpent := 1000; lastOrderDate := Some 0%Z |}.

(** The profile [RevenueOptimizer.getClientProfile] finds for a customer: the
    cached one, or else the one built from the client row. *)
Definition pricingProfile (clientId : nat) (w : World) : option PricingClient :=
  match cache_revenue w !! clientId with
  | Some p => Some p
  | None =>
      match List.find (fun c => Nat.eqb (c_id c) clientId) (clients w) with
      | Some c =>
          Some {| pc_id := c_id c;
                  pc_credit_score := c_credit_score c;
                  pc_vehicle_value := c_vehicle_value c;
                  pc_services_count :=
                    Z.of_nat (length (List.filter
                                        (fun o => Nat.eqb (o_client_id o) clientId)
                                        (service_orders w))) |}
      | None => None
      end
  end.

(** The pricing of the 99.99 service for the customer of [pricingWorld]. *)
Definition pricingService : Service := mkService 1 "credit-analysis" (9999 # 100) "financial".

Definition pricingCustomer : PricingClient :=
  {| pc_id := 1; pc_credit_score := num 400; pc_vehicle_value := JNull;
     pc_services_count := 0 |}.

Definition emergencyPricing : Pricing :=
  computePricing parseDecimal defaultOptimizer 12 pricingService pricingCustomer emergency.

(** The order of the rules of one service: priority ascending, then
    conversion rate descending. *)
Definition rule_before (a b : Rule) : bool :=
  Z.ltb (priority a) (priority b)
  || (Z.eqb (priority a) (priority b)
      && Qle_bool (conversionRate b) (conversionRate a)).

Definition CascadeError503 : Exn :=
  AppError "Service cascade engine is temporarily unavailable"
           503 "CASCADE_SERVICE_ERROR".

Definition never_throws {A} (m : M A) : Prop :=
  forall w, exists a, fst (m w) = Ok a.

(** [w'] agrees with [w] on the tables the engine reads, on orders, trigger
    records and timers, on the profile cache and on the pending draws: only
    the log, the fault oracle, the journey, the notification queue, the
    revenue cache and the id counter may differ. *)
Definition quiet (w w' : World) : Prop :=
  services w' = services w /\ clients w' = clients w
  /\ vehicle_rows w' = vehicle_rows w
  /\ service_cascades w' = service_cascades w
  /\ admin_users w' = admin_users w
  /\ service_orders w' = service_orders w
  /\ cascade_triggers w' = cascade_triggers w
  /\ timers w' = timers w /\ draws w' = draws w
  /\ cache_client_profile w' = cache_client_profile w.

Definition quietly {A} (m : M A) : Prop := forall w, quiet w (snd (m w)).

(** The two updates [createTriggeredService] applies to its trigger record. *)
Definition markConverted (triggerId orderId : nat) (t : Trigger) : Trigger :=
  if Nat.eqb (t_id t) triggerId
  then {| t_id := t_id t; t_client_id := t_client_id t;
          t_entry_order_id := t_entry_order_id t;
          t_triggered_order_id := Some orderId;
          t_cascade_id := t_cascade_id t;
          t_converted := true;
          t_revenue_generated := t_revenue_generated t |}
  else t.

Definition markFailed (triggerId : nat) (t : Trigger) : Trigger :=
  if Nat.eqb (t_id t) triggerId
  then {| t_id := t_id t; t_client_id := t_client_id t;
          t_entry_order_id := t_entry_order_id t;
          t_triggered_order_id := t_triggered_order_id t;
          t_cascade_id := t_cascade_id t;
          t_converted := false;
          t_revenue_generated := 0 |}
  else t.

(** The journey row and the two notifications of a materialised cascade. *)
Definition journeyRow (client : Client) (service : Service) (rule : Rule) : Journey :=
  {| j_client_id := client_id client;
     j_stage := "service_triggered";
     j_conversion_probability := conversionRate rule;
     j_next_recommended_action := "Complete " +:+ s_name service +:+ " service" |}.

Definition serviceRecommended (service : Service) (orderId : nat) : Notification :=
  {| n_type := "service_recommended"; n_serviceId := s_id service; n_orderId := orderId |}.

Definition cascadeTriggered (service : Service) (orderId : nat) : Notification :=
  {| n_type := "cascade_triggered"; n_serviceId := s_id service; n_orderId := orderId |}.

(** The profile the engine builds for the customer of [raceWorld] before any
    order is completed. *)
Definition raceProfile : Client :=
  {| client_id := 1; user_id := Some 1; business_name := JNull;
     client_type := JStr "individual"; vehicle_value := JNull;
     credit_score := num 720; annual_income := JNull;
     journey_stage := JStr "discovery"; vehicles := Some [];
     totalOrders := 2; totalSpent := 0; lastOrderDate := None |}.

(** A customer whose credit score is SQL NULL. *)
Definition nullScoreClient : Client :=
  {| client_id := 1; user_id := Some 1; business_name := JNull;
     client_type := JStr "individual"; vehicle_value := JNull;
     credit_score := JNull; annual_income := JNull;
     journey_stage := JStr "discovery"; vehicles := Some [];
     totalOrders := 2; totalSpent := 6500; lastOrderDate := Some 0%Z |}.

(** The world [trackRevenue] leaves behind when nothing fails and the client
    row exists: both cached profiles of the client are dropped. *)
Definition afterRevenue (clientId : nat) (w : World) : World :=
  set_log (log w ++ [(LRevenue, "Revenue Generated")])
    (set_cache_revenue (delete clientId (cache_revenue w))
       (set_cache_client_profile (delete clientId (cache_client_profile w)) w)).

(** An optimizer with dynamic pricing switched off, and its pricing of the
    99.99 service. *)
Definition staticOptimizer : RevenueOptimizer :=
  {| ro_isInitialized := true; dynamicPricingEnabled := false;
     pricingRules := defaultPricingRules;
     seasonalFactors := defaultSeasonalFactors;
     marketConditions := defaultMarketConditions |}.

Definition staticPricing : Pricing :=
  computePricing parseDecimal staticOptimizer 12 pricingService pricingCustomer emergency.

(** A request whose urgency is not in the table of premiums. *)
Definition rush : Options := {| urgency := Some "rush"; bundleSize := JUndefined |}.

(** ** Reporting, rule optimization and order creation *)

Definition set_service_cascades (x : list CascadeRow) (w : World) : World :=
  {| services := services w; clients := clients w; vehicle_rows := vehicle_rows w;
     service_cascades := x; admin_users := admin_users w;
     now := now w; currentMonth := currentMonth w;
     service_orders := service_orders w; cascade_triggers := cascade_triggers w;
     client_journey := client_journey w;
     cache_client_profile := cache_client_profile w;
     cache_revenue := cache_revenue w; notifications := notifications w;
     timers := timers w; log := log w; faults := faults w; draws := draws w;
     next_id := next_id w |}.

(** The value a [DECIMAL(5,4)] column stores for a non-negative number
    (schema.sql, [service_cascades.conversion_rate]): four decimals, half up. *)
Definition decimal4 (x : Q) : Q :=
  (inject_Z (Qfloor (x * 10000 + (1 # 2))) / 10000)%Q.

Definition Qsum (l : list Q) : Q := fold_right Qplus 0%Q l.

Definition ratio (n d : nat) : Q := (inject_Z (Z.of_nat n) / inject_Z (Z.of_nat d))%Q.

Section Operations.

Variable StringToNumber : string -> Num.

(** The clause [WHERE triggered_at >= NOW() - INTERVAL '...'] of the two
    reporting queries: the column [triggered_at] is not carried by [Trigger],
    and [recent] tells which trigger records fall into the window. *)
Variable recent : Trigger -> bool.

Notation "'let!' x ':=' m 'in' k" := (bind m (fun x => k))
  (at level 10, x name, m at level 100, k at level 200).
Notation "m ';;' k" := (bind m (fun _ => k))
  (at level 100, k at level 200, right associativity).

(** *** [CascadeEngine.getCascadeMetrics] *)

Record CascadeMetrics : Type := {
  totalTriggers : nat;
  successfulConversions : nat;
  cm_conversionRate : Q;
  avgRevenue : Q;
  totalRevenue : Q
}.

(** [CASE WHEN converted = true THEN revenue_generated ELSE 0 END] *)
Definition convertedRevenue (t : Trigger) : Q :=
  if t_converted t then t_revenue_generated t else 0%Q.

(** The object built from the one row of the aggregate query; [AVG] and
    [SUM] over no rows are NULL, which [parseFloat(...) || 0] turns into 0. *)
Definition cascadeMetrics (rows : list Trigger) : CascadeMetrics :=
  let total_triggers := length rows in
  let successful_conversions := length (List.filter t_converted rows) in
  {| totalTriggers := total_triggers;
     successfulConversions := successful_conversions;
     cm_conversionRate :=
       if Nat.ltb 0 total_triggers
       then (ratio successful_conversions total_triggers * 100)%Q
       else 0%Q;
     avgRevenue :=
       match rows with
       | [] => 0%Q
       | _ => (Qsum (List.map convertedRevenue rows)
               / inject_Z (Z.of_nat total_triggers))%Q
       end;
     totalRevenue := Qsum (List.map convertedRevenue rows) |}.

Definition noMetrics : CascadeMetrics :=
  {| totalTriggers := 0; successfulConversions := 0; cm_conversionRate := 0;
     avgRevenue := 0; totalRevenue := 0 |}.

Definition getCascadeMetrics : M CascadeMetrics :=
  try_catch
    (query ;;
     let! rows := gets (fun w => List.filter recent (cascade_triggers w)) in
     ret (cascadeMetrics rows))
    (fun error =>
       logger LError "Error getting cascade metrics" ;;
       ret noMetrics).

(** *** [CascadeEngine.optimizeCascadeRules] *)

(** A row of the performance query. *)
Record RulePerformance : Type := {
  rp_id : nat;
  expected_rate : Q;
  total_triggers : nat;
  successful_conversions : nat
}.

Definition recentTriggersOf (cascadeId : nat) (w : World) : list Trigger :=
  List.filter (fun ct => Nat.eqb (t_cascade_id ct) cascadeId && recent ct)
              (cascade_triggers w).

(** The performance query: the rules joined with their trigger records of
    the window, grouped by rule (ids are the primary key of the table), the
    groups of at least ten records kept; rows are taken in table order. *)
Definition rulePerformance (w : World) : list RulePerformance :=
  omap (fun sc =>
          let cts := recentTriggersOf (sc_id sc) w in
          if Nat.leb 10 (length cts)
          then Some {| rp_id := sc_id sc;
                       expected_rate := sc_conversion_rate sc;
                       total_triggers := length cts;
                       successful_conversions :=
                         length (List.filter t_converted cts) |}
          else None)
       (service_cascades w).

Definition set_conversion_rate (rate : Q) (sc : CascadeRow) : CascadeRow :=
  {| sc_id := sc_id sc; sc_entry_service_id := sc_entry_service_id sc;
     sc_triggered_service_id := sc_triggered_service_id sc;
     sc_conversion_rate := decimal4 rate;
     sc_priority := sc_priority sc; sc_conditions := sc_conditions sc;
     sc_is_active := sc_is_active sc |}.

(** [database.update('service_cascades', id, { conversion_rate })] *)
Definition update_service_cascades (i : nat) (rate : Q) : M unit :=
  query ;;
  modify (fun w => set_service_cascades
                     (List.map (fun sc => if Nat.eqb (sc_id sc) i
                                          then set_conversion_rate rate sc else sc)
                               (service_cascades w)) w).

Definition actualRate (row : RulePerformance) : Q :=
  if Nat.ltb 0 (total_triggers row)
  then ratio (successful_conversions row) (total_triggers row)
  else 0%Q.

(** The body of the [for (const row of results.rows)] loop. *)
Definition optimizeRule (row : RulePerformance) : M unit :=
  if Qltb (1 # 10) (Qabs (actualRate row - expected_rate row))
  then update_service_cascades (rp_id row) (actualRate row) ;;
       logger LInfo "Updated cascade rule conversion rate"
  else ret tt.

(** [optimizeCascadeRules]; the result is the engine as the job leaves it:
    a reload that fails is caught like any other error, with the index as
    the failed reload left it. *)
Definition optimizeCascadeRules (this : CascadeEngine) : M CascadeEngine :=
  try_catch
    (logger LInfo "Starting cascade rule optimization..." ;;
     query ;;
     let! rows := gets rulePerformance in
     forEach optimizeRule rows ;;
     let! loaded := loadCascadeRules this in
     match snd loaded with
     | Ok _ =>
         logger LInfo "Cascade rule optimization completed" ;;
         ret (fst loaded)
     | Throw error =>
         logger LError "Error optimizing cascade rules" ;;
         ret (fst loaded)
     end)
    (fun error =>
       logger LError "Error optimizing cascade rules" ;;
       ret this).

(** *** [RevenueOptimizer.optimizePricing] *)

(** A row of the service performance query; a NULL revenue target is 0. *)
Record ServicePerformance : Type := {
  sp_id : nat;
  sp_base_price : Q;
  annual_revenue_target : Q;
  total_orders : nat;
  actual_revenue : Q;
  cancelled_orders : nat
}.

(** The quotient of two numbers as the job computes it, [a / b] in double
    precision, is left abstract: the statements about the job hold for any
    quotient.  (The double quotient fits, a quotient that is the double of a
    threshold read as the threshold.) *)
Variable divide : Q -> Q -> Q.

Definition cancellationRate (service : ServicePerformance) : Q :=
  if Nat.ltb 0 (total_orders service)
  then divide (inject_Z (Z.of_nat (cancelled_orders service)))
              (inject_Z (Z.of_nat (total_orders service)))
  else 0%Q.

Definition revenueProgress (service : ServicePerformance) : Q :=
  if Qltb 0 (annual_revenue_target service)
  then divide (actual_revenue service) (annual_revenue_target service)
  else 0%Q.

Definition priceAdjustment (service : ServicePerformance) : Q :=
  let priceAdjustment := 1%Q in
  let priceAdjustment :=
    if Qltb (2 # 10) (cancellationRate service)
    then (priceAdjustment * (95 # 100))%Q else priceAdjustment in
  let priceAdjustment :=
    if Qltb (revenueProgress service) (5 # 10)
    then (priceAdjustment * (105 # 100))%Q else priceAdjustment in
  let priceAdjustment :=
    if Qltb (12 # 10) (revenueProgress service)
    then (priceAdjustment * (11 # 10))%Q else priceAdjustment in
  priceAdjustment.

(** The base price the loop body of [optimizePricing] writes for a service,
    if it writes one. *)
Definition optimizedBasePrice (service : ServicePerformance) : option Q :=
  let priceAdjustment := priceAdjustment service in
  if Qltb (2 # 100) (Qabs (priceAdjustment - 1))
  then
    let newPrice := (sp_base_price service * priceAdjustment)%Q in
    if Qle_bool (8 # 10) priceAdjustment && Qle_bool priceAdjustment (13 # 10)
    then Some (round2 newPrice)
    else None
  else None.

(** *** [POST /orders] (api/services.js) *)

Inductive OrderResponse : Type :=
| Created (order : Order)          (* 201 *)
| NotFound (code : string)         (* 404 *)
| CreationFailed.                  (* 500, ORDER_CREATION_FAILED *)

(** [database.findOne('clients', { user_id })] *)
Definition findOne_clients (userId : nat) : M (option ClientRow) :=
  query ;;
  gets (fun w => List.find (fun c => match c_user_id c with
                                     | Some u => Nat.eqb u userId
                                     | None => false
                                     end) (clients w)).

(** The urgencies [serviceOrderSchema] admits; the [validate] middleware
    answers 400 to any other body before the handler runs, and leaves the
    body as it was sent (an absent urgency stays absent). *)
Inductive Urgency : Type := Standard | Expedited | Emergency.

Definition urgencyName (u : Urgency) : string :=
  match u with
  | Standard => "standard"
  | Expedited => "expedited"
  | Emergency => "emergency"
  end.

(** A number as a price column of [Order] takes it.  [NaN], which a numeric
    column would store as such, is not carried by [Order]; the prices of
    [POST /orders] are numbers, because an admitted urgency is no inherited
    property name. *)
Definition priceColumn (n : Num) : Q :=
  match n with
  | Fin q => q
  | NaN => 0%Q
  end.

(** The handler of [POST /orders] for an authenticated user and a validated
    body [{ serviceId, urgency }]; [revenueOptimizer] is [req.app.get
    ('revenueOptimizer')].  The order number is not modelled, and the
    remaining columns take the defaults of the schema. *)
Definition createOrder (revenueOptimizer : option RevenueOptimizer)
    (userId serviceId : nat) (urgency : option Urgency) : M OrderResponse :=
  try_catch
    (let! service := findById_services serviceId in
     match service with
     | None => ret (NotFound "SERVICE_NOT_FOUND")
     | Some service =>
         let! client := findOne_clients userId in
         match client with
         | None => ret (NotFound "CLIENT_NOT_FOUND")
         | Some client =>
             let! pricing :=
               match revenueOptimizer with
               | Some revenueOptimizer =>
                   try_catch
                     (let! pricing :=
                        calculateOptimalPrice StringToNumber revenueOptimizer
                          serviceId (c_id client)
                          {| urgency := option_map urgencyName urgency;
                             bundleSize := JUndefined |} in
                      ret (priceColumn (finalPrice pricing),
                           priceColumn (discountAmount pricing)))
                     (fun error =>
                        logger LError "Error calculating pricing for order" ;;
                        ret (s_base_price service, 0%Q))
               | None => ret (s_base_price service, 0%Q)
               end in
             let! serviceOrder :=
               create_service_orders (fun i =>
                 {| o_id := i;
                    o_client_id := c_id client;
                    o_service_id := serviceId;
                    o_status := pending;
                    o_base_price := s_base_price service;
                    o_final_price := fst pricing;
                    o_discount_amount := snd pricing;
                    o_priority := 1;
                    o_service_data := None;
                    o_completed_at := None |}) in
             logger LRevenue "Service order created" ;;
             ret (Created serviceOrder)
         end
     end)
    (fun error =>
       logger LError "Error creating service order" ;;
       ret CreationFailed).

End Operations.

(** A service with 3 of 10 recent orders cancelled and revenue on target. *)
Definition cancelledService : ServicePerformance :=
  {| sp_id := 1; sp_base_price := 200; annual_revenue_target := 1000;
     total_orders := 10; actual_revenue := 800; cancelled_orders := 3 |}.

(** [pricingWorld] with the lookup of the service by the optimizer rejected. *)
Definition rejectedPricingWorld : World := set_faults [false; false; true] pricingWorld.

(** *** What the rule optimization may do to the store *)

(** Whether rule [i] has the ten trigger records of the window the
    performance query asks for, and the conversion rate they show. *)
Definition measured (recent : Trigger -> bool) (i : nat) (w : World) : bool :=
  Nat.leb 10 (length (recentTriggersOf recent i w)).

Definition measuredRate (recent : Trigger -> bool) (i : nat) (w : World) : Q :=
  ratio (length (List.filter t_converted (recentTriggersOf recent i w)))
        (length (recentTriggersOf recent i w)).

(** A rule row is left as it is, or - if it is measured in [w] - its
    conversion rate is replaced by the measured one. *)
Definition retuned (recent : Trigger -> bool) (w : World) (sc sc' : CascadeRow) : Prop :=
  sc' = sc
  \/ (measured recent (sc_id sc) w = true
      /\ sc' = set_conversion_rate (measuredRate recent (sc_id sc) w) sc).

Definition tuned (recent : Trigger -> bool) (w0 w : World) : Prop :=
  Forall2 (retuned recent w0) (service_cascades w0) (service_cascades w)
  /\ cascade_triggers w = cascade_triggers w0
  /\ services w = services w0
  /\ service_orders w = service_orders w0
  /\ timers w = timers w0.

Definition preserves (P : World -> Prop) {A} (m : M A) : Prop :=
  forall w, P w -> P (snd (m w)).

(** [P] does not look at the log or at the fault oracle. *)
Definition unobserved (P : World -> Prop) : Prop :=
  forall w, P w -> (forall l, P (set_log l w)) /\ (forall fs, P (set_faults fs w)).

(** One rule with ten trigger records of which two converted. *)
Definition busyWorld : World :=
  {| services := [ mkService 1 "vehicle-purchase" 5000 "purchase";
                   mkService 3 "vehicle-inspection" 300 "inspection" ];
     clients := [ mkClient 1 (num 720) ];
     vehicle_rows := [];
     service_cascades := [ mkCascade 11 1 3 (85 # 100) ∅ ];
     admin_users := []; now := 0; currentMonth := 12;
     service_orders := [];
     cascade_triggers :=
       List.map (fun i => {| t_id := i; t_client_id := 1; t_entry_order_id := 21;
                             t_triggered_order_id := None; t_cascade_id := 11;
                             t_converted := Nat.ltb i 2;
                             t_revenue_generated := 0 |})
                (seq 0 10);
     client_journey := [];
     cache_client_profile := ∅; cache_revenue := ∅; notifications := [];
     timers := []; log := []; faults := []; draws := []; next_id := 100 |}.

(** [scenarioWorld] with a store that rejects both updates of the trigger
    record. *)
Definition strandedWorld : World := set_faults [false; false; true; true] scenarioWorld.

(** [raceWorld] with a store that rejects the update of the client row. *)
Definition rejectedUpdateWorld : World := set_faults [false; false; false; true] raceWorld.

(** Modelled from the amended statement of the cascade price: the discount
    rates that apply to a customer - 10% above 50000 of lifetime spend, 5%
    above a credit score of 750, 15% on a first order, 8% above five orders -
    and the largest of them (0 when none applies). *)
Definition applicableRates (score spent : Q) (orders : Z) : list Q :=
  ((if Qlt_le_dec 50000 spent then [10 # 100] else [])
   ++ (if Qlt_le_dec 750 score then [5 # 100] else [])
   ++ (if Z.eq_dec orders 0%Z then [15 # 100] else [])
   ++ (if Z_lt_dec 5%Z orders then [8 # 100] else []))%Q.

Definition largestDiscountRate (score spent : Q) (orders : Z) : Q :=
  fold_right (fun r m => if Qlt_le_dec m r then r else m) 0%Q
             (applicableRates score spent orders).

(** ** The predicates the specification lists

    Modelled from the spec: its section on the condition evaluator names the
    predicates of a rule (minimum and maximum credit score, minimum vehicle
    value, minimum annual income, required journey stage, minimum days since
    the last order, minimum total spend, and the named needs and intents).
    [listedPredicate] reads a listed condition as what its name says of the
    customer, over numbers and strings and whatever the configured value is,
    independently of the tests of [evaluateConditions]; what a named need or
    intent means is given by the engine's helper method of that name.  A key
    the specification does not name imposes nothing. *)
Definition listedPredicate (StringToNumber : string -> Num) (today : Z)
    (client : Client) (key : string) (v : Value) : Prop :=
  if String.eqb key "min_credit_score"
  then exists score t, credit_score client = num score /\ v = num t /\ (t <= score)%Q
  else if String.eqb key "max_credit_score"
  then exists score t, credit_score client = num score /\ v = num t /\ (score <= t)%Q
  else if String.eqb key "min_vehicle_value"
  then exists value t, vehicle_value client = num value /\ v = num t /\ (t <= value)%Q
  else if String.eqb key "min_annual_income"
  then exists income t, annual_income client = num income /\ v = num t /\ (t <= income)%Q
  else if String.eqb key "journey_stage"
  then exists stage, v = JStr stage /\ journey_stage client = JStr stage
  else if String.eqb key "financing_needed"
  then hasFinancingNeed StringToNumber client = true
  else if String.eqb key "vehicle_purchase_intent"
  then hasVehiclePurchaseIntent client = true
  else if String.eqb key "business_financing_needed"
  then truthy (hasBusinessFinancingNeed client) = true
  else if String.eqb key "vehicle_condition_fair_or_below"
  then hasVehicleConditionIssues client = Ok true
  else if String.eqb key "min_days_since_last_order"
  then exists t, v = num t /\ (t <= inject_Z (getDaysSinceLastOrder today client))%Q
  else if String.eqb key "min_total_spent"
  then exists t, v = num t /\ (t <= totalSpent client)%Q
  else if String.eqb key "credit_score_improvement_needed"
  then needsCreditImprovement StringToNumber client = true
  else if String.eqb key "legal_structure_complex"
  then hasComplexLegalNeeds client = true
  else True.

(** A condition as a rule is meant to configure it: a threshold is a number
    other than 0 and the customer field it bounds is on file as a number, a
    required stage is a non-empty string, a need or intent is switched on
    with [true]. *)
Definition configured (client : Client) (key : string) (v : Value) : Prop :=
  if String.eqb key "min_credit_score" || String.eqb key "max_credit_score"
  then (exists t, v = num t /\ ~ (t == 0)%Q)
       /\ exists score, credit_score client = num score
  else if String.eqb key "min_vehicle_value"
  then (exists t, v = num t /\ ~ (t == 0)%Q)
       /\ exists value, vehicle_value client = num value
  else if String.eqb key "min_annual_income"
  then (exists t, v = num t /\ ~ (t == 0)%Q)
       /\ exists income, annual_income client = num income
  else if String.eqb key "min_days_since_last_order"
          || String.eqb key "min_total_spent"
  then exists t, v = num t /\ ~ (t == 0)%Q
  else if String.eqb key "journey_stage"
  then exists stage, v = JStr stage /\ stage <> EmptyString
  else v = JBool true.

(** A rule that lists a maximum credit score of 0. *)
Definition maxScore0 : gmap string Value := {[ "max_credit_score" := num 0 ]}.

(** A condition set with a threshold and a need, and a customer who meets
    both. *)
Definition repairConditions : gmap string Value :=
  {[ "max_credit_score" := num 650; "credit_score_improvement_needed" := JBool true ]}.

Definition lowScoreClient : Client :=
  {| client_id := 1; user_id := Some 1; business_name := JNull;
     client_type := JStr "individual"; vehicle_value := JNull;
     credit_score := num 600; annual_income := JNull;
     journey_stage := JStr "discovery"; vehicles := Some [];
     totalOrders := 2; totalSpent := 6500; lastOrderDate := Some 0%Z |}.

(** The example of a rule that imposes nothing: both values are falsy. *)
Definition zeroedConditions : gmap string Value :=
  {[ "min_credit_score" := num 0; "financing_needed" := JBool false ]}.

(** A returning customer with more than five orders. *)
Definition loyalClient : Client :=
  {| client_id := 1; user_id := Some 1; business_name := JNull;
     client_type := JStr "individual"; vehicle_value := JNull;
     credit_score := num 720; annual_income := JNull;
     journey_stage := JStr "discovery"; vehicles := Some [];
     totalOrders := 6; totalSpent := 1000; lastOrderDate := Some 0%Z |}.

(** ** What a load leaves in the index *)

(** Whether the conditions of a row of the query parse, and the rule the
    loop then files. *)
Definition parses (row : RuleRow) : bool :=
  match ruleOf row with
  | Ok _ => true
  | Throw _ => false
  end.

Definition parsedRule (row : RuleRow) : option Rule :=
  match ruleOf row with
  | Ok rule => Some rule
  | Throw _ => None
  end.

(** An engine with another index. *)
Definition withRules (index : gmap nat (list Rule)) (this : CascadeEngine)
  : CascadeEngine :=
  {| isInitialized := isInitialized this;
     cascadeRules := index;
     conversionThreshold := conversionThreshold this |}.

(** The entry of a service is created, if need be, before a rule is pushed. *)
Definition touched (k : nat) (index : gmap nat (list Rule)) : gmap nat (list Rule) :=
  match index !! k with
  | Some _ => index
  | None => <[k := []]> index
  end.

(** Three rules leave the vehicle purchase, with different priorities and
    rates and no conditions. *)
Definition rankedRow (i triggered : nat) (rate : Q) (prio : Z) : CascadeRow :=
  {| sc_id := i; sc_entry_service_id := 1; sc_triggered_service_id := triggered;
     sc_conversion_rate := rate; sc_priority := prio; sc_conditions := SqlNull;
     sc_is_active := true |}.

Definition rankedWorld : World :=
  set_service_cascades
    [ rankedRow 11 3 (85 # 100) 2; rankedRow 12 2 (80 # 100) 1;
      rankedRow 13 3 (90 # 100) 1 ] raceWorld.

(** [raceWorld] with the conditions of its first rule delivered as an
    object, the way node-postgres hands over a JSONB column. *)
Definition objectWorld : World :=
  set_service_cascades
    [ {| sc_id := 11; sc_entry_service_id := 1; sc_triggered_service_id := 3;
         sc_conversion_rate := 85 # 100; sc_priority := 1;
         sc_conditions := JsonObject inspectionKey; sc_is_active := true |};
      mkCascade 12 2 3 (81 # 100) ∅ ] raceWorld.

(** * Properties *)

(** ** Rational arithmetic *)

Lemma Qmax_cases (x y : Q) :
  (x <= y /\ Qmax x y = y)%Q \/ (y < x /\ Qmax x y = x)%Q.
Proof.
  unfold Qmax. destruct (Qle_bool x y) eqn:E.
  - left. split; [now apply Qle_bool_iff | reflexivity].
  - right. split; [| reflexivity].
    apply Qnot_le_lt. intros H. apply Qle_bool_iff in H. congruence.
Qed.

Lemma Qmin_cases (x y : Q) :
  (x <= y /\ Qmin x y = x)%Q \/ (y < x /\ Qmin x y = y)%Q.
Proof.
  unfold Qmin. destruct (Qle_bool x y) eqn:E.
  - left. split; [now apply Qle_bool_iff | reflexivity].
  - right. split; [| reflexivity].
    apply Qnot_le_lt. intros H. apply Qle_bool_iff in H. congruence.
Qed.

Lemma Qltb_lt (x y : Q) : Qltb x y = true <-> (x < y)%Q.
Proof.
  unfold Qltb. rewrite negb_true_iff. split.
  - intros E. apply Qnot_le_lt. intros H. apply Qle_bool_iff in H. congruence.
  - intros H. destruct (Qle_bool y x) eqn:E; [| reflexivity].
    apply Qle_bool_iff in E. exfalso. eapply Qlt_not_le; eassumption.
Qed.

Lemma Qltb_ge (x y : Q) : Qltb x y = false <-> (y <= x)%Q.
Proof.
  unfold Qltb. rewrite negb_false_iff. apply Qle_bool_iff.
Qed.

(** Rounding to cents moves a price by at most half a cent. *)
Lemma round2_bounds (x : Q) :
  (x - (1 # 200) < round2 x /\ round2 x <= x + (1 # 200))%Q.
Proof.
  unfold round2.
  pose proof (Qfloor_le (x * 100 + (1 # 2))) as Hlo.
  pose proof (Qlt_floor (x * 100 + (1 # 2))) as Hhi.
  rewrite inject_Z_plus in Hhi.
  set (f := inject_Z (Qfloor (x * 100 + (1 # 2)))) in *.
  change (inject_Z 1) with 1%Q in Hhi.
  unfold Qdiv. change (/ 100)%Q with (1 # 100)%Q.
  split; lra.
Qed.

Lemma round2_compat (x y : Q) : (x == y)%Q -> round2 x = round2 y.
Proof.
  intros H. unfold round2. f_equal. f_equal. apply Qfloor_comp. now rewrite H.
Qed.

Lemma round2_nonneg (x : Q) : (0 <= x)%Q -> (0 <= round2 x)%Q.
Proof.
  intros H. unfold round2.
  assert (H0 : (0 <= Qfloor (x * 100 + (1 # 2)))%Z).
  { change 0%Z with (Qfloor 0). apply Qfloor_resp_le. lra. }
  assert (H1 : (0 <= inject_Z (Qfloor (x * 100 + (1 # 2))))%Q).
  { change 0%Q with (inject_Z 0). now rewrite <- Zle_Qle. }
  unfold Qdiv. change (/ 100)%Q with (1 # 100)%Q. lra.
Qed.

(** The clamp of [calculateOptimalPrice] keeps a price inside the cap. *)
Lemma clamp_bounds (b p : Q) :
  (0 <= b)%Q ->
  let c := Qmin (Qmax p (b * (1 - priceAdjustmentCap))) (b * (1 + priceAdjustmentCap)) in
  (b * (1 - priceAdjustmentCap) <= c /\ c <= b * (1 + priceAdjustmentCap))%Q.
Proof.
  intros Hb c. subst c. unfold priceAdjustmentCap.
  destruct (Qmax_cases p (b * (1 - (3 # 10)))) as [[H1 ->] | [H1 ->]];
    match goal with
    | |- context [Qmin ?u ?v] =>
        destruct (Qmin_cases u v) as [[H2 ->] | [H2 ->]]
    end; split; lra.
Qed.

(** ** Frame reasoning for one evaluation *)

Section Frame.

Variable this : CascadeEngine.
Variable clientId : nat.

Lemma extends_refl (w : World) : extends this clientId w w.
Proof.
  split; [reflexivity |]. split; [auto |].
  exists []. rewrite !app_nil_r. repeat split; constructor.
Qed.

Lemma sound_mono (w w' : World) (k : Task) :
  service_orders w' = service_orders w ->
  (faults w = [] -> faults w' = []) ->
  sound this clientId w' k -> sound this clientId w k.
Proof.
  intros Ho Hf (H1 & H2 & H3 & H4 & H5). repeat split; auto.
  intros Hw. specialize (H5 (Hf Hw)).
  unfold ordersFor in *. rewrite <- Ho. exact H5.
Qed.

Lemma extends_trans (w1 w2 w3 : World) :
  extends this clientId w1 w2 -> extends this clientId w2 w3 ->
  extends this clientId w1 w3.
Proof.
  intros (Ho1 & Hf1 & t1 & Ht1 & Hc1 & Hg1) (Ho2 & Hf2 & t2 & Ht2 & Hc2 & Hg2).
  split; [congruence |]. split; [auto |].
  exists (t1 ++ t2). repeat split.
  - rewrite Ht2, Ht1. now rewrite app_assoc.
  - rewrite Hc2, Hc1, map_app. now rewrite app_assoc.
  - apply Forall_app. split; [exact Hg1 |].
    eapply Forall_impl; [exact Hg2 |].
    intros k. now apply sound_mono.
Qed.

(** A world that differs only outside orders, triggers and timers, and whose
    fault oracle was only consumed. *)
Lemma extends_frame (w w' : World) :
  service_orders w' = service_orders w ->
  timers w' = timers w ->
  cascade_triggers w' = cascade_triggers w ->
  (faults w = [] -> faults w' = []) ->
  extends this clientId w w'.
Proof.
  intros Ho Ht Hc Hf. split; [exact Ho |]. split; [exact Hf |].
  exists []. rewrite !app_nil_r. repeat split; auto.
Qed.

Lemma stable_ret {A} (a : A) : stable this clientId (ret a).
Proof. intros w. apply extends_refl. Qed.

Lemma stable_throw {A} (e : Exn) : stable this clientId (@throw A e).
Proof. intros w. apply extends_refl. Qed.

Lemma stable_gets {A} (f : World -> A) : stable this clientId (gets f).
Proof. intros w. apply extends_refl. Qed.

Lemma stable_bind {A B} (m : M A) (k : A -> M B) :
  stable this clientId m -> (forall a, stable this clientId (k a)) ->
  stable this clientId (bind m k).
Proof.
  intros Hm Hk w. unfold bind. specialize (Hm w).
  destruct (m w) as [[a | e] w1]; simpl in *.
  - eapply extends_trans; [exact Hm | apply Hk].
  - exact Hm.
Qed.

Lemma stable_try_catch {A} (m : M A) (h : Exn -> M A) :
  stable this clientId m -> (forall e, stable this clientId (h e)) ->
  stable this clientId (try_catch m h).
Proof.
  intros Hm Hh w. unfold try_catch. specialize (Hm w).
  destruct (m w) as [[a | e] w1]; simpl in *.
  - exact Hm.
  - eapply extends_trans; [exact Hm | apply Hh].
Qed.

Lemma stable_logger (l : Level) (s : string) : stable this clientId (logger l s).
Proof. intros w. apply extends_frame; auto. Qed.

Lemma stable_query : stable this clientId query.
Proof.
  intros w. unfold query. destruct (faults w) as [| [] fs] eqn:E; simpl.
  - apply extends_refl.
  - apply extends_frame; simpl; auto. rewrite E. discriminate.
  - apply extends_frame; simpl; auto. rewrite E. discriminate.
Qed.

Lemma stable_random : stable this clientId random.
Proof.
  intros w. unfold random. destruct (draws w); simpl.
  - apply extends_refl.
  - apply extends_frame; auto.
Qed.

Lemma stable_forEach {A} (f : A -> M unit) (l : list A) :
  (forall x, stable this clientId (f x)) -> stable this clientId (forEach f l).
Proof.
  intros Hf. induction l as [| x l IH]; simpl.
  - apply stable_ret.
  - apply stable_bind; auto.
Qed.

End Frame.

(** ** The operations of one evaluation, one by one *)

Section Evaluation.

Variable StringToNumber : string -> Num.
Variable this : CascadeEngine.
Variable clientId : nat.

Lemma query_nofault (w : World) : faults w = [] -> query w = (Ok tt, w).
Proof. intros E. unfold query. now rewrite E. Qed.

Lemma ordersFor_find (c s : nat) (w : World) :
  List.find (fun o => Nat.eqb (o_client_id o) c && Nat.eqb (o_service_id o) s)
            (service_orders w) = None
  <-> ordersFor c s w = [].
Proof.
  unfold ordersFor. induction (service_orders w) as [| o l IH]; simpl.
  - tauto.
  - destruct (Nat.eqb (o_client_id o) c && Nat.eqb (o_service_id o) s).
    + split; discriminate.
    + exact IH.
Qed.

(** [checkExistingService] never throws; without a rejected query, [null]
    means that the customer holds no order for the service. *)
Lemma checkExistingService_spec (s : nat) (w : World) :
  exists r w',
    checkExistingService clientId s w = (Ok r, w')
    /\ extends this clientId w w'
    /\ (r = None -> faults w = [] -> ordersFor clientId s w = []).
Proof.
  unfold checkExistingService, try_catch, findOne_service_orders, bind, query, gets, ret.
  destruct (faults w) as [| [] fs] eqn:E; simpl.
  - eexists _, _. split; [reflexivity |]. split; [apply extends_refl |].
    intros Hr _. now apply ordersFor_find.
  - eexists _, _. split; [reflexivity |].
    split; [| discriminate].
    apply extends_frame; simpl; auto. rewrite E. discriminate.
  - eexists _, _. split; [reflexivity |].
    split; [| discriminate].
    apply extends_frame; simpl; auto. rewrite E. discriminate.
Qed.

Lemma evaluateConditions_spec (conds : gmap string Value) (client : Client)
    (so : Order) (w : World) :
  exists b w',
    evaluateConditions StringToNumber conds client so w = (Ok b, w')
    /\ extends this clientId w w'
    /\ (b = true ->
        evaluateConditionsBody StringToNumber (now w) conds client so = Ok true).
Proof.
  unfold evaluateConditions, bind, gets, ret; simpl.
  destruct (evaluateConditionsBody StringToNumber (now w) conds client so)
    as [b | e] eqn:E; simpl.
  - eexists _, _. split; [reflexivity |]. split; [apply extends_refl |].
    now intros ->.
  - eexists _, _. split; [reflexivity |]. split; [| discriminate].
    apply extends_frame; auto.
Qed.

Lemma create_cascade_triggers_spec (mk : nat -> Trigger) (w : World) :
  (exists i w',
      create_cascade_triggers mk w = (Ok (mk i), w')
      /\ cascade_triggers w' = cascade_triggers w ++ [mk i]
      /\ service_orders w' = service_orders w
      /\ timers w' = timers w
      /\ log w' = log w
      /\ (faults w = [] -> faults w' = []))
  \/ (exists e w',
      create_cascade_triggers mk w = (Throw e, w')
      /\ extends this clientId w w').
Proof.
  unfold create_cascade_triggers, bind, query, fresh_id, modify, ret.
  destruct (faults w) as [| [] fs] eqn:E; simpl.
  - left. eexists _, _. split; [reflexivity |]. simpl. repeat split; auto.
  - right. eexists _, _. split; [reflexivity |].
    apply extends_frame; simpl; auto. rewrite E. discriminate.
  - left. eexists _, _. split; [reflexivity |]. simpl. repeat split; auto.
    discriminate.
Qed.

(** Appending one sound task and its trigger record. *)
Lemma extends_snoc (w w1 w2 : World) (k : Task) :
  extends this clientId w w1 ->
  service_orders w2 = service_orders w1 ->
  timers w2 = timers w1 ++ [k] ->
  cascade_triggers w2 = cascade_triggers w1 ++ [task_cascadeTrigger k] ->
  (faults w1 = [] -> faults w2 = []) ->
  sound this clientId w k ->
  extends this clientId w w2.
Proof.
  intros (Ho & Hf & ts & Ht & Hc & Hg) Ho2 Ht2 Hc2 Hf2 Hk.
  split; [congruence |]. split; [auto |].
  exists (ts ++ [k]). repeat split.
  - rewrite Ht2, Ht. now rewrite app_assoc.
  - rewrite Hc2, Hc, map_app. simpl. now rewrite app_assoc.
  - apply Forall_app. split; [exact Hg |]. constructor; [exact Hk | constructor].
Qed.

Lemma extends_log (w w1 : World) (l : Level) (s : string) :
  extends this clientId w w1 ->
  extends this clientId w (snd (logger l s w1)).
Proof.
  intros H. eapply extends_trans; [exact H | apply stable_logger].
Qed.

(** The loop body adds at most one task, and only a sound one. *)
Lemma processRule_extends (serviceOrderId depth : nat) (client : Client)
    (so : Order) (rule : Rule) (w : World) :
  extends this clientId w
    (snd (processRule StringToNumber this serviceOrderId clientId depth client so rule w)).
Proof.
  unfold processRule, try_catch.
  match goal with
  | |- context [match ?m w with _ => _ end] =>
      assert (Hinner : extends this clientId w (snd (m w)));
        [| destruct (m w) as [[[] | e] w']; simpl in *;
           [exact Hinner | now apply extends_log] ]
  end.
  destruct (Qltb (conversionRate rule) (conversionThreshold this)) eqn:Hth.
  { apply stable_logger. }
  apply Qltb_ge in Hth.
  unfold bind at 1.
  destruct (checkExistingService_spec (triggeredServiceId rule) w)
    as (r & w1 & -> & Hw1 & Hnone).
  destruct r as [existing |].
  { now apply extends_log. }
  unfold bind at 1.
  destruct (evaluateConditions_spec (conditions rule) client so w1)
    as (b & w2 & -> & Hw2 & _).
  assert (Hw12 : extends this clientId w w2) by (eapply extends_trans; eassumption).
  destruct b; cbn beta iota delta [negb]; [| now apply extends_log].
  unfold bind at 1.
  pose proof (stable_random this clientId w2) as Hw3.
  destruct (random w2) as [[r | e] w3]; simpl in Hw3;
    [| simpl; eapply extends_trans; eassumption].
  assert (Hw13 : extends this clientId w w3) by (eapply extends_trans; eassumption).
  destruct (Qltb r (conversionRate rule)); cbn beta iota delta [negb];
    [| now apply extends_log].
  unfold bind at 1.
  match goal with
  | |- context [create_cascade_triggers ?mk w3] =>
      destruct (create_cascade_triggers_spec mk w3)
        as [(i & w4 & -> & Hc & Ho & Ht & _ & Hf) | (e & w4 & -> & Hw4)]
  end.
  - unfold bind, setTimeout, modify, logger; simpl.
    eapply extends_snoc with (w1 := w3); simpl; eauto.
    all: try (now rewrite Ht).
    all: try (now rewrite Hc).
    repeat split; simpl; auto.
  - simpl. eapply extends_trans; eassumption.
Qed.

(** One evaluation: orders are untouched; what it adds to the timers and to
    the trigger records are sound tasks and their records. *)
Lemma triggerCascade_extends (serviceOrderId depth : nat) (w : World) :
  extends this clientId w
    (snd (triggerCascade StringToNumber this serviceOrderId clientId depth w)).
Proof.
  revert w. change (stable this clientId
    (triggerCascade StringToNumber this serviceOrderId clientId depth)).
  unfold triggerCascade.
  apply stable_try_catch.
  2:{ intros e. unfold handleCascadeError.
      apply stable_bind; [apply stable_logger | intros; apply stable_throw]. }
  destruct (negb (isInitialized this)); [apply stable_throw |].
  destruct (Nat.leb maxCascadeDepth depth); [apply stable_logger |].
  apply stable_bind.
  { unfold findById_service_orders.
    apply stable_bind; [apply stable_query | intros; apply stable_gets]. }
  intros [so |]; [| apply stable_logger].
  destruct (negb (is_completed so)); [apply stable_logger |].
  destruct (cascadeRules this !! o_service_id so) as [[| rule rules] |];
    try apply stable_logger.
  apply stable_bind.
  { unfold getClientProfile. apply stable_try_catch.
    - apply stable_bind; [apply stable_gets |].
      intros [p |]; [apply stable_ret |].
      apply stable_bind; [apply stable_query | intros _].
      apply stable_bind; [apply stable_gets |].
      intros [c |]; [| apply stable_ret].
      destruct (c_user_id c); [| apply stable_ret].
      apply stable_bind; [apply stable_gets | intros os].
      apply stable_bind; [apply stable_query | intros _].
      apply stable_bind; [apply stable_gets | intros vs].
      apply stable_bind; [apply stable_query | intros _].
      apply stable_bind; [| intros; apply stable_ret].
      intros w. apply extends_frame; auto.
    - intros e. apply stable_bind; [apply stable_logger | intros; apply stable_ret]. }
  intros [client |]; [| apply stable_logger].
  apply stable_forEach. intros r w. apply processRule_extends.
Qed.

End Evaluation.

(** ** Loading the rules *)

(** A query whose fault flag is not set is answered, and consumes the flag. *)
Lemma query_accepted (w : World) :
  hd false (faults w) = false -> query w = (Ok tt, set_faults (tl (faults w)) w).
Proof.
  destruct w as [? ? ? ? ? ? ? ? ? ? ? ? ? ? ? fs ? ?]. unfold query. cbn.
  destruct fs as [| [] fs]; [reflexivity | discriminate | reflexivity].
Qed.

Lemma insert_sorted_In {A} (before : A -> A -> bool) (x y : A) (l : list A) :
  In y (insert_sorted before x l) <-> y = x \/ In y l.
Proof.
  induction l as [| z l IH]; simpl.
  - intuition.
  - destruct (before x z); simpl; [intuition | rewrite IH; intuition].
Qed.

Lemma order_by_In {A} (before : A -> A -> bool) (y : A) (l : list A) :
  In y (order_by before l) <-> In y l.
Proof.
  unfold order_by. induction l as [| x l IH]; simpl; [tauto |].
  rewrite insert_sorted_In, IH. intuition.
Qed.

Lemma In_omap {A B} (f : A -> option B) (l : list A) (b : B) :
  In b (omap f l) <-> exists a, In a l /\ f a = Some b.
Proof.
  rewrite <- list_elem_of_In, list_elem_of_omap.
  split; intros (a & Ha & Hf); exists a; split; auto; now apply list_elem_of_In.
Qed.

(** The loop of [loadCascadeRules] files every rule under its entry service
    and keeps the order of the rows. *)
Lemma groupRules_fold (rules : list Rule) (idx : gmap nat (list Rule)) (k : nat) :
  match fold_left (fun idx rule =>
                     <[entryServiceId rule :=
                         (match idx !! entryServiceId rule with
                          | Some rs => rs
                          | None => []
                          end ++ [rule])%list]> idx) rules idx !! k with
  | Some rs => rs
  | None => []
  end
  = match idx !! k with Some rs => rs | None => [] end
    ++ List.filter (fun r => Nat.eqb (entryServiceId r) k) rules.
Proof.
  revert idx. induction rules as [| r rules IH]; intros idx; simpl.
  - now rewrite app_nil_r.
  - rewrite IH. destruct (Nat.eqb_spec (entryServiceId r) k) as [-> | Hne].
    + rewrite lookup_insert_eq. now rewrite <- app_assoc.
    + now rewrite lookup_insert_ne.
Qed.

Lemma groupRules_nonempty (rules : list Rule) (idx : gmap nat (list Rule)) (k : nat) :
  (forall j rs, idx !! j = Some rs -> rs <> []) ->
  forall rs,
    fold_left (fun idx rule =>
                 <[entryServiceId rule :=
                     (match idx !! entryServiceId rule with
                      | Some rs => rs
                      | None => []
                      end ++ [rule])%list]> idx) rules idx !! k = Some rs ->
    rs <> [].
Proof.
  revert idx. induction rules as [| r rules IH]; intros idx Hidx rs; simpl.
  - apply Hidx.
  - apply IH. intros j rs'.
    destruct (Nat.eqb_spec (entryServiceId r) j) as [-> | Hne].
    + rewrite lookup_insert_eq. intros [= <-]. now destruct (idx !! _) as [[] |].
    + rewrite lookup_insert_ne by exact Hne. apply Hidx.
Qed.

(** The entry of a service in the index is the list of its rules. *)
Lemma groupRules_entry (rules : list Rule) (k : nat) :
  groupRules rules !! k
  = match List.filter (fun r => Nat.eqb (entryServiceId r) k) rules with
    | [] => None
    | rs => Some rs
    end.
Proof.
  pose proof (groupRules_fold rules ∅ k) as H.
  pose proof (groupRules_nonempty rules ∅ k) as Hne.
  unfold groupRules. rewrite lookup_empty in H. simpl in H.
  destruct (fold_left _ rules ∅ !! k) as [rs |] eqn:E.
  - rewrite <- H. specialize (Hne ltac:(intros j rs'; now rewrite lookup_empty) rs eq_refl).
    now destruct rs.
  - now rewrite <- H.
Qed.

Lemma activeRules_rows (w : World) :
  activeRules w = omap parsedRule (activeRows w).
Proof.
  unfold activeRules, activeRows.
  induction (order_by cascade_before (List.filter sc_is_active (service_cascades w)))
    as [| r l IH]; [reflexivity |].
  cbn [omap list_omap]. unfold joinRule at 1.
  destruct (joinRow (services w) r) as [row |]; [| exact IH].
  cbn [omap list_omap]. unfold parsedRule at 1.
  destruct (ruleOf row); [now rewrite IH | exact IH].
Qed.

Lemma ruleOf_entry (row : RuleRow) (rule : Rule) :
  ruleOf row = Ok rule -> entryServiceId rule = sc_entry_service_id (rr_cascade row).
Proof.
  unfold ruleOf. destruct (parseConditions _); [| discriminate].
  now intros [= <-].
Qed.

(** Creating the entry first and pushing then is the one insertion of the
    grouping of parsed rules. *)
Lemma touched_push (k : nat) (rule : Rule) (idx : gmap nat (list Rule)) :
  <[k := (match touched k idx !! k with
          | Some rs => rs
          | None => []
          end ++ [rule])%list]> (touched k idx)
  = <[k := (match idx !! k with
            | Some rs => rs
            | None => []
            end ++ [rule])%list]> idx.
Proof.
  unfold touched. destruct (idx !! k) as [rs |] eqn:E.
  - now rewrite E.
  - now rewrite lookup_insert_eq, insert_insert_eq.
Qed.

(** When the conditions of every row parse the loop completes, and the index
    is the grouping of the parsed rules. *)
Lemma groupRows_parsed (rows : list RuleRow) (idx : gmap nat (list Rule)) :
  forallb parses rows = true ->
  groupRows rows idx
  = (fold_left (fun idx rule =>
                  <[entryServiceId rule :=
                      (match idx !! entryServiceId rule with
                       | Some rs => rs
                       | None => []
                       end ++ [rule])%list]> idx)
               (omap parsedRule rows) idx, Ok tt).
Proof.
  revert idx. induction rows as [| row rows IH]; intros idx H; [reflexivity |].
  cbn [forallb] in H. apply andb_true_iff in H as [Hrow Hrows].
  cbn [groupRows omap list_omap]. unfold parses in Hrow. unfold parsedRule at 1.
  destruct (ruleOf row) as [rule |] eqn:E; [| discriminate].
  cbn [fold_left]. rewrite (ruleOf_entry row rule E).
  fold (touched (sc_entry_service_id (rr_cascade row)) idx).
  rewrite touched_push. now apply IH.
Qed.

(** The loop stops at the first row whose conditions do not parse: the
    index then holds the rules of the rows before it and, possibly empty,
    the entry of its service. *)
Lemma groupRows_stops (before after : list RuleRow) (row : RuleRow)
    (idx : gmap nat (list Rule)) :
  forallb parses before = true ->
  parses row = false ->
  exists error,
    ruleOf row = Throw error
    /\ groupRows (before ++ row :: after) idx
       = (touched (sc_entry_service_id (rr_cascade row))
            (fold_left (fun idx rule =>
                          <[entryServiceId rule :=
                              (match idx !! entryServiceId rule with
                               | Some rs => rs
                               | None => []
                               end ++ [rule])%list]> idx)
                       (omap parsedRule before) idx),
          Throw error).
Proof.
  revert idx. induction before as [| r before IH]; intros idx Hb Hrow.
  - cbn [app groupRows omap list_omap fold_left]. unfold parses in Hrow.
    destruct (ruleOf row) as [rule | error]; [discriminate |].
    exists error. split; reflexivity.
  - cbn [forallb] in Hb. apply andb_true_iff in Hb as [Hr Hb].
    cbn [app groupRows omap list_omap]. unfold parses in Hr. unfold parsedRule at 1.
    destruct (ruleOf r) as [rule |] eqn:E; [| discriminate].
    cbn [fold_left]. rewrite (ruleOf_entry r rule E).
    fold (touched (sc_entry_service_id (rr_cascade r)) idx).
    rewrite touched_push. now apply IH.
Qed.

(** A list of rows either parses throughout or has a first row that does
    not. *)
Lemma first_unparsed (rows : list RuleRow) :
  forallb parses rows = false ->
  exists before row after,
    rows = before ++ row :: after
    /\ forallb parses before = true /\ parses row = false.
Proof.
  induction rows as [| r rows IH]; [discriminate |].
  cbn [forallb]. destruct (parses r) eqn:E.
  - intros H. destruct (IH H) as (before & row & after & -> & Hb & Hrow).
    exists (r :: before), row, after. cbn [forallb]. rewrite E. auto.
  - intros _. exists [], r, rows. auto.
Qed.

Lemma groupRows_fails (rows : list RuleRow) (idx : gmap nat (list Rule)) :
  forallb parses rows = false -> exists error, snd (groupRows rows idx) = Throw error.
Proof.
  intros H. apply first_unparsed in H as (before & row & after & -> & Hb & Hrow).
  destruct (groupRows_stops before after row idx Hb Hrow) as (error & _ & ->).
  now exists error.
Qed.

(** The three ways a load can go: the query is rejected and the index is as
    it was; the query answers and every row parses; the query answers and
    the loop stops. *)
Lemma loadCascadeRules_rejected (this : CascadeEngine) (w : World) :
  hd false (faults w) = true ->
  loadCascadeRules this w
  = (Ok (this, Throw CascadeError503),
     set_log (log w ++ [(LError, "Database query error:");
                        (LError, "Service cascade failed")])
             (set_faults (tl (faults w)) w)).
Proof.
  destruct w as [? ? ? ? ? ? ? ? ? ? ? ? ? ? ? fs ? ?]. cbn. intros H.
  destruct fs as [| [] fs]; try discriminate.
  unfold loadCascadeRules, attempt, handleCascadeError, bind, query, gets, logger,
    modify, throw, ret. cbn. rewrite <- app_assoc. reflexivity.
Qed.

Lemma loadCascadeRules_accepted (this : CascadeEngine) (w : World) :
  hd false (faults w) = false ->
  loadCascadeRules this w
  = match snd (groupRows (activeRows w) ∅) with
    | Ok _ =>
        (Ok (withRules (fst (groupRows (activeRows w) ∅)) this, Ok tt),
         set_log (log w ++ [(LInfo, "Loaded cascade rules")])
                 (set_faults (tl (faults w)) w))
    | Throw _ =>
        (Ok (withRules (fst (groupRows (activeRows w) ∅)) this,
             Throw CascadeError503),
         set_log (log w ++ [(LError, "Service cascade failed")])
                 (set_faults (tl (faults w)) w))
    end.
Proof.
  intros H. unfold loadCascadeRules, attempt, bind at 1 2.
  rewrite (query_accepted w H). unfold gets.
  change (activeRows (set_faults (tl (faults w)) w)) with (activeRows w).
  cbv zeta. destruct (snd (groupRows (activeRows w) ∅)); reflexivity.
Qed.

Lemma loadCascadeRules_loaded (this : CascadeEngine) (w : World) :
  hd false (faults w) = false ->
  forallb parses (activeRows w) = true ->
  loadCascadeRules this w
  = (Ok (withRules (groupRules (activeRules w)) this, Ok tt),
     set_log (log w ++ [(LInfo, "Loaded cascade rules")])
             (set_faults (tl (faults w)) w)).
Proof.
  intros Hf Hp. rewrite (loadCascadeRules_accepted this w Hf).
  rewrite (groupRows_parsed _ ∅ Hp), activeRules_rows. reflexivity.
Qed.

(** A load that completes has found every row to parse. *)
Lemma loadCascadeRules_returns (this e : CascadeEngine) (w w' : World) :
  loadCascadeRules this w = (Ok (e, Ok tt), w') ->
  forallb parses (activeRows w) = true
  /\ e = withRules (groupRules (activeRules w)) this.
Proof.
  intros H. destruct (hd false (faults w)) eqn:Hf.
  - rewrite (loadCascadeRules_rejected this w Hf) in H. discriminate.
  - destruct (forallb parses (activeRows w)) eqn:Hp.
    + rewrite (loadCascadeRules_loaded this w Hf Hp) in H.
      split; [reflexivity | congruence].
    + rewrite (loadCascadeRules_accepted this w Hf) in H.
      destruct (groupRows_fails (activeRows w) ∅ Hp) as (error & E).
      rewrite E in H. discriminate.
Qed.

Lemma joinRule_fields (svcs : list Service) (row : CascadeRow) (r : Rule) :
  joinRule svcs row = Some r ->
  id r = sc_id row /\ entryServiceId r = sc_entry_service_id row
  /\ triggeredServiceId r = sc_triggered_service_id row
  /\ conversionRate r = sc_conversion_rate row /\ priority r = sc_priority row.
Proof.
  unfold joinRule, joinRow, ruleOf.
  destruct (List.find _ svcs); [| discriminate].
  destruct (List.find _ svcs); [| discriminate].
  cbn. destruct (parseConditions _); [| discriminate].
  intros [= <-]. simpl. auto.
Qed.

(** A row of the join whose conditions are JSON text becomes a rule with
    exactly these conditions. *)
Lemma joinRule_text (svcs : list Service) (row : CascadeRow)
    (conds : gmap string Value) :
  is_Some (joinRow svcs row) ->
  sc_conditions row = JsonText conds ->
  exists r, joinRule svcs row = Some r /\ conditions r = conds.
Proof.
  unfold joinRule, joinRow, ruleOf. intros [jr Hj] Hc.
  destruct (List.find _ svcs); [| discriminate].
  destruct (List.find _ svcs); [| discriminate].
  cbn. rewrite Hc. cbn. eauto.
Qed.

(** Every active row of the store that becomes a rule is filed under its
    entry service. *)
Lemma loaded_row_in_index (w : World) (row : CascadeRow) (r : Rule) :
  In row (service_cascades w) -> sc_is_active row = true ->
  joinRule (services w) row = Some r ->
  exists rs, groupRules (activeRules w) !! sc_entry_service_id row = Some rs /\ In r rs.
Proof.
  intros Hrow Hact Hj. rewrite groupRules_entry.
  assert (Hin : In r (List.filter
                        (fun r => Nat.eqb (entryServiceId r) (sc_entry_service_id row))
                        (activeRules w))).
  { apply filter_In. split.
    - unfold activeRules. apply In_omap. exists row. split; [| exact Hj].
      apply order_by_In, filter_In. auto.
    - apply joinRule_fields in Hj as (_ & -> & _). apply Nat.eqb_refl. }
  destruct (List.filter _ (activeRules w)) as [| r0 rs]; [destruct Hin |].
  eauto.
Qed.

(** Conditions fail to parse only when they are delivered as an object. *)
Lemma parses_false (row : RuleRow) :
  parses row = false -> exists d, sc_conditions (rr_cascade row) = JsonObject d.
Proof.
  unfold parses, ruleOf, parseConditions.
  destruct (sc_conditions (rr_cascade row)); try discriminate. eauto.
Qed.

(** ** Condition evaluation *)

Section Conditions.

Variable StringToNumber : string -> Num.
Variable today : Z.
Variable client : Client.

Local Abbreviation guard' := (guard StringToNumber today client).
Local Abbreviation listedPredicate' := (listedPredicate StringToNumber today client).
Local Abbreviation checkKeys' := (checkKeys StringToNumber today).
Local Abbreviation checkConditions' := (checkConditions StringToNumber today).
Local Abbreviation evaluateConditionsBody' :=
  (evaluateConditionsBody StringToNumber today).

(** The source's sequence of [if] statements is the chain over [knownKeys]. *)
Lemma checkConditions_keys (c : gmap string Value) :
  checkConditions' c client = checkKeys' c client knownKeys.
Proof. reflexivity. Qed.

Lemma prop_empty (k : string) : prop ∅ k = JUndefined.
Proof. unfold prop. now rewrite lookup_empty. Qed.

Lemma checkKeys_empty (keys : list string) : checkKeys' ∅ client keys = Ok true.
Proof.
  induction keys as [| k keys IH]; simpl; [reflexivity |].
  rewrite prop_empty. simpl. exact IH.
Qed.

(** The emptiness test of [evaluateConditions] is subsumed by the checks. *)
Lemma evaluateConditionsBody_keys (c : gmap string Value) (so : Order) :
  evaluateConditionsBody' c client so = checkKeys' c client knownKeys.
Proof.
  unfold evaluateConditionsBody.
  destruct (Nat.eqb (size c) 0) eqn:E; [| apply checkConditions_keys].
  apply Nat.eqb_eq, map_size_empty_iff in E. subst c.
  now rewrite checkKeys_empty.
Qed.

Lemma checkKeys_ext (c1 c2 : gmap string Value) (keys : list string) :
  (forall k, In k keys ->
     and_then (prop c1 k) (guard' k (prop c1 k))
     = and_then (prop c2 k) (guard' k (prop c2 k))) ->
  checkKeys' c1 client keys = checkKeys' c2 client keys.
Proof.
  induction keys as [| k keys IH]; intros H; simpl; [reflexivity |].
  rewrite (H k) by now left.
  rewrite IH; [reflexivity |]. intros k' Hk'. apply H. now right.
Qed.

Lemma checkKeys_true (c : gmap string Value) (keys : list string) :
  checkKeys' c client keys = Ok true
  <-> forall k, In k keys -> and_then (prop c k) (guard' k (prop c k)) = Ok false.
Proof.
  induction keys as [| k keys IH]; simpl.
  - split; [intros _ k [] | reflexivity].
  - unfold return_false_if at 1.
    destruct (and_then (prop c k) (guard' k (prop c k))) as [[] | e] eqn:E.
    + split; [discriminate |]. intros H. specialize (H k (or_introl eq_refl)).
      congruence.
    + rewrite IH. split.
      * intros H k' [<- | Hk']; auto.
      * intros H k' Hk'. apply H. now right.
    + split; [discriminate |]. intros H. specialize (H k (or_introl eq_refl)).
      congruence.
Qed.

Lemma prop_lookup (c : gmap string Value) (k : string) :
  truthy (prop c k) = true -> c !! k = Some (prop c k).
Proof. unfold prop. destruct (c !! k); [reflexivity | discriminate]. Qed.

Lemma prop_Some (c : gmap string Value) (k : string) (v : Value) :
  c !! k = Some v -> prop c k = v.
Proof. unfold prop. now intros ->. Qed.

Lemma and_then_falsy (v : Value) (e : Res bool) :
  truthy v = false -> and_then v e = Ok false.
Proof. unfold and_then. now intros ->. Qed.

Lemma js_lt_num (x y : Q) :
  js_lt StringToNumber (num x) (num y) = false <-> (y <= x)%Q.
Proof.
  unfold js_lt, js_compare, num. cbn [ToNumber].
  destruct (Qcompare x y) eqn:E;
    [apply Qeq_alt in E | apply Qlt_alt in E | apply Qgt_alt in E];
    split; intros H; try reflexivity; try discriminate; lra.
Qed.

Lemma js_gt_num (x y : Q) :
  js_gt StringToNumber (num x) (num y) = false <-> (x <= y)%Q.
Proof.
  unfold js_gt, js_compare, num. cbn [ToNumber].
  destruct (Qcompare x y) eqn:E;
    [apply Qeq_alt in E | apply Qlt_alt in E | apply Qgt_alt in E];
    split; intros H; try reflexivity; try discriminate; lra.
Qed.

Lemma and_then_num (t : Q) (e : Res bool) : ~ (t == 0)%Q -> and_then (num t) e = e.
Proof.
  intros Ht. unfold and_then, num, truthy.
  destruct (Qeq_bool t 0) eqn:E; [| reflexivity].
  apply Qeq_bool_iff in E. contradiction.
Qed.

Lemma and_then_str (s : string) (e : Res bool) :
  s <> EmptyString -> and_then (JStr s) e = e.
Proof.
  intros Hs. unfold and_then, truthy. apply String.eqb_neq in Hs. now rewrite Hs.
Qed.

Lemma Ok_negb_false (b : bool) : Ok (negb b) = Ok false <-> b = true.
Proof. destruct b; cbn; split; congruence. Qed.

(** For a condition configured as meant, the [if] statement of its key lets
    the evaluation pass exactly when the listed predicate holds. *)
Lemma guard_listed (k : string) (v : Value) :
  In k knownKeys -> configured client k v ->
  (and_then v (guard' k v) = Ok false <-> listedPredicate' k v).
Proof.
  intros Hk Hc. simpl in Hk.
  repeat (destruct Hk as [<- | Hk]); [.. | contradiction];
    unfold configured in Hc; unfold listedPredicate, guard;
    simpl String.eqb in *; simpl orb in *; cbv iota in *.
  - destruct Hc as ((t & -> & Ht) & score & Hs). rewrite Hs, (and_then_num _ _ Ht).
    split.
    + intros [= H]. apply js_lt_num in H. eauto.
    + intros (s' & t' & [= <-] & [= <-] & H). f_equal. now apply js_lt_num.
  - destruct Hc as ((t & -> & Ht) & score & Hs). rewrite Hs, (and_then_num _ _ Ht).
    split.
    + intros [= H]. apply js_gt_num in H. eauto.
    + intros (s' & t' & [= <-] & [= <-] & H). f_equal. now apply js_gt_num.
  - destruct Hc as ((t & -> & Ht) & value & Hs). rewrite Hs, (and_then_num _ _ Ht).
    split.
    + intros [= H]. apply js_lt_num in H. eauto.
    + intros (s' & t' & [= <-] & [= <-] & H). f_equal. now apply js_lt_num.
  - destruct Hc as ((t & -> & Ht) & income & Hs). rewrite Hs, (and_then_num _ _ Ht).
    split.
    + intros [= H]. apply js_lt_num in H. eauto.
    + intros (s' & t' & [= <-] & [= <-] & H). f_equal. now apply js_lt_num.
  - destruct Hc as (stage & -> & Hs). rewrite (and_then_str _ _ Hs).
    rewrite Ok_negb_false. split.
    + intros H. exists stage. split; [reflexivity |].
      destruct (journey_stage client) as [| | | [] | s]; try discriminate.
      cbn in H. apply String.eqb_eq in H. now subst.
    + intros (s' & [= <-] & ->). cbn. apply String.eqb_refl.
  - subst v. cbn [and_then truthy]. apply Ok_negb_false.
  - subst v. cbn [and_then truthy]. apply Ok_negb_false.
  - subst v. cbn [and_then truthy]. apply Ok_negb_false.
  - subst v. cbn [and_then truthy].
    destruct (hasVehicleConditionIssues client) as [[] | e]; cbn; split; congruence.
  - destruct Hc as (t & -> & Ht). rewrite (and_then_num _ _ Ht). split.
    + intros [= H]. apply js_lt_num in H. eauto.
    + intros (t' & [= <-] & H). f_equal. now apply js_lt_num.
  - destruct Hc as (t & -> & Ht). rewrite (and_then_num _ _ Ht). split.
    + intros [= H]. apply js_lt_num in H. eauto.
    + intros (t' & [= <-] & H). f_equal. now apply js_lt_num.
  - subst v. cbn [and_then truthy]. apply Ok_negb_false.
  - subst v. cbn [and_then truthy]. apply Ok_negb_false.
Qed.

Lemma listedPredicate_unknown (k : string) (v : Value) :
  ~ In k knownKeys -> listedPredicate' k v.
Proof.
  intros Hk. unfold listedPredicate.
  repeat match goal with
         | |- context [String.eqb k ?s] =>
             destruct (String.eqb_spec k s) as [-> | _];
               [exfalso; apply Hk; simpl; tauto |]
         end.
  exact I.
Qed.

Lemma configured_truthy (k : string) (v : Value) :
  configured client k v -> truthy v = true.
Proof.
  unfold configured. intros H.
  assert (Hn : forall t, ~ (t == 0)%Q -> truthy (num t) = true).
  { intros t Ht. cbn. destruct (Qeq_bool t 0) eqn:E; [| reflexivity].
    apply Qeq_bool_iff in E. contradiction. }
  repeat match type of H with
         | if ?b then _ else _ => destruct b
         end;
    repeat match goal with
           | H : _ /\ _ |- _ => destruct H
           | H : exists _, _ |- _ => destruct H
           end; subst; auto.
  cbn. now apply negb_true_iff, String.eqb_neq.
Qed.

(** For a condition set configured as meant, the rule is met exactly when
    every listed predicate holds. *)
Lemma evaluateConditionsBody_listed (c : gmap string Value) (so : Order) :
  (forall k v, c !! k = Some v -> configured client k v) ->
  (evaluateConditionsBody' c client so = Ok true
   <-> forall k v, c !! k = Some v -> listedPredicate' k v).
Proof.
  intros Hc. rewrite evaluateConditionsBody_keys, checkKeys_true. split.
  - intros H k v Hkv.
    destruct (in_dec String.string_dec k knownKeys) as [Hk | Hk];
      [| now apply listedPredicate_unknown].
    specialize (H k Hk). rewrite (prop_Some c k v Hkv) in H.
    apply guard_listed; eauto.
  - intros H k Hk.
    destruct (c !! k) as [v |] eqn:Hkv.
    + rewrite (prop_Some c k v Hkv). apply guard_listed; eauto.
    + unfold prop. rewrite Hkv. reflexivity.
Qed.

(** A key whose [if] statement cannot fire may as well be absent. *)
Lemma evaluateConditionsBody_delete (c : gmap string Value) (so : Order) (k : string) :
  (In k knownKeys -> and_then (prop c k) (guard' k (prop c k)) = Ok false) ->
  evaluateConditionsBody' c client so
  = evaluateConditionsBody' (delete k c) client so.
Proof.
  intros H. rewrite !evaluateConditionsBody_keys.
  apply checkKeys_ext. intros k' Hk'.
  destruct (String.string_dec k k') as [<- | Hne].
  - rewrite (H Hk'). unfold prop. rewrite lookup_delete_eq. reflexivity.
  - unfold prop. now rewrite lookup_delete_ne.
Qed.

Lemma js_lt_undefined (v : Value) : js_lt StringToNumber JUndefined v = false.
Proof. unfold js_lt, js_compare. destruct v; reflexivity. Qed.

Lemma js_gt_undefined (v : Value) : js_gt StringToNumber JUndefined v = false.
Proof. unfold js_gt, js_compare. destruct v; reflexivity. Qed.

Lemma and_then_Ok_false (v : Value) : and_then v (Ok false) = Ok false.
Proof. unfold and_then. now destruct (truthy v). Qed.

End Conditions.

Lemma evaluateConditions_run (S2N : string -> Num) (c : gmap string Value)
    (client : Client) (so : Order) (w : World) :
  evaluateConditions S2N c client so w
  = match evaluateConditionsBody S2N (now w) c client so with
    | Ok b => (Ok b, w)
    | Throw e =>
        (Ok false, set_log (log w ++ [(LError, "Error evaluating cascade conditions")]) w)
    end.
Proof.
  unfold evaluateConditions, bind, gets. simpl.
  now destruct (evaluateConditionsBody S2N (now w) c client so).
Qed.




(** C8 (as stated, refuted). The seeded rule "vehicle-purchase ->
    vehicle-inspection" carries the unknown key [pre_purchase_inspection]:
    loading accepts it into the index with the key in place, logging only
    the two start-up messages, and evaluation answers true and leaves the
    world, hence the log, as it was. *)
Lemma unknown_key_neither_rejected_nor_logged :
  ~ In "pre_purchase_inspection" knownKeys
  /\ fst (initialize newEngine raceWorld) = Ok (engineOf raceWorld, Ok tt)
  /\ log (snd (initialize newEngine raceWorld))
     = [ (LInfo, "Loaded cascade rules");
         (LInfo, "Cascade engine initialized successfully") ]
  /\ option_map (List.map conditions) (cascadeRules (engineOf raceWorld) !! 1)
     = Some [ inspectionKey ]
  /\ evaluateConditions parseDecimal inspectionKey raceClient purchaseOrder raceWorld
     = (Ok true, raceWorld).
Proof.
  split; [| repeat split; vm_compute; reflexivity].
  simpl. intros H.
  repeat match goal with
         | H : _ \/ _ |- _ => destruct H as [H | H]
         end; try discriminate; contradiction.
Qed.

(** C8 (amended). A condition key the engine does not know is ignored
    without a trace.  A load whose query is answered and whose rows all
    parse files the rule under its entry service with its condition set
    unchanged, the unknown key in place, and logs nothing but its summary
    line; a load fails only when its query is rejected or when conditions
    arrive as an object instead of JSON text, whatever their keys.
    Evaluating the set gives the same answer and the same world, log
    included, as evaluating it with the unknown key removed. *)
Theorem unknown_keys_are_ignored (S2N : string -> Num) (this : CascadeEngine)
    (conds : gmap string Value) (client : Client) (so : Order) (w : World)
    (k : string) (v : Value) (row : CascadeRow) :
  ~ In k knownKeys ->
  conds !! k = Some v ->
  evaluateConditions S2N conds client so w
  = evaluateConditions S2N (delete k conds) client so w
  /\ (hd false (faults w) = false ->
      forallb parses (activeRows w) = true ->
      In row (service_cascades w) -> sc_is_active row = true ->
      is_Some (joinRow (services w) row) ->
      sc_conditions row = JsonText conds ->
      exists e w',
        loadCascadeRules this w = (Ok (e, Ok tt), w')
        /\ log w' = log w ++ [(LInfo, "Loaded cascade rules")]
        /\ exists rs rule,
             cascadeRules e !! sc_entry_service_id row = Some rs
             /\ In rule rs /\ id rule = sc_id row
             /\ conditions rule = conds /\ conditions rule !! k = Some v)
  /\ (forall e error w',
        loadCascadeRules this w = (Ok (e, Throw error), w') ->
        hd false (faults w) = true
        \/ exists jr d, In jr (activeRows w)
                        /\ sc_conditions (rr_cascade jr) = JsonObject d).
Proof.
  intros Hk Hv. split; [| split].
  - rewrite !evaluateConditions_run.
    rewrite <- (evaluateConditionsBody_delete S2N (now w) client conds so k);
      [reflexivity | intros Hin; contradiction].
  - intros Hf Hp Hrow Hact Hj Hc.
    rewrite (loadCascadeRules_loaded this w Hf Hp).
    eexists. eexists. split; [reflexivity |]. split; [reflexivity |].
    destruct (joinRule_text (services w) row conds Hj Hc) as (r & Hr & Hconds).
    destruct (loaded_row_in_index w row r Hrow Hact Hr) as (rs & Hrs & Hin).
    exists rs, r. cbn [cascadeRules withRules].
    split; [exact Hrs |]. split; [exact Hin |].
    split; [apply (joinRule_fields _ _ _ Hr) |].
    split; [exact Hconds | now rewrite Hconds].
  - intros e error w' H. destruct (hd false (faults w)) eqn:Hf; [now left | right].
    rewrite (loadCascadeRules_accepted this w Hf) in H.
    destruct (forallb parses (activeRows w)) eqn:Hp.
    + rewrite (groupRows_parsed _ ∅ Hp) in H. discriminate.
    + apply first_unparsed in Hp as (before & jr & after & Hrows & _ & Hjr).
      apply parses_false in Hjr as (d & Hd).
      exists jr, d. split; [| exact Hd].
      rewrite Hrows. apply in_or_app. right. now left.
Qed.

Lemma unknown_keys_are_ignored_witness :
  (~ In "pre_purchase_inspection" knownKeys
   /\ inspectionKey !! "pre_purchase_inspection" = Some (JBool true)
   /\ In (mkCascade 11 1 3 (85 # 100) inspectionKey) (service_cascades raceWorld))
  /\ evaluateConditions parseDecimal inspectionKey raceClient purchaseOrder raceWorld
     = evaluateConditions parseDecimal (delete "pre_purchase_inspection" inspectionKey)
                          raceClient purchaseOrder raceWorld
  /\ exists e w',
       loadCascadeRules newEngine raceWorld = (Ok (e, Ok tt), w')
       /\ log w' = log raceWorld ++ [(LInfo, "Loaded cascade rules")]
       /\ exists rs rule,
            cascadeRules e !! 1%nat = Some rs
            /\ In rule rs /\ id rule = 11%nat
            /\ conditions rule = inspectionKey
            /\ conditions rule !! "pre_purchase_inspection" = Some (JBool true).
Proof.
  assert (Hk : ~ In "pre_purchase_inspection" knownKeys).
  { simpl. intros H.
    repeat match goal with
           | H : _ \/ _ |- _ => destruct H as [H | H]
           end; try discriminate; contradiction. }
  assert (Hv : inspectionKey !! "pre_purchase_inspection" = Some (JBool true))
    by (vm_compute; reflexivity).
  assert (Hrow : In (mkCascade 11 1 3 (85 # 100) inspectionKey)
                    (service_cascades raceWorld)) by (now left).
  split; [auto |].
  destruct (unknown_keys_are_ignored parseDecimal newEngine inspectionKey raceClient
              purchaseOrder raceWorld "pre_purchase_inspection" (JBool true)
              (mkCascade 11 1 3 (85 # 100) inspectionKey) Hk Hv)
    as (Heval & Hload & _).
  split; [exact Heval |].
  apply Hload; try reflexivity; [exact Hrow | vm_compute; eauto].
Defined.

(** A condition set in which every condition either has a falsy value or is
    a threshold on a field the customer does not have is met; a customer
    without a last order counts as 999 days away from it. *)
Lemma evaluateConditionsBody_pass (S2N : string -> Num) (today : Z)
    (conds : gmap string Value) (client : Client) (so : Order) :
  (forall k v, conds !! k = Some v ->
     truthy v = false
     \/ (credit_score client = JUndefined
         /\ (k = "min_credit_score" \/ k = "max_credit_score"))
     \/ (vehicle_value client = JUndefined /\ k = "min_vehicle_value")
     \/ (annual_income client = JUndefined /\ k = "min_annual_income")
     \/ (lastOrderDate client = None /\ k = "min_days_since_last_order"
         /\ exists t, v = num t /\ (t <= 999)%Q)) ->
  evaluateConditionsBody S2N today conds client so = Ok true.
Proof.
  intros H. rewrite evaluateConditionsBody_keys. apply checkKeys_true.
  intros k Hk. destruct (conds !! k) as [v |] eqn:Hkv.
  - rewrite (prop_Some conds k v Hkv).
    destruct (H k v Hkv)
      as [Hv | [[Hc [-> | ->]] | [[Hc ->] | [[Hc ->] | (Hc & -> & t & -> & Ht)]]]].
    + now apply and_then_falsy.
    + unfold guard. simpl. rewrite Hc, js_lt_undefined. apply and_then_Ok_false.
    + unfold guard. simpl. rewrite Hc, js_gt_undefined. apply and_then_Ok_false.
    + unfold guard. simpl. rewrite Hc, js_lt_undefined. apply and_then_Ok_false.
    + unfold guard. simpl. rewrite Hc, js_lt_undefined. apply and_then_Ok_false.
    + unfold guard, getDaysSinceLastOrder. simpl. rewrite Hc.
      rewrite (proj2 (js_lt_num S2N (inject_Z 999) t) Ht). apply and_then_Ok_false.
  - unfold prop. rewrite Hkv. reflexivity.
Qed.

(** C10. In [evaluateConditions] a condition whose configured value is falsy
    passes, and so does every minimum and maximum threshold on a credit
    score, vehicle value or annual income the customer does not have (and a
    minimum of up to 999 days since a last order the customer does not
    have): a condition set made of such conditions only is met, whoever the
    customer is otherwise, and nothing is logged.  Among other conditions
    they are treated as absent: evaluating the set gives the same answer as
    evaluating it without them. *)
Theorem falsy_conditions_and_missing_fields_pass (S2N : string -> Num)
    (conds : gmap string Value) (client : Client) (so : Order) (w : World) :
  ((forall k v, conds !! k = Some v ->
      truthy v = false
      \/ (credit_score client = JUndefined
          /\ (k = "min_credit_score" \/ k = "max_credit_score"))
      \/ (vehicle_value client = JUndefined /\ k = "min_vehicle_value")
      \/ (annual_income client = JUndefined /\ k = "min_annual_income")
      \/ (lastOrderDate client = None /\ k = "min_days_since_last_order"
          /\ exists t, v = num t /\ (t <= 999)%Q)) ->
   evaluateConditions S2N conds client so w = (Ok true, w))
  /\ (forall k v, conds !! k = Some v -> truthy v = false ->
     evaluateConditions S2N conds client so w
     = evaluateConditions S2N (delete k conds) client so w)
  /\ (credit_score client = JUndefined ->
      evaluateConditions S2N conds client so w
      = evaluateConditions S2N
          (delete "max_credit_score" (delete "min_credit_score" conds)) client so w)
  /\ (vehicle_value client = JUndefined ->
      evaluateConditions S2N conds client so w
      = evaluateConditions S2N (delete "min_vehicle_value" conds) client so w)
  /\ (annual_income client = JUndefined ->
      evaluateConditions S2N conds client so w
      = evaluateConditions S2N (delete "min_annual_income" conds) client so w).
Proof.
  split; [| repeat split].
  - intros H. rewrite evaluateConditions_run.
    now rewrite (evaluateConditionsBody_pass S2N (now w) conds client so H).
  - intros k v Hkv Hv. rewrite !evaluateConditions_run.
    rewrite <- (evaluateConditionsBody_delete S2N (now w) client conds so k);
      [reflexivity |].
    intros _. apply and_then_falsy. now rewrite (prop_Some conds k v Hkv).
  - intros Hc. rewrite !evaluateConditions_run.
    rewrite <- (evaluateConditionsBody_delete S2N (now w) client _ so "max_credit_score").
    + rewrite <- (evaluateConditionsBody_delete S2N (now w) client conds so
                    "min_credit_score"); [reflexivity |].
      intros _. unfold guard. simpl. rewrite Hc, js_lt_undefined.
      apply and_then_Ok_false.
    + intros _. unfold guard. simpl. rewrite Hc, js_gt_undefined.
      apply and_then_Ok_false.
  - intros Hc. rewrite !evaluateConditions_run.
    rewrite <- (evaluateConditionsBody_delete S2N (now w) client conds so
                  "min_vehicle_value"); [reflexivity |].
    intros _. unfold guard. simpl. rewrite Hc, js_lt_undefined.
    apply and_then_Ok_false.
  - intros Hc. rewrite !evaluateConditions_run.
    rewrite <- (evaluateConditionsBody_delete S2N (now w) client conds so
                  "min_annual_income"); [reflexivity |].
    intros _. unfold guard. simpl. rewrite Hc, js_lt_undefined.
    apply and_then_Ok_false.
Qed.

Lemma falsy_conditions_and_missing_fields_pass_witness :
  (zeroedConditions !! "min_credit_score" = Some (num 0)
   /\ zeroedConditions !! "financing_needed" = Some (JBool false)
   /\ evaluateConditions parseDecimal zeroedConditions raceClient purchaseOrder raceWorld
      = (Ok true, raceWorld))
  /\ (credit_score unscoredClient = JUndefined
      /\ minScore600 !! "min_credit_score" = Some (num 600)
      /\ evaluateConditions parseDecimal minScore600 unscoredClient purchaseOrder raceWorld
         = (Ok true, raceWorld)).
Proof.
  split.
  - split; [vm_compute; reflexivity |]. split; [vm_compute; reflexivity |].
    apply (proj1 (falsy_conditions_and_missing_fields_pass parseDecimal zeroedConditions
                    raceClient purchaseOrder raceWorld)).
    intros k v. unfold zeroedConditions.
    rewrite lookup_insert_Some, lookup_singleton_Some.
    intros [[_ <-] | [_ [_ <-]]]; left; reflexivity.
  - split; [reflexivity |]. split; [vm_compute; reflexivity |].
    apply (proj1 (falsy_conditions_and_missing_fields_pass parseDecimal minScore600
                    unscoredClient purchaseOrder raceWorld)).
    intros k v. unfold minScore600. rewrite lookup_singleton_Some.
    intros [<- _]. right. left. split; [reflexivity | left; reflexivity].
Defined.

(** ** Cascade evaluation *)

(** C4. A rule whose conversion rate is below the activation threshold is
    never triggered: the loop body leaves the world as it was but for one
    debug line - no store query, no draw, no trigger record, whatever the
    rule's conditions - and every trigger record an evaluation creates
    belongs to a scheduled rule that is not below the threshold. *)
Theorem below_threshold_never_triggers (S2N : string -> Num) (this : CascadeEngine)
    (serviceOrderId clientId depth : nat) (w : World) :
  (forall client so rule,
      (conversionRate rule < conversionThreshold this)%Q ->
      processRule S2N this serviceOrderId clientId depth client so rule w
      = (Ok tt, set_log (log w ++ [(LDebug, "Rule conversion rate below threshold")]) w))
  /\ exists tasks,
       timers (snd (triggerCascade S2N this serviceOrderId clientId depth w))
       = timers w ++ tasks
       /\ cascade_triggers (snd (triggerCascade S2N this serviceOrderId clientId depth w))
          = cascade_triggers w ++ List.map task_cascadeTrigger tasks
       /\ Forall (fun k =>
                    t_cascade_id (task_cascadeTrigger k) = id (task_rule k)
                    /\ ~ (conversionRate (task_rule k) < conversionThreshold this)%Q)
                 tasks.
Proof.
  split.
  - intros client so rule Hlt. apply Qltb_lt in Hlt.
    unfold processRule, try_catch. rewrite Hlt. reflexivity.
  - destruct (triggerCascade_extends S2N this clientId serviceOrderId depth w)
      as (_ & _ & tasks & Ht & Hc & Hs).
    exists tasks. repeat split; auto.
    eapply Forall_impl; [exact Hs |].
    intros k (Hge & Hid & _). split; [exact Hid |].
    now apply Qle_not_lt.
Qed.

Lemma below_threshold_never_triggers_witness :
  (conversionRate weakRule < conversionThreshold readyEngine)%Q
  /\ processRule parseDecimal readyEngine 21 1 0 raceClient purchaseOrder weakRule raceWorld
     = (Ok tt, set_log (log raceWorld
                        ++ [(LDebug, "Rule conversion rate below threshold")]) raceWorld).
Proof.
  assert (H : (conversionRate weakRule < conversionThreshold readyEngine)%Q)
    by (vm_compute; reflexivity).
  split; [exact H |].
  exact (proj1 (below_threshold_never_triggers parseDecimal readyEngine 21 1 0 raceWorld)
               raceClient purchaseOrder weakRule H).
Defined.

(** C1 (as stated, refuted). In [raceWorld] the customer completes a vehicle
    purchase and a vehicle finance order; each completion evaluates a seeded
    rule that recommends an inspection, and both evaluations pass the
    duplicate check because no inspection order exists yet.  When the first
    timer has fired the customer holds one inspection order; the second
    timer then creates a second one, and both trigger records are converted. *)
Lemma second_order_for_same_service :
  let engine := engineOf raceWorld in
  let w1 := run parseDecimal engine [Complete 21; Complete 22; Elapse] raceWorld in
  let w2 := step parseDecimal engine Elapse w1 in
  timers raceWorld = [] /\ cascade_triggers raceWorld = []
  /\ ordersFor 1 3 raceWorld = []
  /\ length (ordersFor 1 3 w1) = 1
  /\ length (ordersFor 1 3 w2) = 2
  /\ length (convertedTriggersFor 1 3 w2) = 2.
Proof. vm_compute. repeat split; reflexivity. Qed.

(** C1 (amended). Within one cascade evaluation whose store queries all
    succeed, no trigger record is created and no order creation is scheduled
    for a service the customer already holds an order for when the
    evaluation runs; the evaluation itself creates no order, and the trigger
    records it creates are unconverted. *)
Theorem no_trigger_for_held_service (S2N : string -> Num) (this : CascadeEngine)
    (serviceOrderId clientId depth : nat) (w : World) :
  faults w = [] ->
  service_orders (snd (triggerCascade S2N this serviceOrderId clientId depth w))
  = service_orders w
  /\ exists tasks,
       timers (snd (triggerCascade S2N this serviceOrderId clientId depth w))
       = timers w ++ tasks
       /\ cascade_triggers (snd (triggerCascade S2N this serviceOrderId clientId depth w))
          = cascade_triggers w ++ List.map task_cascadeTrigger tasks
       /\ Forall (fun k =>
                    ordersFor clientId (triggeredServiceId (task_rule k)) w = []
                    /\ t_client_id (task_cascadeTrigger k) = clientId
                    /\ t_cascade_id (task_cascadeTrigger k) = id (task_rule k)
                    /\ t_converted (task_cascadeTrigger k) = false)
                 tasks.
Proof.
  intros Hf.
  destruct (triggerCascade_extends S2N this clientId serviceOrderId depth w)
    as (Ho & _ & tasks & Ht & Hc & Hs).
  split; [exact Ho |]. exists tasks. repeat split; auto.
  eapply Forall_impl; [exact Hs |].
  intros k (_ & Hid & Hcl & Hcv & Hnone). auto.
Qed.

Lemma no_trigger_for_held_service_witness :
  faults heldWorld = []
  /\ ordersFor 1 3 heldWorld <> []
  /\ service_orders (snd (triggerCascade parseDecimal readyEngine 21 1 0 heldWorld))
     = service_orders heldWorld
  /\ exists tasks,
       timers (snd (triggerCascade parseDecimal readyEngine 21 1 0 heldWorld))
       = timers heldWorld ++ tasks
       /\ cascade_triggers (snd (triggerCascade parseDecimal readyEngine 21 1 0 heldWorld))
          = cascade_triggers heldWorld ++ List.map task_cascadeTrigger tasks
       /\ Forall (fun k =>
                    ordersFor 1 (triggeredServiceId (task_rule k)) heldWorld = []
                    /\ t_client_id (task_cascadeTrigger k) = 1
                    /\ t_cascade_id (task_cascadeTrigger k) = id (task_rule k)
                    /\ t_converted (task_cascadeTrigger k) = false)
                 tasks.
Proof.
  split; [reflexivity |]. split; [discriminate |].
  exact (no_trigger_for_held_service parseDecimal readyEngine 21 1 0 heldWorld eq_refl).
Defined.

(** Runs monadic code on a symbolic world up to the next oracle read. *)
Ltac runM :=
  cbv beta iota delta
    [try_catch bind ret throw gets modify logger query random fresh_id
     checkExistingService findOne_service_orders findById_services
     evaluateConditions create_cascade_triggers create_service_orders
     update_cascade_triggers create_client_journey updateClientJourney
     queueNotification sendCascadeNotifications setTimeout fst snd negb];
  cbn [services clients vehicle_rows service_cascades admin_users now currentMonth
       service_orders cascade_triggers client_journey cache_client_profile
       cache_revenue notifications timers log faults draws next_id
       set_service_orders set_cascade_triggers set_client_journey
       set_cache_client_profile set_cache_revenue set_notifications set_timers
       set_log set_faults set_draws set_next_id].

(** C9. When the store lookup of [checkExistingService] is rejected, the
    error is caught and [null] is returned, and the rule goes on exactly as
    for a customer without an order for the service: if it meets the
    threshold, its conditions hold and the draw succeeds, the trigger record
    is created and the order creation is scheduled - whatever orders the
    customer holds. *)
Theorem lookup_failure_lets_rule_trigger (S2N : string -> Num) (this : CascadeEngine)
    (serviceOrderId clientId depth : nat) (client : Client) (so : Order)
    (rule : Rule) (w : World) (fs : list bool) (d : Q) (ds : list Q) :
  faults w = true :: fs ->
  hd false fs = false ->
  (conversionThreshold this <= conversionRate rule)%Q ->
  evaluateConditionsBody S2N (now w) (conditions rule) client so = Ok true ->
  draws w = d :: ds ->
  (d < conversionRate rule)%Q ->
  fst (checkExistingService clientId (triggeredServiceId rule) w) = Ok None
  /\ cascade_triggers
       (snd (processRule S2N this serviceOrderId clientId depth client so rule w))
     = cascade_triggers w ++ [newTrigger (next_id w) clientId serviceOrderId rule]
  /\ timers
       (snd (processRule S2N this serviceOrderId clientId depth client so rule w))
     = timers w
       ++ [ {| task_rule := rule; task_client := client;
               task_cascadeTrigger := newTrigger (next_id w) clientId serviceOrderId rule;
               task_depth := depth |} ].
Proof.
  intros Hf Hfs Hth Hc Hd Hdraw.
  apply Qltb_ge in Hth. apply Qltb_lt in Hdraw.
  split.
  - unfold checkExistingService, try_catch, findOne_service_orders, bind, query.
    rewrite Hf. reflexivity.
  - unfold processRule. rewrite Hth.
    runM. rewrite Hf.
    runM. rewrite Hc.
    runM. rewrite Hd.
    runM. rewrite Hdraw.
    runM. destruct fs as [| [] fs']; [| discriminate |]; runM; split; reflexivity.
Qed.

Lemma lookup_failure_lets_rule_trigger_witness :
  ordersFor 1 3 faultyWorld <> []
  /\ fst (checkExistingService 1 (triggeredServiceId strongRule) faultyWorld) = Ok None
  /\ cascade_triggers
       (snd (processRule parseDecimal readyEngine 21 1 0 raceClient purchaseOrder
                         strongRule faultyWorld))
     = cascade_triggers faultyWorld ++ [newTrigger (next_id faultyWorld) 1 21 strongRule]
  /\ timers
       (snd (processRule parseDecimal readyEngine 21 1 0 raceClient purchaseOrder
                         strongRule faultyWorld))
     = timers faultyWorld
       ++ [ {| task_rule := strongRule; task_client := raceClient;
               task_cascadeTrigger := newTrigger (next_id faultyWorld) 1 21 strongRule;
               task_depth := 0 |} ].
Proof.
  split; [discriminate |].
  apply (lookup_failure_lets_rule_trigger parseDecimal readyEngine 21 1 0 raceClient
           purchaseOrder strongRule faultyWorld [] (1 # 10) []).
  - reflexivity.
  - reflexivity.
  - vm_compute. discriminate.
  - vm_compute. reflexivity.
  - reflexivity.
  - vm_compute. reflexivity.
Defined.

(** ** Materialising a triggered order *)

Lemma keeps_orders_ret {A} (a : A) : keeps_orders (ret a).
Proof. intros w. reflexivity. Qed.

Lemma keeps_orders_bind {A B} (m : M A) (k : A -> M B) :
  keeps_orders m -> (forall a, keeps_orders (k a)) -> keeps_orders (bind m k).
Proof.
  intros Hm Hk w. unfold bind. specialize (Hm w).
  destruct (m w) as [[a | e] w1]; simpl in *; [| exact Hm].
  now rewrite Hk.
Qed.

Lemma keeps_orders_try_catch {A} (m : M A) (h : Exn -> M A) :
  keeps_orders m -> (forall e, keeps_orders (h e)) -> keeps_orders (try_catch m h).
Proof.
  intros Hm Hh w. unfold try_catch. specialize (Hm w).
  destruct (m w) as [[a | e] w1]; simpl in *; [exact Hm |].
  now rewrite Hh.
Qed.

Lemma keeps_orders_logger (l : Level) (s : string) : keeps_orders (logger l s).
Proof. intros w. reflexivity. Qed.

Lemma keeps_orders_query : keeps_orders query.
Proof. intros w. unfold query. now destruct (faults w) as [| [] fs]. Qed.

Lemma keeps_orders_update (i : nat) (f : Trigger -> Trigger) :
  keeps_orders (update_cascade_triggers i f).
Proof.
  apply keeps_orders_bind; [apply keeps_orders_query |].
  intros _ w. reflexivity.
Qed.

Lemma keeps_orders_forEach {A} (f : A -> M unit) (l : list A) :
  (forall x, keeps_orders (f x)) -> keeps_orders (forEach f l).
Proof.
  intros Hf. induction l as [| x l IH]; simpl.
  - apply keeps_orders_ret.
  - apply keeps_orders_bind; auto.
Qed.

Lemma keeps_orders_journey (c : nat) (a s : string) (r : Q) :
  keeps_orders (updateClientJourney c a s r).
Proof.
  apply keeps_orders_try_catch; [| intros; apply keeps_orders_logger].
  apply keeps_orders_bind; [apply keeps_orders_query |].
  intros _ w. reflexivity.
Qed.

Lemma keeps_orders_notifications (client : Client) (service : Service) (o : Order) :
  keeps_orders (sendCascadeNotifications client service o).
Proof.
  apply keeps_orders_try_catch; [| intros; apply keeps_orders_logger].
  apply keeps_orders_bind; [intros w; reflexivity | intros _].
  apply keeps_orders_bind; [apply keeps_orders_query | intros _].
  apply keeps_orders_bind; [intros w; reflexivity | intros admins].
  apply keeps_orders_forEach. intros x w. reflexivity.
Qed.

Lemma findById_services_spec (i : nat) (w : World) :
  service_orders (snd (findById_services i w)) = service_orders w
  /\ forall x, fst (findById_services i w) = Ok x ->
               x = List.find (fun s => Nat.eqb (s_id s) i) (services w).
Proof.
  unfold findById_services, bind, query, gets.
  destruct (faults w) as [| [] fs]; simpl; split; auto; try discriminate;
    now intros x [= <-].
Qed.

Lemma create_service_orders_spec (mk : nat -> Order) (w : World) :
  (exists i, fst (create_service_orders mk w) = Ok (stored (mk i))
             /\ service_orders (snd (create_service_orders mk w))
                = service_orders w ++ [stored (mk i)])
  \/ (exists e, fst (create_service_orders mk w) = Throw e
                /\ service_orders (snd (create_service_orders mk w)) = service_orders w).
Proof.
  unfold create_service_orders, bind, query, fresh_id, modify, ret.
  destruct (faults w) as [| [] fs]; simpl; eauto.
Qed.

(** An evaluation at or beyond the depth limit touches neither orders nor
    trigger records nor timers. *)
Lemma triggerCascade_depth_limit (S2N : string -> Num) (this : CascadeEngine)
    (serviceOrderId clientId depth : nat) (w : World) :
  maxCascadeDepth <= depth ->
  service_orders (snd (triggerCascade S2N this serviceOrderId clientId depth w))
  = service_orders w
  /\ cascade_triggers (snd (triggerCascade S2N this serviceOrderId clientId depth w))
     = cascade_triggers w
  /\ timers (snd (triggerCascade S2N this serviceOrderId clientId depth w)) = timers w.
Proof.
  intros Hd. apply Nat.leb_le in Hd.
  unfold triggerCascade, try_catch. rewrite Hd.
  destruct (negb (isInitialized this)); repeat split; reflexivity.
Qed.

(** The order a timer callback inserts stores the depth of its evaluation
    plus one. *)
Lemma triggeredOrder_depth (S2N : string -> Num) (rule : Rule) (client : Client)
    (trigger : Trigger) (d : nat) (service : Service) (i : nat) :
  option_map depth (o_service_data (triggeredOrder S2N rule client trigger d service i))
  = Some (d + 1).
Proof. reflexivity. Qed.

(** C5 (the code at the failing input).  Within one evaluation the limit
    works, see [triggerCascade_depth_limit] and [triggeredOrder_depth], but
    the stored depth is never read back.  In [chainWorld] service S0 recommends
    S1, S1 recommends S2, and so on to S4.  The organic order 21 is completed,
    then each cascade-created order in turn.  The completion hook starts every
    evaluation at depth 0, so the chain is never cut: order 107 for S4 is
    created four hops away from the organic order, by the evaluation of an
    order that is itself three hops away, and like every cascade-created
    order it stores depth 1. *)
Lemma depth_not_carried_by_completion_hook :
  let engine := engineOf chainWorld in
  let w := run parseDecimal engine
               [Complete 21; Elapse; Complete 101; Elapse;
                Complete 103; Elapse; Complete 105; Elapse] chainWorld in
  List.map (fun o => (o_id o, o_service_id o, hops 10 w (o_id o),
                      option_map depth (o_service_data o)))
           (service_orders w)
  = [ (21, 1, 0, None); (101, 2, 1, Some 1); (103, 3, 2, Some 1);
      (105, 4, 3, Some 1); (107, 5, 4, Some 1) ]
  /\ maxCascadeDepth <= hops 10 w 105
  /\ option_map t_entry_order_id
       (List.find (fun t => Nat.eqb (t_id t) 106) (cascade_triggers w)) = Some 105.
Proof. vm_compute. repeat split; reflexivity. Qed.


(** When the lookup of the service and the insert of the order are not
    rejected, the timer callback inserts the order, whatever happens to the
    queries after them. *)
Lemma createTriggeredService_inserts (S2N : string -> Num) (rule : Rule)
    (client : Client) (trigger : Trigger) (depth : nat) (w : World)
    (service : Service) :
  hd false (faults w) = false ->
  hd false (tl (faults w)) = false ->
  List.find (fun s => Nat.eqb (s_id s) (triggeredServiceId rule)) (services w)
  = Some service ->
  service_orders (snd (createTriggeredService S2N rule client trigger depth w))
  = service_orders w
    ++ [triggeredOrder S2N rule client trigger depth service (next_id w)].
Proof.
  intros Hf1 Hf2 Hs.
  unfold createTriggeredService, try_catch.
  unfold bind at 1. unfold findById_services, bind at 1.
  rewrite (query_accepted w Hf1). unfold gets. cbn [services set_faults].
  rewrite Hs. unfold bind at 1. unfold create_service_orders, bind at 1.
  rewrite query_accepted by exact Hf2.
  unfold bind at 1, fresh_id, bind at 1, modify, ret.
  cbn [next_id service_orders set_faults set_next_id set_service_orders].
  match goal with
  | |- context [match ?m ?w2 with _ => _ end] =>
      assert (Hk : keeps_orders m);
        [| specialize (Hk w2); destruct (m w2) as [[[] | e] w3];
           cbn [fst snd] in Hk |- * ]
  end.
  - apply keeps_orders_bind; [apply keeps_orders_update | intros _].
    apply keeps_orders_bind; [apply keeps_orders_journey | intros _].
    apply keeps_orders_bind; [apply keeps_orders_notifications | intros _].
    apply keeps_orders_logger.
  - rewrite Hk. reflexivity.
  - rewrite keeps_orders_bind; [rewrite Hk; reflexivity | apply keeps_orders_logger |].
    intros _. apply keeps_orders_update.
Qed.

Lemma decimal2_compat (x y : Q) : (x == y)%Q -> decimal2 x = decimal2 y.
Proof.
  intros H. unfold decimal2.
  assert (Hb : Qle_bool 0 x = Qle_bool 0 y).
  { destruct (Qle_bool 0 x) eqn:Ex, (Qle_bool 0 y) eqn:Ey; try reflexivity.
    - apply Qle_bool_iff in Ex. rewrite H in Ex. apply Qle_bool_iff in Ex. congruence.
    - apply Qle_bool_iff in Ey. rewrite <- H in Ey. apply Qle_bool_iff in Ey. congruence. }
  rewrite Hb. destruct (Qle_bool 0 y).
  - f_equal. f_equal. apply Qfloor_comp. now rewrite H.
  - f_equal. f_equal. f_equal. apply Qfloor_comp. now rewrite H.
Qed.

(** The largest rate is at least every rate that applies, and it is one of
    them unless none applies. *)
Lemma largestDiscountRate_largest (score spent : Q) (orders : Z) :
  (forall r, In r (applicableRates score spent orders) ->
             (r <= largestDiscountRate score spent orders)%Q)
  /\ (In (largestDiscountRate score spent orders) (applicableRates score spent orders)
      \/ (applicableRates score spent orders = []
          /\ largestDiscountRate score spent orders = 0%Q)).
Proof.
  unfold largestDiscountRate.
  assert (Hpos : Forall (fun r => (0 < r)%Q) (applicableRates score spent orders)).
  { unfold applicableRates.
    destruct (Qlt_le_dec 50000 spent), (Qlt_le_dec 750 score),
             (Z.eq_dec orders 0%Z), (Z_lt_dec 5%Z orders);
      cbn [app]; repeat constructor. }
  induction Hpos as [| r l Hr Hl IH]; cbn [fold_right].
  - split; [intros r [] | right; split; reflexivity].
  - destruct IH as [IH1 IH2].
    set (m := fold_right (fun r m => if Qlt_le_dec m r then r else m) 0%Q l) in *.
    destruct (Qlt_le_dec m r) as [Hlt | Hle].
    + split; [| left; now left].
      intros r' [<- | Hr']; [lra |]. specialize (IH1 r' Hr'). lra.
    + split.
      * intros r' [<- | Hr']; [exact Hle | now apply IH1].
      * destruct IH2 as [Hin | [_ Hm]]; [left; now right |].
        rewrite Hm in Hle. lra.
Qed.

Lemma largestDiscountRate_bounds (score spent : Q) (orders : Z) :
  (0 <= largestDiscountRate score spent orders
   /\ largestDiscountRate score spent orders <= 15 # 100)%Q.
Proof.
  destruct (largestDiscountRate_largest score spent orders) as [_ [Hin | [_ ->]]];
    [| split; discriminate].
  revert Hin. generalize (largestDiscountRate score spent orders). intros rate.
  unfold applicableRates.
  destruct (Qlt_le_dec 50000 spent), (Qlt_le_dec 750 score),
           (Z.eq_dec orders 0%Z), (Z_lt_dec 5%Z orders);
    cbn [app In]; intros Hin;
    repeat (destruct Hin as [<- | Hin]; [split; discriminate |]);
    destruct Hin.
Qed.

(** A non-negative amount is stored like [Math.round] rounds it. *)
Lemma decimal2_nonneg (x : Q) : (0 <= x)%Q -> decimal2 x = round2 x.
Proof.
  intros H. unfold decimal2, round2. apply Qle_bool_iff in H. now rewrite H.
Qed.

(** The sequence of [Math.max] updates of [calculateDynamicPricing] leaves the
    largest of the discounts that apply, and the floor of half the base price
    is never reached. *)
Lemma calculateDynamicPricing_largest (S2N : string -> Num)
    (service : Service) (client : Client) (score : Q) :
  (0 <= s_base_price service)%Q ->
  credit_score client = num score ->
  (dp_discountAmount (calculateDynamicPricing S2N service client)
   == s_base_price service
      * largestDiscountRate score (totalSpent client) (totalOrders client))%Q
  /\ (dp_finalPrice (calculateDynamicPricing S2N service client)
      == s_base_price service
         * (1 - largestDiscountRate score (totalSpent client) (totalOrders client)))%Q.
Proof.
  intros Hb Hc. unfold calculateDynamicPricing, largestDiscountRate, applicableRates.
  cbn [dp_discountAmount dp_finalPrice]. rewrite Hc.
  set (b := s_base_price service) in *.
  assert (Hgt : js_gt S2N (num score) (num 750) = true <-> (750 < score)%Q).
  { unfold js_gt, js_compare, num. cbn. rewrite Qgt_alt.
    destruct (score ?= 750)%Q; split; congruence. }
  destruct (Qltb 50000 (totalSpent client)) eqn:E1;
    [apply Qltb_lt in E1 | apply Qltb_ge in E1];
    (destruct (Qlt_le_dec 50000 (totalSpent client)); [| try (exfalso; lra)];
     try (exfalso; lra));
  (destruct (js_gt S2N (num score) (num 750));
    [assert (E2 : (750 < score)%Q) by (now apply Hgt)
    | assert (E2 : (score <= 750)%Q)
        by (apply Qnot_lt_le; intros H; apply Hgt in H; discriminate)]);
  (destruct (Qlt_le_dec 750 score); try (exfalso; lra));
  (destruct (Z.eqb_spec (totalOrders client) 0) as [E3 | E3];
    destruct (Z.eq_dec (totalOrders client) 0%Z); try contradiction);
  (destruct (Z.ltb_spec 5 (totalOrders client)) as [E4 | E4];
    destruct (Z_lt_dec 5%Z (totalOrders client)); try lia);
  cbn [app fold_right];
  repeat match goal with
         | |- context [Qmax ?u ?v] =>
             lazymatch u with
             | context [Qmax] => fail
             | _ => destruct (Qmax_cases u v) as [[? ->] | [? ->]]
             end
         | |- context [Qlt_le_dec ?u ?v] =>
             lazymatch u with
             | context [Qlt_le_dec] => fail
             | _ => destruct (Qlt_le_dec u v)
             end
         end;
  split; lra.
Qed.



(** ** Pricing *)

Ltac runP H :=
  cbv beta iota delta
    [try_catch bind ret throw gets modify logger query findById_services
     ro_getClientProfile handleRevenueError fst snd negb] in H;
  cbn [services clients vehicle_rows service_cascades admin_users now currentMonth
       service_orders cascade_triggers client_journey cache_client_profile
       cache_revenue notifications timers log faults draws next_id
       set_service_orders set_cascade_triggers set_client_journey
       set_cache_client_profile set_cache_revenue set_notifications set_timers
       set_log set_faults set_draws set_next_id] in H.

(** Case analysis on an innermost scrutinee of [H]. *)
Ltac caseP H :=
  match type of H with
  | context [match ?x with _ => _ end] =>
      lazymatch x with
      | context [match _ with _ => _ end] => fail
      | _ => destruct x eqn:?
      end
  end.

(** What [calculateOptimalPrice] returns, when it returns, is the pricing of
    a stored service for some profile of the customer. *)
Lemma calculateOptimalPrice_returns (S2N : string -> Num) (this : RevenueOptimizer)
    (serviceId clientId : nat) (options : Options) (w w' : World) (p : Pricing) :
  calculateOptimalPrice S2N this serviceId clientId options w = (Ok p, w') ->
  ro_isInitialized this = true
  /\ exists service client,
       List.find (fun s => Nat.eqb (s_id s) serviceId) (services w) = Some service
       /\ p = computePricing S2N this (currentMonth w) service client options.
Proof.
  intros H. unfold calculateOptimalPrice in H.
  destruct (ro_isInitialized this); runP H; [| discriminate].
  split; [reflexivity |].
  repeat (caseP H; runP H; try discriminate).
  all: injection H as <- _; eauto.
Qed.

(** Whatever [calculateOptimalPrice] throws is the 503 error of
    [handleRevenueError]. *)
Lemma calculateOptimalPrice_throws (S2N : string -> Num) (this : RevenueOptimizer)
    (serviceId clientId : nat) (options : Options) (w : World) (e : Exn) :
  fst (calculateOptimalPrice S2N this serviceId clientId options w) = Throw e ->
  e = AppError503.
Proof.
  unfold calculateOptimalPrice, try_catch.
  match goal with
  | |- context [match ?m w with _ => _ end] => destruct (m w) as [[q | e'] w1]
  end; cbn; [discriminate | now intros [= <-]].
Qed.

Lemma calculateOptimalPrice_unknown (S2N : string -> Num) (this : RevenueOptimizer)
    (serviceId clientId : nat) (options : Options) (w : World) :
  ro_isInitialized this = false
  \/ List.find (fun s => Nat.eqb (s_id s) serviceId) (services w) = None
  \/ pricingProfile clientId w = None ->
  fst (calculateOptimalPrice S2N this serviceId clientId options w) = Throw AppError503.
Proof.
  intros Hcase.
  destruct (calculateOptimalPrice S2N this serviceId clientId options w)
    as [[p | e] w'] eqn:H; cbn [fst].
  - exfalso. pose proof H as H0.
    apply calculateOptimalPrice_returns in H0 as (Hi & service & client & Hs & _).
    destruct Hcase as [Hc | [Hc | Hc]]; [congruence | congruence |].
    unfold pricingProfile in Hc.
    unfold calculateOptimalPrice in H. rewrite Hi in H. runP H.
    destruct (cache_revenue w !! clientId) eqn:Hcache; [discriminate |].
    destruct (List.find (fun c => Nat.eqb (c_id c) clientId) (clients w)) eqn:Hrow;
      [discriminate |].
    repeat (caseP H; runP H; try discriminate; try congruence).
  - f_equal. eapply calculateOptimalPrice_throws. rewrite H. reflexivity.
Qed.

Lemma calculateOptimalPrice_known (S2N : string -> Num) (this : RevenueOptimizer)
    (serviceId clientId : nat) (options : Options) (w : World)
    (service : Service) (client : PricingClient) :
  ro_isInitialized this = true ->
  faults w = [] ->
  List.find (fun s => Nat.eqb (s_id s) serviceId) (services w) = Some service ->
  pricingProfile clientId w = Some client ->
  fst (calculateOptimalPrice S2N this serviceId clientId options w)
  = Ok (computePricing S2N this (currentMonth w) service client options).
Proof.
  intros Hi Hf Hs Hp. unfold pricingProfile in Hp.
  destruct (calculateOptimalPrice S2N this serviceId clientId options w)
    as [r w'] eqn:H; cbn [fst].
  unfold calculateOptimalPrice in H. rewrite Hi in H. runP H.
  rewrite Hf in H. runP H. rewrite Hs in H. runP H.
  destruct (cache_revenue w !! clientId) eqn:Hcache; runP H.
  - injection Hp as ->. now injection H as <- _.
  - rewrite Hf in H. runP H.
    destruct (List.find (fun c => Nat.eqb (c_id c) clientId) (clients w)) eqn:Hrow;
      [| discriminate].
    runP H. injection Hp as <-. now injection H as <- _.
Qed.

(** *** Prices that are numbers *)

Lemma existsb_eqb_In (k : string) (keys : list string) :
  existsb (String.eqb k) keys = true <-> In k keys.
Proof.
  rewrite existsb_exists. split.
  - intros (x & Hin & Heq). apply String.eqb_eq in Heq. now subst.
  - intros Hin. exists k. split; [exact Hin | apply String.eqb_refl].
Qed.

(** An own property, or a name that [Object.prototype] does not define,
    gives a number. *)
Lemma property_or_one_number (obj : gmap string Q) (key : string) :
  ~ In key objectPrototypeKeys -> exists q, property_or_one obj key = Fin q.
Proof.
  intros Hk. unfold property_or_one.
  destruct (obj !! key) as [q |].
  - destruct (Qeq_bool q 0); eauto.
  - destruct (existsb (String.eqb key) objectPrototypeKeys) eqn:E; [| eauto].
    apply existsb_eqb_In in E. contradiction.
Qed.

Lemma fold_Nmul_Fin (l : list Q) (x : Q) :
  fold_left (fun p f => Nmul p (af_factor f))
            (List.map (fun q => {| af_type := ""; af_factor := Fin q |}) l) (Fin x)
  = Fin (fold_left Qmult l x).
Proof.
  revert x. induction l as [| q l IH]; intros x; cbn; [reflexivity | apply IH].
Qed.

Lemma fold_Nmul_ext (l l' : list AdjustmentFactor) (x : Num) :
  List.map af_factor l = List.map af_factor l' ->
  fold_left (fun p f => Nmul p (af_factor f)) l x
  = fold_left (fun p f => Nmul p (af_factor f)) l' x.
Proof.
  revert l' x. induction l as [| f l IH]; intros [| f' l'] x H; try discriminate;
    [reflexivity |].
  cbn in *. injection H as Hf Hl. rewrite Hf. now apply IH.
Qed.

Lemma fold_Nmul_NaN (l : list AdjustmentFactor) :
  fold_left (fun p f => Nmul p (af_factor f)) l NaN = NaN.
Proof. induction l as [| f l IH]; cbn; [reflexivity | exact IH]. Qed.

(** The product of the factors is a number unless the urgency is a name
    inherited from [Object.prototype]. *)
Lemma factors_product_number (S2N : string -> Num) (this : RevenueOptimizer)
    (month : nat) (service : Service) (client : PricingClient) (options : Options)
    (b : Q) :
  (forall u, urgency options = Some u -> ~ In u objectPrototypeKeys) ->
  exists x,
    fold_left (fun p f => Nmul p (af_factor f))
              (if dynamicPricingEnabled this
               then dynamicFactors S2N this month service client options
               else []) (Fin b)
    = Fin x.
Proof.
  intros Hu.
  destruct (dynamicPricingEnabled this); [| now exists b].
  assert (Hl : exists l, List.map af_factor
                           (dynamicFactors S2N this month service client options)
                         = List.map Fin l).
  { unfold dynamicFactors. rewrite !map_app.
    assert (H1 : exists l1,
               List.map af_factor
                 match urgency options with
                 | Some u =>
                     if String.eqb u "" then []
                     else [ {| af_type := "urgency";
                               af_factor := property_or_one
                                              (urgencyPremiums (pricingRules this)) u |} ]
                 | None => []
                 end = List.map Fin l1).
    { destruct (urgency options) as [u |] eqn:Eu; [| now exists []].
      destruct (String.eqb u ""); [now exists [] |].
      destruct (property_or_one_number (urgencyPremiums (pricingRules this)) u
                  (Hu u eq_refl)) as (q & Hq).
      exists [q]. cbn. now rewrite Hq. }
    destruct H1 as (l1 & ->).
    destruct (truthy (bundleSize options) && js_gt S2N (bundleSize options) (num 1)).
    - eexists ([_; _; _; _; _] ++ l1 ++ [_]). rewrite !map_app. reflexivity.
    - eexists ([_; _; _; _; _] ++ l1 ++ []). rewrite !map_app. reflexivity. }
  destruct Hl as (l & Hl).
  exists (fold_left Qmult l b). rewrite <- fold_Nmul_Fin.
  apply fold_Nmul_ext. rewrite Hl, List.map_map. reflexivity.
Qed.

(** The numeric fields of a pricing whose urgency is not an inherited name:
    [c] is the price after the clamp, before the rounding to cents. *)
Lemma computePricing_number (S2N : string -> Num) (this : RevenueOptimizer)
    (month : nat) (service : Service) (client : PricingClient) (options : Options) :
  (forall u, urgency options = Some u -> ~ In u objectPrototypeKeys) ->
  exists x,
    let b := s_base_price service in
    let c := Qmin (Qmax x (b * (1 - priceAdjustmentCap)))
                  (b * (1 + priceAdjustmentCap)) in
    let p := computePricing S2N this month service client options in
    finalPrice p = Fin (round2 c)
    /\ discountAmount p = Fin (Qmax 0 (b - c))
    /\ premiumAmount p = Fin (Qmax 0 (c - b))
    /\ profitMargin p = Nquot (Nsub (Fin c) (estimatedCost p)) (Fin c)
    /\ (dynamicPricingEnabled this = false -> x = b).
Proof.
  intros Hu.
  destruct (factors_product_number S2N this month service client options
              (s_base_price service) Hu) as (x & Hx).
  exists x. cbn zeta. unfold computePricing.
  cbn [finalPrice discountAmount premiumAmount profitMargin estimatedCost].
  rewrite Hx. cbn [Nmax Nmin Nsub Nround2]. repeat split.
  intros Hd. rewrite Hd in Hx. cbn in Hx. now injection Hx.
Qed.

(** C2 (as stated, refuted). A service priced 99.99, an emergency request and
    a customer with credit score 400: the product of the factors exceeds the
    cap, the price is clamped to 99.99 x 1.3 = 129.987, and rounding to cents
    returns 129.99, above the upper bound. *)
Lemma rounding_leaves_the_cap :
  match fst (calculateOptimalPrice parseDecimal defaultOptimizer 1 1 emergency
                                   pricingWorld) with
  | Ok p =>
      (basePrice p == 9999 # 100)%Q
      /\ exists f, finalPrice p = Fin f
           /\ (f == 12999 # 100)%Q
           /\ ~ (f <= basePrice p * (1 + priceAdjustmentCap))%Q
  | Throw _ => False
  end.
Proof.
  vm_compute. split; [reflexivity |]. eexists. split; [reflexivity |].
  split; [reflexivity |]. intros H. now apply H.
Qed.

(** C2 (amended). For every service with a non-negative base price, every
    customer and every option combination whose urgency is not a property
    name inherited from [Object.prototype], the price [calculateOptimalPrice]
    returns is a number within one cent of the capped interval:
    basePrice x 0.7 - 0.01 < finalPrice < basePrice x 1.3 + 0.01.  The clamp
    keeps the price inside the interval, and the final rounding to cents
    moves it by half a cent at most; the margin of a cent also covers the
    side on which a double computation resolves a tie.  An inherited name as
    urgency ([toString], [constructor], ...) that the table of premiums
    does not define makes the price [NaN] when dynamic pricing is on. *)
Theorem final_price_within_cap (S2N : string -> Num) (this : RevenueOptimizer)
    (serviceId clientId : nat) (options : Options) (w w' : World) (p : Pricing) :
  calculateOptimalPrice S2N this serviceId clientId options w = (Ok p, w') ->
  (0 <= basePrice p)%Q ->
  ((forall u, urgency options = Some u -> ~ In u objectPrototypeKeys) ->
   exists f, finalPrice p = Fin f
     /\ (basePrice p * (1 - priceAdjustmentCap) - (1 # 100) < f)%Q
     /\ (f < basePrice p * (1 + priceAdjustmentCap) + (1 # 100))%Q)
  /\ (forall u, urgency options = Some u -> In u objectPrototypeKeys ->
      urgencyPremiums (pricingRules this) !! u = None ->
      dynamicPricingEnabled this = true ->
      finalPrice p = NaN).
Proof.
  intros H Hb.
  apply calculateOptimalPrice_returns in H as (_ & service & client & _ & ->).
  split.
  - intros Hu.
    destruct (computePricing_number S2N this (currentMonth w) service client options Hu)
      as (x & Hf & _).
    cbn zeta in Hf. rewrite Hf. eexists. split; [reflexivity |].
    change (basePrice (computePricing S2N this (currentMonth w) service client options))
      with (s_base_price service) in *.
    pose proof (clamp_bounds (s_base_price service) x Hb) as [Hlo Hhi].
    pose proof (round2_bounds
                  (Qmin (Qmax x (s_base_price service * (1 - priceAdjustmentCap)))
                        (s_base_price service * (1 + priceAdjustmentCap))))
      as [Hrl Hrh].
    cbn zeta in Hlo, Hhi. split; lra.
  - intros u Hu Hin Hnone Hd.
    unfold computePricing. cbn [finalPrice]. rewrite Hd.
    unfold dynamicFactors. rewrite Hu, !fold_left_app.
    assert (Hne : String.eqb u "" = false).
    { apply String.eqb_neq. intros ->. cbn in Hin.
      repeat (destruct Hin as [Hin | Hin]; [discriminate |]). exact Hin. }
    rewrite Hne. unfold property_or_one at 1. rewrite Hnone.
    apply existsb_eqb_In in Hin. rewrite Hin.
    set (x := fold_left _ [_; _; _; _; _] _).
    cbn [fold_left af_factor]. destruct x; cbn [Nmul]; rewrite fold_Nmul_NaN;
      reflexivity.
Qed.

Lemma final_price_within_cap_witness :
  calculateOptimalPrice parseDecimal defaultOptimizer 1 1 emergency pricingWorld
  = (Ok emergencyPricing,
     snd (calculateOptimalPrice parseDecimal defaultOptimizer 1 1 emergency pricingWorld))
  /\ (0 <= basePrice emergencyPricing)%Q
  /\ exists f, finalPrice emergencyPricing = Fin f
       /\ (basePrice emergencyPricing * (1 - priceAdjustmentCap) - (1 # 100) < f)%Q
       /\ (f < basePrice emergencyPricing * (1 + priceAdjustmentCap) + (1 # 100))%Q.
Proof.
  assert (H : calculateOptimalPrice parseDecimal defaultOptimizer 1 1 emergency pricingWorld
              = (Ok emergencyPricing,
                 snd (calculateOptimalPrice parseDecimal defaultOptimizer 1 1 emergency
                                            pricingWorld)))
    by (vm_compute; reflexivity).
  assert (Hb : (0 <= basePrice emergencyPricing)%Q) by (vm_compute; discriminate).
  split; [exact H |]. split; [exact Hb |].
  apply (proj1 (final_price_within_cap parseDecimal defaultOptimizer 1 1 emergency
                  pricingWorld _ emergencyPricing H Hb)).
  intros u [= <-] Hin. cbn in Hin.
  repeat (destruct Hin as [Hin | Hin]; [discriminate |]). exact Hin.
Defined.




(** * Further properties of the engine *)

(** ** The rule index *)


Lemma cascade_before_total (a b : CascadeRow) :
  cascade_before a b = false -> cascade_before b a = true.
Proof.
  unfold cascade_before. intros H.
  apply orb_false_iff in H as [H1 H2].
  apply Z.ltb_ge in H1.
  destruct (Z.eqb_spec (sc_priority a) (sc_priority b)) as [E | E].
  - simpl in H2. rewrite E, Z.eqb_refl, Z.ltb_irrefl. simpl.
    apply Qle_bool_iff. apply Qlt_le_weak, Qnot_le_lt.
    intros Hle. apply Qle_bool_iff in Hle. congruence.
  - assert (Hlt : (sc_priority b < sc_priority a)%Z) by lia.
    apply Z.ltb_lt in Hlt. now rewrite Hlt.
Qed.

Lemma cascade_before_trans (a b c : CascadeRow) :
  cascade_before a b = true -> cascade_before b c = true -> cascade_before a c = true.
Proof.
  unfold cascade_before. intros H1 H2.
  apply orb_true_iff in H1. apply orb_true_iff in H2. apply orb_true_iff.
  destruct H1 as [H1 | H1], H2 as [H2 | H2];
    repeat match goal with
           | H : Z.ltb _ _ = true |- _ => apply Z.ltb_lt in H
           | H : _ && _ = true |- _ => apply andb_true_iff in H as [? ?]
           | H : Z.eqb _ _ = true |- _ => apply Z.eqb_eq in H
           | H : Qle_bool _ _ = true |- _ => apply Qle_bool_iff in H
           end.
  - left. apply Z.ltb_lt. lia.
  - left. apply Z.ltb_lt. lia.
  - left. apply Z.ltb_lt. lia.
  - right. apply andb_true_iff. split; [apply Z.eqb_eq; lia |].
    apply Qle_bool_iff. eapply Qle_trans; eassumption.
Qed.

Lemma insert_sorted_sorted (x : CascadeRow) (l : list CascadeRow) :
  StronglySorted (fun a b => cascade_before a b = true) l ->
  StronglySorted (fun a b => cascade_before a b = true)
                 (insert_sorted cascade_before x l).
Proof.
  induction 1 as [| y l Hl IH Hy]; simpl.
  - constructor; constructor.
  - destruct (cascade_before x y) eqn:E.
    + constructor; [now constructor |].
      constructor; [exact E |].
      eapply Forall_impl; [exact Hy |]. intros z Hz.
      eapply cascade_before_trans; eassumption.
    + constructor; [exact IH |].
      apply Forall_forall. intros z Hz.
      apply list_elem_of_In, insert_sorted_In in Hz as [-> | Hz].
      * now apply cascade_before_total.
      * rewrite Forall_forall in Hy. apply Hy. now apply list_elem_of_In.
Qed.

Lemma order_by_sorted (l : list CascadeRow) :
  StronglySorted (fun a b => cascade_before a b = true) (order_by cascade_before l).
Proof.
  unfold order_by. induction l as [| x l IH]; simpl.
  - constructor.
  - now apply insert_sorted_sorted.
Qed.

Lemma omap_joinRule_sorted (svcs : list Service) (rows : list CascadeRow) :
  StronglySorted (fun a b => cascade_before a b = true) rows ->
  StronglySorted (fun a b => rule_before a b = true) (omap (joinRule svcs) rows).
Proof.
  induction 1 as [| row rows Hs IH Hrow]; simpl; [constructor |].
  destruct (joinRule svcs row) as [r |] eqn:Er; [| exact IH].
  constructor; [exact IH |].
  apply Forall_forall. intros r' Hr'.
  apply list_elem_of_In, In_omap in Hr' as (row' & Hin & Er').
  rewrite Forall_forall in Hrow. specialize (Hrow row' ltac:(now apply list_elem_of_In)).
  apply joinRule_fields in Er as (_ & _ & _ & Hc & Hp).
  apply joinRule_fields in Er' as (_ & _ & _ & Hc' & Hp').
  unfold rule_before, cascade_before in *. now rewrite Hc, Hp, Hc', Hp'.
Qed.

Lemma filter_sorted {A} (R : A -> A -> Prop) (f : A -> bool) (l : list A) :
  StronglySorted R l -> StronglySorted R (List.filter f l).
Proof.
  induction 1 as [| x l Hs IH Hx]; simpl; [constructor |].
  destruct (f x); [| exact IH].
  constructor; [exact IH |].
  apply Forall_forall. intros y Hy. apply list_elem_of_In, filter_In in Hy as [Hy _].
  rewrite Forall_forall in Hx. apply Hx. now apply list_elem_of_In.
Qed.

(** X2. After a successful load, the rules the index holds for a service are
    ordered by priority ascending and, within a priority, by conversion rate
    descending; each comes from an active row of [service_cascades] whose
    entry service is that service; and every active row whose two services
    exist is in the index under its entry service. *)
Theorem loaded_rules_active_and_ordered (this e : CascadeEngine) (w w' : World) :
  loadCascadeRules this w = (Ok (e, Ok tt), w') ->
  (forall k rs,
      cascadeRules e !! k = Some rs ->
      StronglySorted (fun a b => rule_before a b = true) rs
      /\ Forall (fun r =>
                   entryServiceId r = k
                   /\ exists row, In row (service_cascades w)
                                  /\ sc_is_active row = true
                                  /\ joinRule (services w) row = Some r) rs)
  /\ (forall row,
        In row (service_cascades w) -> sc_is_active row = true ->
        is_Some (joinRow (services w) row) ->
        exists r rs, joinRule (services w) row = Some r
                     /\ cascadeRules e !! sc_entry_service_id row = Some rs
                     /\ In r rs).
Proof.
  intros H. apply loadCascadeRules_returns in H as [Hp ->].
  cbn [cascadeRules withRules].
  split.
  - intros k rs Hk. rewrite groupRules_entry in Hk.
    assert (Hrs : rs = List.filter (fun r => Nat.eqb (entryServiceId r) k) (activeRules w)).
    { destruct (List.filter _ (activeRules w)); [discriminate | now injection Hk]. }
    clear Hk. subst rs. split.
    + apply filter_sorted. unfold activeRules.
      apply omap_joinRule_sorted, order_by_sorted.
    + apply Forall_forall. intros r Hr.
      apply list_elem_of_In, filter_In in Hr as [Hr Hk].
      apply Nat.eqb_eq in Hk. split; [exact Hk |].
      unfold activeRules in Hr. apply In_omap in Hr as (row & Hrow & Hj).
      apply order_by_In, filter_In in Hrow as [Hrow Hact]. eauto.
  - intros row Hrow Hact [jr Hjr].
    assert (Hin : In jr (activeRows w)).
    { unfold activeRows. apply In_omap. exists row. split; [| exact Hjr].
      apply order_by_In, filter_In. auto. }
    rewrite forallb_forall in Hp. specialize (Hp jr Hin).
    assert (Hr : exists r, joinRule (services w) row = Some r).
    { unfold joinRule. rewrite Hjr. unfold parses in Hp.
      destruct (ruleOf jr); [eauto | discriminate]. }
    destruct Hr as (r & Hr).
    destruct (loaded_row_in_index w row r Hrow Hact Hr) as (rs & Hrs & Hinr).
    eauto.
Qed.

Lemma loaded_rules_active_and_ordered_witness :
  exists e w' rs,
    loadCascadeRules newEngine rankedWorld = (Ok (e, Ok tt), w')
    /\ cascadeRules e !! 1%nat = Some rs
    /\ List.map id rs = [13; 12; 11]%nat
    /\ List.map priority rs = [1; 1; 2]%Z
    /\ StronglySorted (fun a b => rule_before a b = true) rs.
Proof.
  destruct (loadCascadeRules newEngine rankedWorld) as [[[e [[] | err]] | x] w'] eqn:H;
    try (exfalso; revert H; vm_compute; discriminate).
  assert (Hrs : exists rs, cascadeRules e !! 1%nat = Some rs
                           /\ List.map id rs = [13; 12; 11]%nat
                           /\ List.map priority rs = [1; 1; 2]%Z).
  { revert H. vm_compute. intros [= <- _]. eexists. repeat split; reflexivity. }
  destruct Hrs as (rs & Hrs & Hid & Hprio).
  exists e, w', rs. split; [reflexivity |]. split; [exact Hrs |].
  split; [exact Hid |]. split; [exact Hprio |].
  exact (proj1 (proj1 (loaded_rules_active_and_ordered newEngine e rankedWorld w' H)
                  1%nat rs Hrs)).
Defined.

(** ** What can and cannot throw *)

Lemma never_throws_ret {A} (a : A) : never_throws (ret a).
Proof. intros w. now exists a. Qed.

Lemma never_throws_gets {A} (f : World -> A) : never_throws (gets f).
Proof. intros w. now exists (f w). Qed.

Lemma never_throws_logger (l : Level) (s : string) : never_throws (logger l s).
Proof. intros w. now exists tt. Qed.

Lemma never_throws_bind {A B} (m : M A) (k : A -> M B) :
  never_throws m -> (forall a, never_throws (k a)) -> never_throws (bind m k).
Proof.
  intros Hm Hk w. unfold bind. destruct (Hm w) as (a & Ha).
  destruct (m w) as [r w1]. simpl in Ha. subst r. apply Hk.
Qed.

Lemma never_throws_try_catch {A} (m : M A) (h : Exn -> M A) :
  (forall e, never_throws (h e)) -> never_throws (try_catch m h).
Proof.
  intros Hh w. unfold try_catch. destruct (m w) as [[a | e] w1].
  - now exists a.
  - apply Hh.
Qed.

Lemma never_throws_forEach {A} (f : A -> M unit) (l : list A) :
  (forall x, never_throws (f x)) -> never_throws (forEach f l).
Proof.
  intros Hf. induction l as [| x l IH]; simpl.
  - apply never_throws_ret.
  - apply never_throws_bind; auto.
Qed.

Lemma processRule_never_throws (S2N : string -> Num) (this : CascadeEngine)
    (so cl d : nat) (client : Client) (order : Order) (rule : Rule) :
  never_throws (processRule S2N this so cl d client order rule).
Proof.
  apply never_throws_try_catch. intros e. apply never_throws_logger.
Qed.

Lemma getClientProfile_never_throws (clientId : nat) :
  never_throws (getClientProfile clientId).
Proof.
  apply never_throws_try_catch. intros e.
  apply never_throws_bind; [apply never_throws_logger | intros; apply never_throws_ret].
Qed.

Lemma forEach_app {A} (f : A -> M unit) (l1 l2 : list A) (w : World) :
  (forall x, never_throws (f x)) ->
  forEach f (l1 ++ l2) w = forEach f l2 (snd (forEach f l1 w)).
Proof.
  intros Hf. revert w. induction l1 as [| x l1 IH]; intros w; simpl.
  - reflexivity.
  - unfold bind. destruct (Hf x w) as ([] & Hx).
    destruct (f x w) as [r w1]. simpl in Hx. subst r. apply IH.
Qed.

(** X3. A failure while one rule is processed - a rejected lookup, a rejected
    trigger insert - is logged and never leaves the loop body: every rule of
    the list is evaluated, each on the world its predecessors left. *)
Theorem every_rule_is_evaluated (S2N : string -> Num) (this : CascadeEngine)
    (so cl d : nat) (client : Client) (order : Order)
    (before after : list Rule) (rule : Rule) (w : World) :
  fst (forEach (processRule S2N this so cl d client order)
               (before ++ rule :: after) w) = Ok tt
  /\ snd (forEach (processRule S2N this so cl d client order)
                  (before ++ rule :: after) w)
     = snd (forEach (processRule S2N this so cl d client order) after
              (snd (processRule S2N this so cl d client order rule
                      (snd (forEach (processRule S2N this so cl d client order)
                                    before w))))).
Proof.
  pose proof (processRule_never_throws S2N this so cl d client order) as Hnt.
  split.
  - destruct (never_throws_forEach _ (before ++ rule :: after) Hnt w) as ([] & H).
    exact H.
  - rewrite forEach_app by exact Hnt. simpl. unfold bind.
    destruct (Hnt rule (snd (forEach (processRule S2N this so cl d client order)
                                     before w))) as ([] & Hr).
    destruct (processRule S2N this so cl d client order rule _) as [r w1].
    simpl in Hr. subst r. reflexivity.
Qed.

Lemma triggerCascade_outcome (S2N : string -> Num) (this : CascadeEngine)
    (serviceOrderId clientId depth : nat) (w : World) :
  (isInitialized this = false
   \/ (depth < maxCascadeDepth /\ hd false (faults w) = true)
   -> fst (triggerCascade S2N this serviceOrderId clientId depth w)
      = Throw CascadeError503)
  /\ (isInitialized this = true ->
      (maxCascadeDepth <= depth \/ hd false (faults w) = false) ->
      fst (triggerCascade S2N this serviceOrderId clientId depth w) = Ok tt).
Proof.
  unfold triggerCascade, try_catch, handleCascadeError. split.
  - intros [Hi | [Hd Hf]].
    + rewrite Hi. reflexivity.
    + destruct (isInitialized this); [| reflexivity]. cbn [negb].
      apply Nat.leb_gt in Hd. rewrite Hd.
      unfold bind at 1, findById_service_orders, bind at 1, query.
      destruct (faults w) as [| [] fs]; try discriminate. reflexivity.
  - intros Hi Hcase. rewrite Hi. cbn [negb].
    destruct (Nat.leb maxCascadeDepth depth) eqn:Hd; [reflexivity |].
    destruct Hcase as [Hc | Hf]; [apply Nat.leb_le in Hc; congruence |].
    match goal with
    | |- fst (match ?m w with _ => _ end) = _ =>
        assert (Hnt : exists a, fst (m w) = Ok a);
          [| destruct Hnt as ([] & Hnt); destruct (m w) as [r w1];
             simpl in Hnt; subst r; reflexivity]
    end.
    unfold bind at 1, findById_service_orders, bind at 1, query, gets.
    destruct (faults w) as [| [] fs]; try discriminate; cbn beta iota;
      match goal with
      | |- context [List.find ?f ?l] => destruct (List.find f l) as [o |]
      end;
      try (eexists; reflexivity);
      (destruct (negb (is_completed o)); [eexists; reflexivity |];
       destruct (cascadeRules this !! o_service_id o) as [[| r rs] |];
       try (eexists; reflexivity);
       apply never_throws_bind; [apply getClientProfile_never_throws |];
       intros [c |]; [| apply never_throws_logger];
       apply never_throws_forEach; intros x; apply processRule_never_throws).
Qed.

(** X4. [triggerCascade] throws exactly when the engine is not initialised or,
    below the depth limit, the lookup of the completed order is rejected, and
    what it throws is the 503 cascade error; a failed profile lookup, a
    failed condition evaluation or a failed trigger insert never reaches the
    caller. *)
Theorem triggerCascade_throws_iff (S2N : string -> Num) (this : CascadeEngine)
    (serviceOrderId clientId depth : nat) (w : World) :
  (isInitialized this = false
   \/ (depth < maxCascadeDepth /\ hd false (faults w) = true)
   -> fst (triggerCascade S2N this serviceOrderId clientId depth w)
      = Throw CascadeError503)
  /\ (isInitialized this = true ->
      (maxCascadeDepth <= depth \/ hd false (faults w) = false) ->
      fst (triggerCascade S2N this serviceOrderId clientId depth w) = Ok tt).
Proof. apply triggerCascade_outcome. Qed.

Lemma triggerCascade_throws_iff_witness :
  isInitialized newEngine = false
  /\ fst (triggerCascade parseDecimal newEngine 21 1 0 raceWorld) = Throw CascadeError503.
Proof.
  split; [reflexivity |].
  exact (proj1 (triggerCascade_throws_iff parseDecimal newEngine 21 1 0 raceWorld)
               (or_introl eq_refl)).
Defined.

(** ** Steps that leave the engine's state alone *)

Lemma quiet_refl (w : World) : quiet w w.
Proof. repeat split. Qed.

Lemma quiet_trans (w1 w2 w3 : World) : quiet w1 w2 -> quiet w2 w3 -> quiet w1 w3.
Proof.
  unfold quiet. intros H1 H2.
  decompose [and] H1. decompose [and] H2. repeat split; congruence.
Qed.

Lemma quietly_ret {A} (a : A) : quietly (ret a).
Proof. intros w. apply quiet_refl. Qed.

Lemma quietly_throw {A} (e : Exn) : quietly (@throw A e).
Proof. intros w. apply quiet_refl. Qed.

Lemma quietly_gets {A} (f : World -> A) : quietly (gets f).
Proof. intros w. apply quiet_refl. Qed.

Lemma quietly_logger (l : Level) (s : string) : quietly (logger l s).
Proof. intros w. repeat split. Qed.

Lemma quietly_query : quietly query.
Proof. intros w. unfold query. destruct (faults w) as [| [] fs]; repeat split. Qed.

Lemma quietly_bind {A B} (m : M A) (k : A -> M B) :
  quietly m -> (forall a, quietly (k a)) -> quietly (bind m k).
Proof.
  intros Hm Hk w. unfold bind. specialize (Hm w).
  destruct (m w) as [[a | e] w1]; simpl in *; [| exact Hm].
  eapply quiet_trans; [exact Hm | apply Hk].
Qed.

Lemma quietly_try_catch {A} (m : M A) (h : Exn -> M A) :
  quietly m -> (forall e, quietly (h e)) -> quietly (try_catch m h).
Proof.
  intros Hm Hh w. unfold try_catch. specialize (Hm w).
  destruct (m w) as [[a | e] w1]; simpl in *; [exact Hm |].
  eapply quiet_trans; [exact Hm | apply Hh].
Qed.

Lemma quietly_forEach {A} (f : A -> M unit) (l : list A) :
  (forall x, quietly (f x)) -> quietly (forEach f l).
Proof.
  intros Hf. induction l as [| x l IH]; simpl.
  - apply quietly_ret.
  - apply quietly_bind; auto.
Qed.

Lemma quietly_findById_services (i : nat) : quietly (findById_services i).
Proof. apply quietly_bind; [apply quietly_query | intros; apply quietly_gets]. Qed.

Lemma quietly_findById_service_orders (i : nat) : quietly (findById_service_orders i).
Proof. apply quietly_bind; [apply quietly_query | intros; apply quietly_gets]. Qed.

Lemma quietly_journey (c : nat) (a s : string) (r : Q) :
  quietly (updateClientJourney c a s r).
Proof.
  apply quietly_try_catch; [| intros; apply quietly_logger].
  apply quietly_bind; [apply quietly_query |]. intros _ w. repeat split.
Qed.

Lemma quietly_notifications (client : Client) (service : Service) (o : Order) :
  quietly (sendCascadeNotifications client service o).
Proof.
  apply quietly_try_catch; [| intros; apply quietly_logger].
  apply quietly_bind; [intros w; repeat split | intros _].
  apply quietly_bind; [apply quietly_query | intros _].
  apply quietly_bind; [apply quietly_gets | intros admins].
  apply quietly_forEach. intros x w. repeat split.
Qed.

(** X5. Only a completed order of a service with rules is evaluated: when the
    order is missing, is not completed, or its service has no entry in the
    index, the evaluation creates no trigger record, schedules nothing,
    consumes no draw and does not touch the profile cache. *)
Theorem ineligible_order_is_not_evaluated (S2N : string -> Num) (this : CascadeEngine)
    (serviceOrderId clientId depth : nat) (w : World) :
  match List.find (fun o => Nat.eqb (o_id o) serviceOrderId) (service_orders w) with
  | Some o => is_completed o = false \/ cascadeRules this !! o_service_id o = None
  | None => True
  end ->
  quiet w (snd (triggerCascade S2N this serviceOrderId clientId depth w)).
Proof.
  intros H. revert H.
  assert (Hh : forall e : Exn, quietly (@handleCascadeError unit e)).
  { intros e. apply quietly_bind; [apply quietly_logger | intros; apply quietly_throw]. }
  unfold triggerCascade, try_catch.
  destruct (negb (isInitialized this)).
  { intros _. apply (Hh (Error "Cascade engine not initialized") w). }
  destruct (Nat.leb maxCascadeDepth depth).
  { intros _. apply quietly_logger. }
  unfold bind at 1.
  pose proof (quietly_findById_service_orders serviceOrderId w) as Hq.
  unfold findById_service_orders, bind, query, gets in *.
  destruct (faults w) as [| [] fs]; cbn beta iota in *; cbn [fst snd] in *.
  - destruct (List.find _ (service_orders w)) as [o |]; intros H;
      [| apply quietly_logger].
    destruct H as [-> | ->]; cbn [negb]; [apply quietly_logger |].
    destruct (negb (is_completed o)); apply quietly_logger.
  - intros _. eapply quiet_trans; [exact Hq |]. apply Hh.
  - cbn [service_orders set_faults].
    destruct (List.find _ (service_orders w)) as [o |]; intros H.
    + destruct H as [-> | ->]; cbn [negb].
      * eapply quiet_trans; [exact Hq | apply quietly_logger].
      * destruct (negb (is_completed o));
          (eapply quiet_trans; [exact Hq | apply quietly_logger]).
    + eapply quiet_trans; [exact Hq | apply quietly_logger].
Qed.

Lemma ineligible_order_is_not_evaluated_witness :
  quiet heldWorld (snd (triggerCascade parseDecimal readyEngine 22 1 0 heldWorld)).
Proof.
  apply ineligible_order_is_not_evaluated. simpl. left. reflexivity.
Defined.

(** ** The timer callback and its trigger record *)

Lemma update_cascade_triggers_outcome (i : nat) (f : Trigger -> Trigger) (w : World) :
  service_orders (snd (update_cascade_triggers i f w)) = service_orders w
  /\ ((exists e, fst (update_cascade_triggers i f w) = Throw e
                 /\ cascade_triggers (snd (update_cascade_triggers i f w))
                    = cascade_triggers w)
      \/ (fst (update_cascade_triggers i f w) = Ok tt
          /\ cascade_triggers (snd (update_cascade_triggers i f w))
             = List.map (fun t => if Nat.eqb (t_id t) i then f t else t)
                        (cascade_triggers w))).
Proof.
  unfold update_cascade_triggers, bind, query, modify.
  destruct (faults w) as [| [] fs]; simpl; split; eauto.
Qed.

Lemma create_service_orders_outcome (mk : nat -> Order) (w : World) :
  cascade_triggers (snd (create_service_orders mk w)) = cascade_triggers w
  /\ ((exists e, fst (create_service_orders mk w) = Throw e
                 /\ service_orders (snd (create_service_orders mk w)) = service_orders w)
      \/ (exists i, fst (create_service_orders mk w) = Ok (stored (mk i))
                    /\ service_orders (snd (create_service_orders mk w))
                       = service_orders w ++ [stored (mk i)])).
Proof.
  unfold create_service_orders, bind, query, fresh_id, modify, ret.
  destruct (faults w) as [| [] fs]; simpl; split; eauto.
Qed.

Lemma failure_handler_outcome (i : nat) (f : Trigger -> Trigger) (msg : string)
    (w : World) :
  service_orders
    (snd (bind (logger LError msg) (fun _ => update_cascade_triggers i f) w))
  = service_orders w
  /\ (cascade_triggers
        (snd (bind (logger LError msg) (fun _ => update_cascade_triggers i f) w))
      = cascade_triggers w
      \/ cascade_triggers
           (snd (bind (logger LError msg) (fun _ => update_cascade_triggers i f) w))
         = List.map (fun t => if Nat.eqb (t_id t) i then f t else t)
                    (cascade_triggers w)).
Proof.
  unfold bind, logger, modify. cbn beta iota.
  match goal with
  | |- context [update_cascade_triggers i f ?w1] =>
      destruct (update_cascade_triggers_outcome i f w1)
        as [Ho [(e' & _ & Ht) | (_ & Ht)]]
  end; cbn [service_orders cascade_triggers set_log] in Ho, Ht.
  - split; [exact Ho | left; exact Ht].
  - split; [exact Ho | right; exact Ht].
Qed.

(** X6. A timer callback inserts at most one order, and its trigger record is
    marked converted only when the order has been inserted - it then records
    that order's id.  After any failure the trigger records are left as they
    were or the trigger is marked unconverted with zero revenue; no other
    trigger record is touched. *)
Theorem converted_only_with_order (S2N : string -> Num) (rule : Rule)
    (client : Client) (trigger : Trigger) (d : nat) (w : World) :
  exists extra,
    service_orders (snd (createTriggeredService S2N rule client trigger d w))
    = service_orders w ++ extra
    /\ (extra = [] \/ exists o, extra = [o])
    /\ (cascade_triggers (snd (createTriggeredService S2N rule client trigger d w))
        = cascade_triggers w
        \/ cascade_triggers (snd (createTriggeredService S2N rule client trigger d w))
           = List.map (markFailed (t_id trigger)) (cascade_triggers w)
        \/ exists o,
             extra = [o]
             /\ o_client_id o = client_id client
             /\ o_service_id o = triggeredServiceId rule
             /\ cascade_triggers
                  (snd (createTriggeredService S2N rule client trigger d w))
                = List.map (markConverted (t_id trigger) (o_id o)) (cascade_triggers w)).
Proof.
  remember (createTriggeredService S2N rule client trigger d w) as res eqn:Hres.
  unfold createTriggeredService, try_catch in Hres.
  unfold bind at 1 in Hres.
  pose proof (quietly_findById_services (triggeredServiceId rule) w) as Hq1.
  destruct (findById_services_spec (triggeredServiceId rule) w) as [_ Hfind].
  destruct (findById_services (triggeredServiceId rule) w) as [[service | e] w1];
    cbn [fst snd] in Hq1, Hfind;
    destruct Hq1 as (_ & _ & _ & _ & _ & Ho1 & Ht1 & _).
  2:{ cbv beta iota in Hres. subst res. exists []. rewrite app_nil_r.
      match goal with
      | |- context [bind (logger LError ?s) (fun _ => update_cascade_triggers ?i ?f) ?w0] =>
          destruct (failure_handler_outcome i f s w0) as [Ho [Ht | Ht]]
      end; rewrite Ho, Ht, Ho1, Ht1; auto. }
  specialize (Hfind service eq_refl). subst service.
  destruct (List.find _ (services w)) as [service |] eqn:Hs.
  2:{ subst res. exists []. rewrite app_nil_r. cbn. rewrite Ho1, Ht1. auto. }
  assert (Hsid : s_id service = triggeredServiceId rule).
  { apply find_some in Hs as [_ Hs]. now apply Nat.eqb_eq in Hs. }
  unfold bind at 1 in Hres.
  lazymatch type of Hres with
  | context [create_service_orders ?mk w1] =>
      destruct (create_service_orders_outcome mk w1)
        as [Ht2 [(e & Hr & Ho2) | (i & Hr & Ho2)]];
      destruct (create_service_orders mk w1) as [r w2];
      cbn [fst snd] in Hr, Ho2, Ht2; subst r
  end.
  { cbv beta iota in Hres. subst res. exists []. rewrite app_nil_r.
    match goal with
    | |- context [bind (logger LError ?s) (fun _ => update_cascade_triggers ?i ?f) ?w0] =>
        destruct (failure_handler_outcome i f s w0) as [Ho [Ht | Ht]]
    end; rewrite Ho, Ht, Ho2, Ht2, Ho1, Ht1; auto. }
  cbv beta iota in Hres. cbn [o_id] in Hres.
  unfold bind at 1 in Hres.
  lazymatch type of Hres with
  | context [update_cascade_triggers ?j ?f w2] =>
      destruct (update_cascade_triggers_outcome j f w2)
        as [Ho3 [(e & Hr & Ht3) | (Hr & Ht3)]];
      destruct (update_cascade_triggers j f w2) as [r w3];
      cbn [fst snd] in Hr, Ho3, Ht3; subst r
  end.
  { cbv beta iota in Hres. subst res. eexists.
    match goal with
    | |- context [bind (logger LError ?s) (fun _ => update_cascade_triggers ?i ?f) ?w0] =>
        destruct (failure_handler_outcome i f s w0) as [Ho [Ht | Ht]]
    end; rewrite Ho, Ht, Ho3, Ht3, Ho2, Ht2, Ho1, Ht1;
      (split; [reflexivity |]); (split; [eauto |]); auto. }
  cbv beta iota in Hres.
  match type of Hres with
  | context [match ?m w3 with _ => _ end] =>
      assert (Hk : quietly m /\ never_throws m)
  end.
  { split.
    - apply quietly_bind; [apply quietly_journey | intros _].
      apply quietly_bind; [apply quietly_notifications | intros _].
      apply quietly_logger.
    - apply never_throws_bind.
      { apply never_throws_try_catch. intros; apply never_throws_logger. }
      intros _. apply never_throws_bind.
      { apply never_throws_try_catch. intros; apply never_throws_logger. }
      intros _. apply never_throws_logger. }
  destruct Hk as [Hk Hn].
  match type of Hres with
  | context [match ?m w3 with _ => _ end] =>
      specialize (Hk w3); destruct (Hn w3) as ([] & Hok);
      destruct (m w3) as [r w4]; cbn [fst snd] in Hk, Hok; subst r
  end.
  destruct Hk as (_ & _ & _ & _ & _ & Ho4 & Ht4 & _).
  cbv beta iota in Hres. subst res. cbn [fst snd].
  eexists. split; [rewrite Ho4, Ho3, Ho2, Ho1; reflexivity |]. split; [eauto |].
  right. right. eexists. split; [reflexivity |]. cbn.
  split; [reflexivity |]. split; [exact Hsid |].
  rewrite Ht4, Ht3, Ht2, Ht1. reflexivity.
Qed.

Lemma forEach_queue (n : Notification) (l : list nat) (w : World) :
  forEach (fun admin => queueNotification (Some admin) n) l w
  = (Ok tt, set_notifications
              (notifications w ++ List.map (fun a => (Some a, n)) l) w).
Proof.
  revert w. induction l as [| a l IH]; intros w; simpl.
  - rewrite app_nil_r. now destruct w.
  - unfold bind, queueNotification at 1, modify. rewrite IH. simpl.
    now rewrite <- app_assoc.
Qed.

Ltac runT :=
  cbv beta iota delta
    [try_catch bind ret throw gets modify logger query fresh_id
     findById_services create_service_orders
     update_cascade_triggers create_client_journey updateClientJourney
     sendCascadeNotifications fst snd];
  cbn [services clients vehicle_rows service_cascades admin_users now currentMonth
       service_orders cascade_triggers client_journey cache_client_profile
       cache_revenue notifications timers log faults draws next_id
       set_service_orders set_cascade_triggers set_client_journey
       set_cache_client_profile set_cache_revenue set_notifications set_timers
       set_log set_faults set_draws set_next_id].



(** ** The profile cache *)

Ltac runG H :=
  cbv beta iota delta
    [try_catch bind ret throw gets modify logger query getClientProfile fst snd] in H;
  cbn [services clients vehicle_rows service_cascades admin_users now currentMonth
       service_orders cascade_triggers client_journey cache_client_profile
       cache_revenue notifications timers log faults draws next_id
       set_service_orders set_cascade_triggers set_client_journey
       set_cache_client_profile set_cache_revenue set_notifications set_timers
       set_log set_faults set_draws set_next_id] in H.



(** ** Cascade pricing and the helper predicates *)

(** X9. For a non-negative base price the cascade discount is the largest
    applicable one - of 10 percent above 50000 of lifetime spend, 5 percent
    above a credit score of 750, 15 percent on a first order and 8 percent
    above five orders - and never exceeds 15 percent: the final price is the
    base price minus the discount and lies between 85 percent of the base
    price and the base price, so the floor of half the base price is never
    what decides it; a customer without any order gets exactly 15 percent
    off. *)
Theorem cascade_discount_at_most_15_percent (S2N : string -> Num)
    (service : Service) (client : Client) :
  (0 <= s_base_price service)%Q ->
  (0 <= dp_discountAmount (calculateDynamicPricing S2N service client))%Q
  /\ (dp_discountAmount (calculateDynamicPricing S2N service client)
      <= s_base_price service * (15 # 100))%Q
  /\ (dp_finalPrice (calculateDynamicPricing S2N service client)
      == s_base_price service
         - dp_discountAmount (calculateDynamicPricing S2N service client))%Q
  /\ (s_base_price service * (85 # 100)
      <= dp_finalPrice (calculateDynamicPricing S2N service client))%Q
  /\ (totalOrders client = 0%Z ->
      (dp_discountAmount (calculateDynamicPricing S2N service client)
       == s_base_price service * (15 # 100))%Q)
  /\ (forall score,
        credit_score client = num score ->
        exists rate,
          (dp_discountAmount (calculateDynamicPricing S2N service client)
           == s_base_price service * rate)%Q
          /\ (forall r,
                In r (applicableRates score (totalSpent client) (totalOrders client)) ->
                (r <= rate)%Q)
          /\ (In rate (applicableRates score (totalSpent client) (totalOrders client))
              \/ (applicableRates score (totalSpent client) (totalOrders client) = []
                  /\ rate = 0%Q))).
Proof.
  intros Hb.
  assert (Hlargest :
            forall score,
              credit_score client = num score ->
              exists rate,
                (dp_discountAmount (calculateDynamicPricing S2N service client)
                 == s_base_price service * rate)%Q
                /\ (forall r,
                      In r (applicableRates score (totalSpent client)
                              (totalOrders client)) ->
                      (r <= rate)%Q)
                /\ (In rate (applicableRates score (totalSpent client)
                               (totalOrders client))
                    \/ (applicableRates score (totalSpent client)
                          (totalOrders client) = []
                        /\ rate = 0%Q))).
  { intros score Hs.
    exists (largestDiscountRate score (totalSpent client) (totalOrders client)).
    split; [apply (calculateDynamicPricing_largest S2N service client score Hb Hs) |].
    apply largestDiscountRate_largest. }
  revert Hlargest.
  unfold calculateDynamicPricing. cbn [dp_finalPrice dp_discountAmount].
  intros Hlargest.
  set (b := s_base_price service) in *.
  set (d1 := if Qltb 50000 (totalSpent client) then (b * (1 # 10))%Q else 0%Q).
  assert (H1 : (0 <= d1 /\ d1 <= b * (15 # 100))%Q)
    by (subst d1; destruct (Qltb _ _); split; lra).
  set (d2 := if js_gt S2N (credit_score client) (num 750)
             then Qmax d1 (b * (5 # 100)) else d1).
  assert (H2 : (0 <= d2 /\ d2 <= b * (15 # 100))%Q).
  { subst d2. destruct (js_gt _ _ _); [| exact H1].
    destruct (Qmax_cases d1 (b * (5 # 100))) as [[H ->] | [H ->]]; split; lra. }
  set (d3 := if Z.eqb (totalOrders client) 0 then Qmax d2 (b * (15 # 100)) else d2).
  assert (H3 : (0 <= d3 /\ d3 <= b * (15 # 100))%Q
               /\ (totalOrders client = 0%Z -> d3 == b * (15 # 100))%Q).
  { subst d3. destruct (Z.eqb_spec (totalOrders client) 0) as [E | E].
    - destruct (Qmax_cases d2 (b * (15 # 100))) as [[H ->] | [H ->]];
        (split; [split; lra |]); intros _; lra.
    - split; [exact H2 | intros; contradiction]. }
  set (d4 := if Z.ltb 5 (totalOrders client) then Qmax d3 (b * (8 # 100)) else d3).
  assert (H4 : (0 <= d4 /\ d4 <= b * (15 # 100))%Q
               /\ (totalOrders client = 0%Z -> d4 == b * (15 # 100))%Q).
  { subst d4. destruct (Z.ltb_spec 5 (totalOrders client)) as [E | E].
    - destruct (Qmax_cases d3 (b * (8 # 100))) as [[H ->] | [H ->]];
        (split; [split; lra |]); intros E0; lia.
    - exact H3. }
  destruct H4 as [[H4a H4b] H4c].
  destruct (Qmax_cases (b - d4) (b * (5 # 10))) as [[H ->] | [H ->]];
    repeat split; try lra; auto.
Qed.

Lemma cascade_discount_at_most_15_percent_witness :
  (0 <= s_base_price (mkService 2 "B" 2000 "financial"))%Q
  /\ credit_score loyalClient = num 720
  /\ applicableRates 720 (totalSpent loyalClient) (totalOrders loyalClient)
     = [(8 # 100)%Q]
  /\ (dp_discountAmount (calculateDynamicPricing parseDecimal
                           (mkService 2 "B" 2000 "financial") loyalClient)
      == 160)%Q.
Proof.
  assert (H : (0 <= s_base_price (mkService 2 "B" 2000 "financial"))%Q)
    by (vm_compute; discriminate).
  assert (Hr : applicableRates 720 (totalSpent loyalClient) (totalOrders loyalClient)
               = [(8 # 100)%Q])
    by (vm_compute; reflexivity).
  split; [exact H |]. split; [reflexivity |]. split; [exact Hr |].
  destruct (proj2 (proj2 (proj2 (proj2 (proj2
              (cascade_discount_at_most_15_percent parseDecimal
                 (mkService 2 "B" 2000 "financial") loyalClient H))))) 720%Q eq_refl)
    as (rate & Hd & _ & Hin).
  rewrite Hr in Hin.
  destruct Hin as [[<- | []] | [Hnil _]]; [| discriminate].
  rewrite Hd. reflexivity.
Defined.

(** X10. A credit score that is SQL NULL is compared as the number 0, unlike a
    missing one: such a customer counts as needing financing and credit
    improvement, and fails every rule with a positive [min_credit_score],
    whatever else the rule asks. *)
Theorem null_credit_score_counts_as_zero (S2N : string -> Num) (today : Z)
    (client : Client) (conds : gmap string Value) (so : Order) (q : Q) :
  credit_score client = JNull ->
  conds !! "min_credit_score" = Some (num q) ->
  (0 < q)%Q ->
  hasFinancingNeed S2N client = true
  /\ needsCreditImprovement S2N client = true
  /\ evaluateConditionsBody S2N today conds client so = Ok false.
Proof.
  intros Hc Hk Hq.
  split; [unfold hasFinancingNeed; now rewrite Hc |].
  split; [unfold needsCreditImprovement; now rewrite Hc |].
  rewrite evaluateConditionsBody_keys. simpl.
  rewrite (prop_Some conds _ _ Hk).
  unfold guard. simpl. rewrite Hc.
  assert (Ht : truthy (num q) = true).
  { simpl. apply negb_true_iff. destruct (Qeq_bool q 0) eqn:E; [| reflexivity].
    apply Qeq_bool_iff in E. lra. }
  unfold and_then. rewrite Ht.
  assert (Hlt : js_lt S2N JNull (num q) = true).
  { unfold js_lt, js_compare. simpl.
    destruct (Qcompare_spec 0 q) as [E | E | E]; try reflexivity; lra. }
  rewrite Hlt. reflexivity.
Qed.

Lemma null_credit_score_counts_as_zero_witness :
  credit_score nullScoreClient = JNull
  /\ minScore600 !! "min_credit_score" = Some (num 600)
  /\ evaluateConditionsBody parseDecimal 0 minScore600 nullScoreClient purchaseOrder
     = Ok false.
Proof.
  assert (H1 : credit_score nullScoreClient = JNull) by reflexivity.
  assert (H2 : minScore600 !! "min_credit_score" = Some (num 600))
    by (vm_compute; reflexivity).
  split; [exact H1 |]. split; [exact H2 |].
  refine (proj2 (proj2 (null_credit_score_counts_as_zero parseDecimal 0 nullScoreClient
                          minScore600 purchaseOrder 600 H1 H2 _))).
  vm_compute. reflexivity.
Defined.

(** ** Notifications and the completion hook *)



Ltac runH H :=
  cbv beta iota delta
    [try_catch bind ret throw gets modify logger query
     handleServiceCompletion trackRevenue updateClientLifetimeValue
     handleRevenueError findById_service_orders fst snd] in H;
  cbn [services clients vehicle_rows service_cascades admin_users now currentMonth
       service_orders cascade_triggers client_journey cache_client_profile
       cache_revenue notifications timers log faults draws next_id
       set_service_orders set_cascade_triggers set_client_journey
       set_cache_client_profile set_cache_revenue set_notifications set_timers
       set_log set_faults set_draws set_next_id] in H.

(** X12. The completion hook never throws, and it evaluates the cascade only
    after the revenue has been recorded: when the completed order cannot be
    found, or the insert of the revenue record is rejected, no cascade
    evaluation takes place - no trigger record, no timer, no draw. *)
Theorem failed_revenue_tracking_suppresses_cascade (S2N : string -> Num)
    (engine : CascadeEngine) (orderId clientId : nat) (w : World) :
  fst (handleServiceCompletion S2N engine orderId clientId w) = Ok tt
  /\ (List.find (fun o => Nat.eqb (o_id o) orderId) (service_orders w) = None
      \/ (exists fs, faults w = false :: true :: fs) ->
      quiet w (snd (handleServiceCompletion S2N engine orderId clientId w))).
Proof.
  split.
  - destruct (never_throws_try_catch
                (bind (findById_service_orders orderId) (fun order =>
                   match order with
                   | None => throw (TypeError
                       "Cannot read properties of null (reading 'final_price')")
                   | Some _ =>
                       bind (trackRevenue clientId) (fun _ =>
                       bind (triggerCascade S2N engine orderId clientId 0) (fun _ =>
                       logger LRevenue "Service completed"))
                   end))
                (fun _ => logger LError "Error handling service completion")
                ltac:(intros; apply never_throws_logger) w) as ([] & H).
    exact H.
  - intros Hcase.
    remember (handleServiceCompletion S2N engine orderId clientId w) as res eqn:Hres.
    runH Hres.
    destruct Hcase as [Hnone | (fs & Hf)].
    + destruct (faults w) as [| [] fs]; runH Hres; try rewrite Hnone in Hres;
        runH Hres; subst res; repeat split.
    + rewrite Hf in Hres. runH Hres.
      destruct (List.find _ (service_orders w)); runH Hres; subst res; repeat split.
Qed.

Lemma failed_revenue_tracking_suppresses_cascade_witness :
  List.find (fun o => Nat.eqb (o_id o) 99) (service_orders raceWorld) = None
  /\ quiet raceWorld
       (snd (handleServiceCompletion parseDecimal (engineOf raceWorld) 99 1 raceWorld)).
Proof.
  split; [reflexivity |].
  exact (proj2 (failed_revenue_tracking_suppresses_cascade parseDecimal
                  (engineOf raceWorld) 99 1 raceWorld) (or_introl eq_refl)).
Defined.



Ltac runC H :=
  cbv beta iota delta
    [try_catch bind ret throw gets modify logger query
     completeOrder findById_service_orders fst snd] in H;
  cbn [services clients vehicle_rows service_cascades admin_users now currentMonth
       service_orders cascade_triggers client_journey cache_client_profile
       cache_revenue notifications timers log faults draws next_id
       set_service_orders set_cascade_triggers set_client_journey
       set_cache_client_profile set_cache_revenue set_notifications set_timers
       set_log set_faults set_draws set_next_id] in H.

(** X14. Completing an order that is already completed runs neither the
    revenue tracking nor the cascade: whichever queries are rejected, trigger
    records, timers, draws, journey, notifications and both caches are left
    as they were and no order is added.  The request answers 200 when the
    lookup and the update of the order are accepted, and 500 when one of the
    two is rejected. *)
Theorem completed_order_is_not_evaluated_again (S2N : string -> Num)
    (engine : CascadeEngine) (orderId : nat) (w : World) (o : Order) :
  List.find (fun o => Nat.eqb (o_id o) orderId) (service_orders w) = Some o ->
  o_status o = completed ->
  exists w',
    completeOrder S2N engine orderId w
    = (Ok (if hd false (faults w) || hd false (tl (faults w))
           then UpdateFailed else Updated), w')
    /\ cascade_triggers w' = cascade_triggers w
    /\ timers w' = timers w /\ draws w' = draws w
    /\ client_journey w' = client_journey w
    /\ notifications w' = notifications w
    /\ cache_client_profile w' = cache_client_profile w
    /\ cache_revenue w' = cache_revenue w
    /\ length (service_orders w') = length (service_orders w).
Proof.
  intros Ho Hs.
  remember (completeOrder S2N engine orderId w) as res eqn:Hres.
  runC Hres.
  assert (Hc : is_completed o = true) by (unfold is_completed; now rewrite Hs).
  destruct (faults w) as [| [] [| [] fs]] eqn:Hf; runC Hres;
    try (rewrite Ho in Hres; runC Hres);
    try (rewrite Hf in Hres; runC Hres);
    try (rewrite Hc in Hres; runC Hres);
    subst res; eexists; (split; [reflexivity |]); cbn;
    rewrite ?length_map; repeat split.
Qed.

Lemma completed_order_is_not_evaluated_again_witness :
  exists w', completeOrder parseDecimal readyEngine 21 heldWorld = (Ok Updated, w')
  /\ cascade_triggers w' = cascade_triggers heldWorld
  /\ timers w' = timers heldWorld /\ draws w' = draws heldWorld
  /\ client_journey w' = client_journey heldWorld
  /\ notifications w' = notifications heldWorld
  /\ cache_client_profile w' = cache_client_profile heldWorld
  /\ cache_revenue w' = cache_revenue heldWorld
  /\ length (service_orders w') = length (service_orders heldWorld).
Proof.
  exact (completed_order_is_not_evaluated_again parseDecimal readyEngine 21
           heldWorld purchaseOrder eq_refl eq_refl).
Defined.

(** ** The price computation of the revenue optimizer *)

Lemma Qmax_compat (x x' y : Q) : (x == x')%Q -> (Qmax x y == Qmax x' y)%Q.
Proof.
  intros H.
  destruct (Qmax_cases x y) as [[H1 ->] | [H1 ->]],
           (Qmax_cases x' y) as [[H2 ->] | [H2 ->]]; lra.
Qed.

Lemma Qmin_compat (x x' y : Q) : (x == x')%Q -> (Qmin x y == Qmin x' y)%Q.
Proof.
  intros H.
  destruct (Qmin_cases x y) as [[H1 ->] | [H1 ->]],
           (Qmin_cases x' y) as [[H2 ->] | [H2 ->]]; lra.
Qed.

(** The clamp of a non-negative base price by itself is the base price. *)
Lemma clamp_base (b : Q) :
  (0 <= b)%Q ->
  (Qmin (Qmax b (b * (1 - priceAdjustmentCap))) (b * (1 + priceAdjustmentCap)) == b)%Q.
Proof.
  intros Hb. unfold priceAdjustmentCap.
  destruct (Qmax_cases b (b * (1 - (3 # 10)))) as [[H1 ->] | [H1 ->]];
    match goal with
    | |- context [Qmin ?u ?v] =>
        destruct (Qmin_cases u v) as [[H2 ->] | [H2 ->]]
    end; lra.
Qed.

(** X15. In a pricing returned for a non-negative base price and an urgency
    that is not a property name inherited from [Object.prototype], discount
    and premium are numbers that are never both charged: one of them is 0,
    each lies between 0 and 30% of the base price (to the cent), and the
    price returned is within a cent of
    basePrice - discountAmount + premiumAmount. *)
Theorem discount_and_premium_are_exclusive (S2N : string -> Num)
    (this : RevenueOptimizer) (serviceId clientId : nat) (options : Options)
    (w w' : World) (p : Pricing) :
  calculateOptimalPrice S2N this serviceId clientId options w = (Ok p, w') ->
  (0 <= basePrice p)%Q ->
  (forall u, urgency options = Some u -> ~ In u objectPrototypeKeys) ->
  exists discount premium price,
    discountAmount p = Fin discount
    /\ premiumAmount p = Fin premium
    /\ finalPrice p = Fin price
    /\ (discount == 0 \/ premium == 0)%Q
    /\ (0 <= discount /\ discount < basePrice p * priceAdjustmentCap + (1 # 100))%Q
    /\ (0 <= premium /\ premium < basePrice p * priceAdjustmentCap + (1 # 100))%Q
    /\ (basePrice p - discount + premium - (1 # 100) < price
        /\ price < basePrice p - discount + premium + (1 # 100))%Q.
Proof.
  intros H Hb Hu.
  apply calculateOptimalPrice_returns in H as (_ & service & client & _ & ->).
  destruct (computePricing_number S2N this (currentMonth w) service client options Hu)
    as (x & Hf & Hd & Hp & _).
  cbn zeta in Hf, Hd, Hp.
  change (basePrice (computePricing S2N this (currentMonth w) service client options))
    with (s_base_price service) in *.
  pose proof (clamp_bounds (s_base_price service) x Hb) as [Hlo Hhi].
  pose proof (round2_bounds
                (Qmin (Qmax x (s_base_price service * (1 - priceAdjustmentCap)))
                      (s_base_price service * (1 + priceAdjustmentCap))))
    as [Hrl Hrh].
  cbn zeta in Hlo, Hhi.
  set (c := Qmin (Qmax x (s_base_price service * (1 - priceAdjustmentCap)))
                 (s_base_price service * (1 + priceAdjustmentCap))) in *.
  set (b := s_base_price service) in *.
  exists (Qmax 0 (b - c)), (Qmax 0 (c - b)), (round2 c).
  split; [exact Hd |]. split; [exact Hp |]. split; [exact Hf |].
  unfold priceAdjustmentCap in *.
  destruct (Qmax_cases 0 (b - c)) as [[H1 ->] | [H1 ->]],
           (Qmax_cases 0 (c - b)) as [[H2 ->] | [H2 ->]];
    repeat split; try lra; (left; lra) || (right; lra).
Qed.

Lemma discount_and_premium_are_exclusive_witness :
  calculateOptimalPrice parseDecimal defaultOptimizer 1 1 emergency pricingWorld
  = (Ok emergencyPricing,
     snd (calculateOptimalPrice parseDecimal defaultOptimizer 1 1 emergency pricingWorld))
  /\ (0 <= basePrice emergencyPricing)%Q
  /\ exists discount premium,
       discountAmount emergencyPricing = Fin discount
       /\ premiumAmount emergencyPricing = Fin premium
       /\ (discount == 0 \/ premium == 0)%Q.
Proof.
  assert (H : calculateOptimalPrice parseDecimal defaultOptimizer 1 1 emergency pricingWorld
              = (Ok emergencyPricing,
                 snd (calculateOptimalPrice parseDecimal defaultOptimizer 1 1 emergency
                                            pricingWorld)))
    by (vm_compute; reflexivity).
  assert (Hb : (0 <= basePrice emergencyPricing)%Q) by (vm_compute; discriminate).
  split; [exact H |]. split; [exact Hb |].
  destruct (discount_and_premium_are_exclusive parseDecimal defaultOptimizer 1 1
              emergency pricingWorld _ emergencyPricing H Hb)
    as (d & pr & f & Hd & Hp & _ & Hex & _).
  - intros u [= <-] Hin. cbn in Hin.
    repeat (destruct Hin as [Hin | Hin]; [discriminate |]). exact Hin.
  - exists d, pr. split; [exact Hd |]. split; [exact Hp | exact Hex].
Defined.

(** X16. With dynamic pricing switched off no factor is applied: the price is
    the base price rounded to cents, and neither a discount nor a premium is
    reported. *)
Theorem static_pricing_is_base_price (S2N : string -> Num)
    (this : RevenueOptimizer) (serviceId clientId : nat) (options : Options)
    (w w' : World) (p : Pricing) :
  calculateOptimalPrice S2N this serviceId clientId options w = (Ok p, w') ->
  dynamicPricingEnabled this = false ->
  (0 <= basePrice p)%Q ->
  adjustmentFactors p = []
  /\ finalPrice p = Fin (round2 (basePrice p))
  /\ exists discount premium,
       discountAmount p = Fin discount /\ premiumAmount p = Fin premium
       /\ (discount == 0)%Q /\ (premium == 0)%Q.
Proof.
  intros H Hd Hb.
  apply calculateOptimalPrice_returns in H as (_ & service & client & _ & ->).
  unfold computePricing in *. rewrite Hd.
  cbn [basePrice finalPrice discountAmount premiumAmount adjustmentFactors
       fold_left Nmax Nmin Nsub Nround2] in *.
  pose proof (clamp_base (s_base_price service) Hb) as Hc.
  set (c := Qmin _ _) in *.
  split; [reflexivity |]. split; [f_equal; now apply round2_compat |].
  eexists. eexists. split; [reflexivity |]. split; [reflexivity |].
  destruct (Qmax_cases 0 (s_base_price service - c)) as [[H1 ->] | [H1 ->]],
           (Qmax_cases 0 (c - s_base_price service)) as [[H2 ->] | [H2 ->]];
    split; lra.
Qed.

Lemma static_pricing_is_base_price_witness :
  calculateOptimalPrice parseDecimal staticOptimizer 1 1 emergency pricingWorld
  = (Ok staticPricing,
     snd (calculateOptimalPrice parseDecimal staticOptimizer 1 1 emergency pricingWorld))
  /\ (0 <= basePrice staticPricing)%Q
  /\ finalPrice staticPricing = Fin (round2 (basePrice staticPricing)).
Proof.
  assert (H : calculateOptimalPrice parseDecimal staticOptimizer 1 1 emergency pricingWorld
              = (Ok staticPricing,
                 snd (calculateOptimalPrice parseDecimal staticOptimizer 1 1 emergency
                                            pricingWorld)))
    by (vm_compute; reflexivity).
  assert (Hb : (0 <= basePrice staticPricing)%Q) by (vm_compute; discriminate).
  split; [exact H |]. split; [exact Hb |].
  exact (proj1 (proj2
           (static_pricing_is_base_price parseDecimal staticOptimizer 1 1
              emergency pricingWorld _ staticPricing H eq_refl Hb))).
Defined.

(** The product of the factors of a request whose urgency the table of
    premiums does not define, and which no plain object inherits, is the
    product without the urgency. *)
Lemma unknown_urgency_product (S2N : string -> Num) (this : RevenueOptimizer)
    (month : nat) (service : Service) (client : PricingClient)
    (u : string) (bundle : Value) (b : Q) :
  urgencyPremiums (pricingRules this) !! u = None ->
  ~ In u objectPrototypeKeys ->
  exists x x0,
    fold_left (fun p f => Nmul p (af_factor f))
              (if dynamicPricingEnabled this
               then dynamicFactors S2N this month service client
                      {| urgency := Some u; bundleSize := bundle |}
               else []) (Fin b) = Fin x
    /\ fold_left (fun p f => Nmul p (af_factor f))
                 (if dynamicPricingEnabled this
                  then dynamicFactors S2N this month service client
                         {| urgency := None; bundleSize := bundle |}
                  else []) (Fin b) = Fin x0
    /\ (x == x0)%Q.
Proof.
  intros Hu Hk.
  destruct (dynamicPricingEnabled this);
    [| exists b, b; repeat split; reflexivity].
  unfold dynamicFactors. cbn [urgency bundleSize].
  assert (Hone : property_or_one (urgencyPremiums (pricingRules this)) u = Fin 1).
  { unfold property_or_one. rewrite Hu.
    destruct (existsb (String.eqb u) objectPrototypeKeys) eqn:E; [| reflexivity].
    apply existsb_eqb_In in E. contradiction. }
  rewrite Hone, !fold_left_app.
  set (y := fold_left _ [_; _; _; _; _] (Fin b)).
  assert (Hy : exists q, y = Fin q) by (subst y; cbn; eauto).
  destruct Hy as (q & ->).
  destruct (String.eqb u "").
  - cbn [fold_left]. destruct (truthy bundle && js_gt S2N bundle (num 1));
      cbn [fold_left af_factor Nmul]; eexists; eexists;
      (split; [reflexivity |]); (split; [reflexivity |]); reflexivity.
  - cbn [fold_left af_factor Nmul].
    destruct (truthy bundle && js_gt S2N bundle (num 1));
      cbn [fold_left af_factor Nmul]; eexists; eexists;
      (split; [reflexivity |]); (split; [reflexivity |]); lra.
Qed.

(** X17. An urgency that the table of premiums does not define, and that is
    not a property name inherited from [Object.prototype], is priced like no
    urgency at all: it is recorded as a factor 1, and the price, the discount
    and the premium are those of the same request without urgency. *)
Theorem unknown_urgency_is_neutral (S2N : string -> Num) (this : RevenueOptimizer)
    (month : nat) (service : Service) (client : PricingClient)
    (u : string) (bundle : Value) :
  urgencyPremiums (pricingRules this) !! u = None ->
  ~ In u objectPrototypeKeys ->
  let p := computePricing S2N this month service client
             {| urgency := Some u; bundleSize := bundle |} in
  let p0 := computePricing S2N this month service client
              {| urgency := None; bundleSize := bundle |} in
  finalPrice p = finalPrice p0
  /\ (exists price, finalPrice p = Fin price)
  /\ (exists d d0, discountAmount p = Fin d /\ discountAmount p0 = Fin d0
                   /\ (d == d0)%Q)
  /\ (exists r r0, premiumAmount p = Fin r /\ premiumAmount p0 = Fin r0
                   /\ (r == r0)%Q)
  /\ (dynamicPricingEnabled this = true -> u <> "" ->
      In {| af_type := "urgency"; af_factor := Fin 1 |} (adjustmentFactors p)).
Proof.
  intros Hu Hk p p0. subst p p0. unfold computePricing.
  cbn [finalPrice discountAmount premiumAmount adjustmentFactors].
  set (b := s_base_price service).
  destruct (unknown_urgency_product S2N this month service client u bundle b Hu Hk)
    as (x & x0 & -> & -> & Hx).
  cbn [Nmax Nmin Nsub Nround2].
  assert (Hc : (Qmin (Qmax x (b * (1 - priceAdjustmentCap))) (b * (1 + priceAdjustmentCap))
                == Qmin (Qmax x0 (b * (1 - priceAdjustmentCap)))
                     (b * (1 + priceAdjustmentCap)))%Q)
    by (apply Qmin_compat, Qmax_compat, Hx).
  set (c := Qmin (Qmax x _) _) in *. set (c0 := Qmin (Qmax x0 _) _) in *.
  split; [f_equal; now apply round2_compat |].
  split; [eauto |].
  split; [| split].
  - eexists. eexists. split; [reflexivity |]. split; [reflexivity |].
    destruct (Qmax_cases 0 (b - c)) as [[H1 ->] | [H1 ->]],
             (Qmax_cases 0 (b - c0)) as [[H2 ->] | [H2 ->]]; lra.
  - eexists. eexists. split; [reflexivity |]. split; [reflexivity |].
    destruct (Qmax_cases 0 (c - b)) as [[H1 ->] | [H1 ->]],
             (Qmax_cases 0 (c0 - b)) as [[H2 ->] | [H2 ->]]; lra.
  - intros -> Hne. unfold dynamicFactors. cbn [urgency bundleSize].
    apply String.eqb_neq in Hne. rewrite Hne.
    assert (Hone : property_or_one (urgencyPremiums (pricingRules this)) u = Fin 1).
    { unfold property_or_one. rewrite Hu.
      destruct (existsb (String.eqb u) objectPrototypeKeys) eqn:E; [| reflexivity].
      apply existsb_eqb_In in E. contradiction. }
    rewrite Hone.
    apply in_or_app. right. apply in_or_app. left. left. reflexivity.
Qed.

Lemma unknown_urgency_is_neutral_witness :
  urgencyPremiums (pricingRules defaultOptimizer) !! "rush" = None
  /\ finalPrice (computePricing parseDecimal defaultOptimizer 12 pricingService
                   pricingCustomer rush)
     = finalPrice (computePricing parseDecimal defaultOptimizer 12 pricingService
                     pricingCustomer noOptions).
Proof.
  split; [reflexivity |].
  apply (unknown_urgency_is_neutral parseDecimal defaultOptimizer 12
           pricingService pricingCustomer "rush" JUndefined eq_refl).
  intros Hin. cbn in Hin.
  repeat (destruct Hin as [Hin | Hin]; [discriminate |]). exact Hin.
Defined.

(** Every complexity factor of [estimateServiceCost] lies between 0.3 and
    1.4, for a category that is not an inherited property name. *)
Lemma complexityFactor_bounds (category : string) :
  ~ In category objectPrototypeKeys ->
  exists f, property_or_one complexityFactors category = Fin f
            /\ ((3 # 10) <= f /\ f <= (14 # 10))%Q.
Proof.
  intros Hk.
  assert (Hall : map_Forall (fun (_ : string) (q : Q) =>
                    Qeq_bool q 0 = false /\ ((3 # 10) <= q /\ q <= (14 # 10))%Q)
                   complexityFactors).
  { apply map_Forall_to_list. vm_compute.
    repeat (constructor; [repeat split; discriminate |]). constructor. }
  unfold property_or_one.
  destruct (complexityFactors !! category) as [q |] eqn:E.
  - apply Hall in E as [E0 E]. rewrite E0. eauto.
  - destruct (existsb (String.eqb category) objectPrototypeKeys) eqn:Ek.
    + apply existsb_eqb_In in Ek. contradiction.
    + exists 1%Q. split; [reflexivity |]. split; discriminate.
Qed.

(** The cost estimate of a service with a non-negative base price whose
    category is not an inherited property name. *)
Lemma estimateServiceCost_bounds (S2N : string -> Num) (service : Service)
    (client : PricingClient) :
  (0 <= s_base_price service)%Q ->
  (forall c, s_service_category service = Some c -> ~ In c objectPrototypeKeys) ->
  exists x, estimateServiceCost S2N service client = Fin (round2 x)
            /\ (0 <= x /\ x <= s_base_price service * (61985 # 100000))%Q.
Proof.
  intros Hb Hc. unfold estimateServiceCost.
  set (b := s_base_price service) in *.
  assert (Hf : exists f,
             match s_service_category service with
             | Some c => property_or_one complexityFactors c
             | None => Fin 1
             end = Fin f /\ ((3 # 10) <= f /\ f <= (14 # 10))%Q).
  { destruct (s_service_category service) as [c |].
    - apply complexityFactor_bounds. now apply Hc.
    - exists 1%Q. split; [reflexivity |]. split; discriminate. }
  destruct Hf as (f & -> & Hf1 & Hf2).
  assert (Hbf : (0 <= b * f /\ b * f <= b * (14 # 10))%Q) by (split; nra).
  destruct (js_lt S2N _ _), (js_gt S2N _ _); cbn [Nmul Nround2];
    eexists; (split; [reflexivity |]); split; lra.
Qed.

(** X18. A service priced at 1.00 or more, whose category and urgency are not
    property names inherited from [Object.prototype], is never sold at or
    below its estimated cost: the cost estimate is a number, at most 62% of
    the base price (plus rounding), the price is at least 70% of it, so the
    reported profit margin is a number in (0, 1]. *)
Theorem price_covers_estimated_cost (S2N : string -> Num)
    (this : RevenueOptimizer) (serviceId clientId : nat) (options : Options)
    (w w' : World) (p : Pricing) (service : Service) :
  calculateOptimalPrice S2N this serviceId clientId options w = (Ok p, w') ->
  List.find (fun s => Nat.eqb (s_id s) serviceId) (services w) = Some service ->
  (1 <= s_base_price service)%Q ->
  (forall c, s_service_category service = Some c -> ~ In c objectPrototypeKeys) ->
  (forall u, urgency options = Some u -> ~ In u objectPrototypeKeys) ->
  exists cost price margin,
    estimatedCost p = Fin cost
    /\ finalPrice p = Fin price
    /\ profitMargin p = Some (Fin margin)
    /\ (0 <= cost /\ cost < price)%Q
    /\ (0 < margin /\ margin <= 1)%Q.
Proof.
  intros H Hs Hb Hc Hu.
  apply calculateOptimalPrice_returns in H as (_ & service' & client & Hs' & ->).
  rewrite Hs in Hs'. injection Hs' as <-.
  assert (Hb0 : (0 <= s_base_price service)%Q) by lra.
  destruct (computePricing_number S2N this (currentMonth w) service client options Hu)
    as (x & Hf & _ & _ & Hm & _).
  cbn zeta in Hf, Hm.
  destruct (estimateServiceCost_bounds S2N service client Hb0 Hc)
    as (y & Hy & Hy0 & Hy1).
  change (estimatedCost (computePricing S2N this (currentMonth w) service client options))
    with (estimateServiceCost S2N service client) in *.
  rewrite Hy in *.
  pose proof (clamp_bounds (s_base_price service) x Hb0) as [Hlo _].
  pose proof (round2_bounds
                (Qmin (Qmax x (s_base_price service * (1 - priceAdjustmentCap)))
                      (s_base_price service * (1 + priceAdjustmentCap))))
    as [Hrl _].
  cbn zeta in Hlo.
  set (c := Qmin (Qmax x (s_base_price service * (1 - priceAdjustmentCap)))
                 (s_base_price service * (1 + priceAdjustmentCap))) in *.
  set (b := s_base_price service) in *.
  unfold priceAdjustmentCap in *.
  pose proof (round2_bounds y) as [_ Hyh].
  pose proof (round2_nonneg y Hy0) as Hyn.
  assert (Hc0 : (0 < c)%Q) by lra.
  cbn [Nsub Nquot] in Hm.
  destruct (Qeq_bool c 0) eqn:E.
  { apply Qeq_bool_iff in E. lra. }
  exists (round2 y), (round2 c), ((c - round2 y) / c)%Q.
  split; [reflexivity |]. split; [exact Hf |]. split; [exact Hm |].
  split; [split; lra |]. split.
  - apply Qlt_shift_div_l; [exact Hc0 | lra].
  - apply Qle_shift_div_r; [exact Hc0 | lra].
Qed.

Lemma price_covers_estimated_cost_witness :
  calculateOptimalPrice parseDecimal defaultOptimizer 1 1 emergency pricingWorld
  = (Ok emergencyPricing,
     snd (calculateOptimalPrice parseDecimal defaultOptimizer 1 1 emergency pricingWorld))
  /\ (1 <= s_base_price pricingService)%Q
  /\ exists cost price,
       estimatedCost emergencyPricing = Fin cost
       /\ finalPrice emergencyPricing = Fin price
       /\ (cost < price)%Q.
Proof.
  assert (H : calculateOptimalPrice parseDecimal defaultOptimizer 1 1 emergency pricingWorld
              = (Ok emergencyPricing,
                 snd (calculateOptimalPrice parseDecimal defaultOptimizer 1 1 emergency
                                            pricingWorld)))
    by (vm_compute; reflexivity).
  assert (Hb : (1 <= s_base_price pricingService)%Q) by (vm_compute; discriminate).
  split; [exact H |]. split; [exact Hb |].
  destruct (price_covers_estimated_cost parseDecimal defaultOptimizer 1 1
              emergency pricingWorld _ emergencyPricing pricingService H eq_refl Hb)
    as (cost & price & m & Hcost & Hprice & _ & [_ Hlt] & _).
  - intros c [= <-] Hin. cbn in Hin.
    repeat (destruct Hin as [Hin | Hin]; [discriminate |]). exact Hin.
  - intros u [= <-] Hin. cbn in Hin.
    repeat (destruct Hin as [Hin | Hin]; [discriminate |]). exact Hin.
  - exists cost, price. split; [exact Hcost |]. split; [exact Hprice | exact Hlt].
Defined.

(** ** Reporting and optimization jobs *)

Lemma ratio_bounds (n d : nat) :
  (n <= d)%nat -> (0 < d)%nat -> (0 <= ratio n d /\ ratio n d <= 1)%Q.
Proof.
  intros Hn Hd. unfold ratio.
  assert (H0 : (0 <= inject_Z (Z.of_nat n))%Q)
    by (change 0%Q with (inject_Z 0); rewrite <- Zle_Qle; lia).
  assert (H1 : (inject_Z (Z.of_nat n) <= inject_Z (Z.of_nat d))%Q)
    by (rewrite <- Zle_Qle; lia).
  assert (H2 : (0 < inject_Z (Z.of_nat d))%Q)
    by (change 0%Q with (inject_Z 0); rewrite <- Zlt_Qlt; lia).
  split.
  - apply Qle_shift_div_l; [exact H2 | lra].
  - apply Qle_shift_div_r; [exact H2 | lra].
Qed.

Lemma filter_length_le {A} (f : A -> bool) (l : list A) :
  (length (List.filter f l) <= length l)%nat.
Proof.
  induction l as [| x l IH]; cbn; [lia |]. destruct (f x); cbn; lia.
Qed.

Lemma cascadeMetrics_consistent (rows : list Trigger) :
  let m := cascadeMetrics rows in
  (successfulConversions m <= totalTriggers m)%nat
  /\ (0 <= cm_conversionRate m /\ cm_conversionRate m <= 100)%Q
  /\ (avgRevenue m * inject_Z (Z.of_nat (totalTriggers m)) == totalRevenue m)%Q.
Proof.
  cbn zeta. unfold cascadeMetrics.
  cbn [successfulConversions totalTriggers cm_conversionRate avgRevenue totalRevenue].
  pose proof (filter_length_le t_converted rows) as Hle.
  split; [exact Hle |]. split.
  - destruct (Nat.ltb 0 (length rows)) eqn:E; [| split; discriminate].
    apply Nat.ltb_lt in E.
    destruct (ratio_bounds _ _ Hle E) as [H0 H1]. split; lra.
  - destruct rows as [| t rows]; [reflexivity |].
    set (s := Qsum _). set (n := length (t :: rows)).
    assert (Hn : ~ (inject_Z (Z.of_nat n) == 0)%Q).
    { intros H. unfold Qeq in H. cbn [Qnum Qden inject_Z] in H.
      subst n. cbn [length] in H. lia. }
    field. exact Hn.
Qed.

(** X19. The metrics report never throws and only reads the store: at most
    the log and the fault oracle change.  In the report the conversions do
    not exceed the triggers, the conversion rate is a percentage between 0
    and 100, and the average revenue times the number of triggers is the
    total revenue; a rejected query yields the all-zero report. *)
Theorem metrics_report_is_consistent (recent : Trigger -> bool) (w : World) :
  exists m w',
    getCascadeMetrics recent w = (Ok m, w')
    /\ quiet w w' /\ client_journey w' = client_journey w
    /\ notifications w' = notifications w
    /\ (successfulConversions m <= totalTriggers m)%nat
    /\ (0 <= cm_conversionRate m /\ cm_conversionRate m <= 100)%Q
    /\ (avgRevenue m * inject_Z (Z.of_nat (totalTriggers m)) == totalRevenue m)%Q
    /\ (forall fs, faults w = true :: fs -> m = noMetrics)
    /\ (forall fs, faults w = false :: fs \/ faults w = [] ->
        m = cascadeMetrics (List.filter recent (cascade_triggers w))).
Proof.
  unfold getCascadeMetrics, try_catch, bind, query, gets, ret, logger, modify, throw.
  destruct (faults w) as [| [] fs] eqn:Hf; cbn;
    eexists; eexists; (split; [reflexivity |]);
    (split; [repeat split |]); (split; [reflexivity |]); (split; [reflexivity |]).
  - pose proof (cascadeMetrics_consistent (List.filter recent (cascade_triggers w)))
      as (H1 & H2 & H3).
    repeat split; try assumption; try apply H2; try discriminate.
  - cbn. repeat split; try lia; try discriminate; try reflexivity.
    intros ? [? | ?]; discriminate.
  - pose proof (cascadeMetrics_consistent (List.filter recent (cascade_triggers w)))
      as (H1 & H2 & H3).
    repeat split; try assumption; try apply H2; try discriminate.
Qed.

Lemma metrics_report_is_consistent_witness :
  exists m w',
    getCascadeMetrics (fun _ => true) faultyWorld = (Ok m, w') /\ m = noMetrics.
Proof.
  destruct (metrics_report_is_consistent (fun _ => true) faultyWorld)
    as (m & w' & H & _ & _ & _ & _ & _ & _ & Hz & _).
  exists m, w'. split; [exact H | exact (Hz [] eq_refl)].
Defined.



(** ** Order creation *)

Ltac runO H :=
  cbv beta iota delta
    [try_catch bind ret throw gets modify logger query createOrder findOne_clients
     findById_services create_service_orders fresh_id calculateOptimalPrice
     ro_getClientProfile handleRevenueError fst snd negb] in H;
  cbn [services clients vehicle_rows service_cascades admin_users now currentMonth
       service_orders cascade_triggers client_journey cache_client_profile
       cache_revenue notifications timers log faults draws next_id
       set_service_orders set_cascade_triggers set_client_journey
       set_cache_client_profile set_cache_revenue set_notifications set_timers
       set_log set_faults set_draws set_next_id] in H.

(** An urgency the schema admits is not the name of an inherited property. *)
Lemma urgencyName_own (urgency : option Urgency) :
  forall u, option_map urgencyName urgency = Some u -> ~ In u objectPrototypeKeys.
Proof.
  intros u Hu Hin. destruct urgency as [[] |]; try discriminate;
    injection Hu as <-; cbn in Hin;
    repeat (destruct Hin as [Hin | Hin]; [discriminate |]); exact Hin.
Qed.

(** X21. When no query is rejected and the service and the client row of the
    user exist, [POST /orders] always creates a pending order: at the price
    of the optimizer, which is a number, when one is registered and
    initialized, at the base price of the service otherwise; the price
    columns hold the amounts to the cent. *)
Theorem order_is_created_at_optimizer_price (S2N : string -> Num)
    (revenueOptimizer : option RevenueOptimizer) (userId serviceId : nat)
    (requested : option Urgency) (w : World)
    (service : Service) (client : ClientRow) (profile : PricingClient) :
  faults w = [] ->
  List.find (fun s => Nat.eqb (s_id s) serviceId) (services w) = Some service ->
  List.find (fun c => match c_user_id c with
                      | Some u => Nat.eqb u userId
                      | None => false
                      end) (clients w) = Some client ->
  pricingProfile (c_id client) w = Some profile ->
  exists o w' price,
    createOrder S2N revenueOptimizer userId serviceId requested w = (Ok (Created o), w')
    /\ service_orders w' = service_orders w ++ [o]
    /\ o_status o = pending
    /\ o_client_id o = c_id client /\ o_service_id o = serviceId
    /\ o_base_price o = decimal2 (s_base_price service)
    /\ o_final_price o = decimal2 price
    /\ match revenueOptimizer with
       | Some ro =>
           if ro_isInitialized ro
           then finalPrice (computePricing S2N ro (currentMonth w) service profile
                              {| urgency := option_map urgencyName requested;
                                 bundleSize := JUndefined |})
                = Fin price
           else price = s_base_price service
       | None => price = s_base_price service
       end.
Proof.
  intros Hf Hs Hc Hp. unfold pricingProfile in Hp.
  remember (createOrder S2N revenueOptimizer userId serviceId requested w) as res eqn:Hres.
  runO Hres. rewrite Hf in Hres. runO Hres. rewrite Hs in Hres. runO Hres.
  rewrite Hf in Hres. runO Hres. rewrite Hc in Hres. runO Hres.
  destruct revenueOptimizer as [ro |]; runO Hres.
  - destruct (ro_isInitialized ro); runO Hres.
    + rewrite Hf in Hres. runO Hres. rewrite Hs in Hres. runO Hres.
      destruct (cache_revenue w !! c_id client) eqn:Hcache; runO Hres.
      * injection Hp as ->.
        destruct (computePricing_number S2N ro (currentMonth w) service profile
                    {| urgency := option_map urgencyName requested;
                       bundleSize := JUndefined |} (urgencyName_own requested))
          as (x & Hx & _).
        cbn zeta in Hx. rewrite Hf in Hres. runO Hres.
        rewrite Hx in Hres. cbn [priceColumn] in Hres.
        subst res. eexists. eexists. eexists. split; [reflexivity |].
        repeat split; first [reflexivity | exact Hx].
      * rewrite Hf in Hres. runO Hres.
        destruct (List.find (fun c => Nat.eqb (c_id c) (c_id client)) (clients w))
          eqn:Hrow; [| discriminate].
        runO Hres. injection Hp as <-.
        match type of Hres with
        | context [computePricing S2N ro ?m ?s ?c ?o] =>
            destruct (computePricing_number S2N ro m s c o (urgencyName_own requested))
              as (x & Hx & _)
        end.
        cbn zeta in Hx. rewrite Hf in Hres. runO Hres.
        rewrite Hx in Hres. cbn [priceColumn] in Hres.
        subst res. eexists. eexists. eexists. split; [reflexivity |].
        repeat split; first [reflexivity | exact Hx].
    + rewrite Hf in Hres. runO Hres.
      subst res. eexists. eexists. eexists. split; [reflexivity |]. cbn. repeat split.
  - rewrite Hf in Hres. runO Hres.
    subst res. eexists. eexists. eexists. split; [reflexivity |]. cbn. repeat split.
Qed.

Lemma order_is_created_at_optimizer_price_witness :
  exists o w',
    createOrder parseDecimal (Some defaultOptimizer) 1 1 (Some Emergency) pricingWorld
    = (Ok (Created o), w')
    /\ exists price,
         o_final_price o = decimal2 price
         /\ finalPrice emergencyPricing = Fin price.
Proof.
  destruct (order_is_created_at_optimizer_price parseDecimal (Some defaultOptimizer)
              1 1 (Some Emergency) pricingWorld pricingService
              (mkClient 1 (num 400)) pricingCustomer
              eq_refl eq_refl eq_refl eq_refl)
    as (o & w' & price & H & _ & _ & _ & _ & _ & Hprice & Hnum).
  exists o, w'. split; [exact H |]. exists price. split; [exact Hprice | exact Hnum].
Defined.

(** X22. A failing price calculation does not fail the request: when the
    optimizer's own lookup of the service is rejected, the error is logged,
    and the order is created at the base price of the service with no
    discount. *)
Theorem rejected_pricing_falls_back_to_base_price (S2N : string -> Num)
    (ro : RevenueOptimizer) (userId serviceId : nat)
    (urgency : option Urgency) (w : World)
    (service : Service) (client : ClientRow) (fs : list bool) :
  ro_isInitialized ro = true ->
  faults w = false :: false :: true :: fs ->
  hd false fs = false ->
  List.find (fun s => Nat.eqb (s_id s) serviceId) (services w) = Some service ->
  List.find (fun c => match c_user_id c with
                      | Some u => Nat.eqb u userId
                      | None => false
                      end) (clients w) = Some client ->
  exists o w',
    createOrder S2N (Some ro) userId serviceId urgency w = (Ok (Created o), w')
    /\ service_orders w' = service_orders w ++ [o]
    /\ o_final_price o = decimal2 (s_base_price service)
    /\ (o_discount_amount o == 0)%Q
    /\ In (LError, "Error calculating pricing for order") (log w').
Proof.
  intros Hi Hf Hfs Hs Hc.
  remember (createOrder S2N (Some ro) userId serviceId urgency w) as res eqn:Hres.
  runO Hres. rewrite Hf in Hres. runO Hres. rewrite Hs in Hres. runO Hres.
  rewrite Hc in Hres. runO Hres. rewrite Hi in Hres. runO Hres.
  destruct fs as [| [] fs]; [| discriminate |]; runO Hres;
    subst res; eexists; eexists; (split; [reflexivity |]);
    (split; [reflexivity |]); (split; [reflexivity |]);
    (split; [reflexivity |]); cbn; rewrite !in_app_iff; cbn; tauto.
Qed.

Lemma rejected_pricing_falls_back_to_base_price_witness :
  exists o w',
    createOrder parseDecimal (Some defaultOptimizer) 1 1 (Some Emergency)
                rejectedPricingWorld
    = (Ok (Created o), w')
    /\ o_final_price o = (9999 # 100)%Q.
Proof.
  destruct (rejected_pricing_falls_back_to_base_price parseDecimal defaultOptimizer
              1 1 (Some Emergency) rejectedPricingWorld pricingService
              (mkClient 1 (num 400)) [] eq_refl eq_refl eq_refl eq_refl eq_refl)
    as (o & w' & H & _ & Hprice & _).
  exists o, w'. split; [exact H |]. rewrite Hprice. reflexivity.
Defined.

(** ** The rule optimization job *)

Lemma preserves_ret (P : World -> Prop) {A} (a : A) : preserves P (ret a).
Proof. intros w H. exact H. Qed.

Lemma preserves_throw (P : World -> Prop) {A} (e : Exn) : preserves P (@throw A e).
Proof. intros w H. exact H. Qed.

Lemma preserves_gets (P : World -> Prop) {A} (f : World -> A) : preserves P (gets f).
Proof. intros w H. exact H. Qed.

Lemma preserves_bind (P : World -> Prop) {A B} (m : M A) (k : A -> M B) :
  preserves P m -> (forall a, preserves P (k a)) -> preserves P (bind m k).
Proof.
  intros Hm Hk w H. unfold bind. specialize (Hm w H).
  destruct (m w) as [[a | e] w1]; cbn in *; [now apply Hk | exact Hm].
Qed.

Lemma preserves_try_catch (P : World -> Prop) {A} (m : M A) (h : Exn -> M A) :
  preserves P m -> (forall e, preserves P (h e)) -> preserves P (try_catch m h).
Proof.
  intros Hm Hh w H. unfold try_catch. specialize (Hm w H).
  destruct (m w) as [[a | e] w1]; cbn in *; [exact Hm | now apply Hh].
Qed.

Lemma preserves_logger (P : World -> Prop) (l : Level) (s : string) :
  unobserved P -> preserves P (logger l s).
Proof. intros HP w H. apply (HP w H). Qed.

Lemma preserves_query (P : World -> Prop) : unobserved P -> preserves P query.
Proof.
  intros HP w H. unfold query. destruct (faults w) as [| [] fs]; cbn.
  - exact H.
  - apply HP. now apply HP.
  - now apply HP.
Qed.

Lemma preserves_forEach_In (P : World -> Prop) {A} (f : A -> M unit) (l : list A) :
  (forall x, In x l -> preserves P (f x)) -> preserves P (forEach f l).
Proof.
  induction l as [| x l IH]; intros Hf; cbn [forEach].
  - apply preserves_ret.
  - apply preserves_bind; [apply Hf; now left |].
    intros _. apply IH. intros y Hy. apply Hf. now right.
Qed.

Lemma preserves_attempt (P : World -> Prop) {A} (m : M A) :
  preserves P m -> preserves P (attempt m).
Proof.
  intros Hm w H. unfold attempt. specialize (Hm w H).
  now destruct (m w) as [r w1].
Qed.

Lemma preserves_loadCascadeRules (P : World -> Prop) (this : CascadeEngine) :
  unobserved P -> preserves P (loadCascadeRules this).
Proof.
  intros HP. unfold loadCascadeRules, handleCascadeError.
  assert (Hthrown : preserves P
            (attempt (bind (logger LError "Service cascade failed") (fun _ =>
                      @throw unit (AppError
                        "Service cascade engine is temporarily unavailable"
                        503 "CASCADE_SERVICE_ERROR"))))).
  { apply preserves_attempt, preserves_bind; [now apply preserves_logger |].
    intros _. apply preserves_throw. }
  apply preserves_bind.
  - apply preserves_attempt, preserves_bind; [now apply preserves_query |].
    intros _. apply preserves_gets.
  - intros [rows | error].
    + cbv zeta. destruct (groupRows rows ∅) as [idx [u | err]]; cbn [fst snd].
      * apply preserves_bind; [now apply preserves_logger |]. intros _.
        apply preserves_ret.
      * apply preserves_bind; [exact Hthrown |]. intros thrown. apply preserves_ret.
    + apply preserves_bind; [exact Hthrown |]. intros thrown. apply preserves_ret.
Qed.

Lemma tuned_unobserved (recent : Trigger -> bool) (w0 : World) :
  unobserved (tuned recent w0).
Proof. intros w H. split; intros; exact H. Qed.

Lemma tuned_refl (recent : Trigger -> bool) (w : World) : tuned recent w w.
Proof.
  split; [| repeat split].
  induction (service_cascades w); constructor; [now left | assumption].
Qed.

Lemma retuned_id (recent : Trigger -> bool) (w : World) (sc sc' : CascadeRow) :
  retuned recent w sc sc' -> sc_id sc' = sc_id sc.
Proof. intros [-> | [_ ->]]; reflexivity. Qed.

(** A row of the performance query belongs to a measured rule and carries
    its measured rate. *)
Lemma rulePerformance_row (recent : Trigger -> bool) (w : World) (row : RulePerformance) :
  In row (rulePerformance recent w) ->
  measured recent (rp_id row) w = true
  /\ actualRate row = measuredRate recent (rp_id row) w
  /\ exists sc, In sc (service_cascades w)
                /\ rp_id row = sc_id sc /\ expected_rate row = sc_conversion_rate sc.
Proof.
  unfold rulePerformance. rewrite In_omap. intros (sc & Hin & Hrow).
  cbn zeta in Hrow.
  destruct (Nat.leb 10 (length (recentTriggersOf recent (sc_id sc) w))) eqn:E;
    [| discriminate].
  injection Hrow as <-. unfold measured, actualRate, measuredRate.
  cbn [rp_id total_triggers successful_conversions expected_rate].
  split; [exact E |]. split; [| now exists sc].
  apply Nat.leb_le in E.
  destruct (Nat.ltb 0 (length (recentTriggersOf recent (sc_id sc) w))) eqn:E0;
    [reflexivity |].
  apply Nat.ltb_ge in E0. lia.
Qed.

(** Writing the measured rate of rule [i] keeps every row retuned. *)
Lemma retuned_update (recent : Trigger -> bool) (w0 : World) (i : nat)
    (cs0 cs : list CascadeRow) :
  measured recent i w0 = true ->
  Forall2 (retuned recent w0) cs0 cs ->
  Forall2 (retuned recent w0) cs0
    (List.map (fun sc => if Nat.eqb (sc_id sc) i
                         then set_conversion_rate (measuredRate recent i w0) sc
                         else sc) cs).
Proof.
  intros Hm H. induction H as [| sc sc' cs0 cs Hr _ IH]; cbn [List.map];
    constructor; [| exact IH].
  destruct (Nat.eqb (sc_id sc') i) eqn:E; [| exact Hr].
  apply Nat.eqb_eq in E. pose proof (retuned_id _ _ _ _ Hr) as Hid.
  right. rewrite <- Hid, E. split; [exact Hm |].
  destruct Hr as [-> | [_ ->]]; reflexivity.
Qed.

Lemma optimizeRule_tuned (recent : Trigger -> bool) (w0 : World) (row : RulePerformance) :
  In row (rulePerformance recent w0) ->
  preserves (tuned recent w0) (optimizeRule row).
Proof.
  intros Hrow. apply rulePerformance_row in Hrow as (Hm & Ha & _).
  unfold optimizeRule. destruct (Qltb _ _); [| apply preserves_ret].
  apply preserves_bind; [| intros _; apply preserves_logger, tuned_unobserved].
  unfold update_service_cascades.
  apply preserves_bind; [apply preserves_query, tuned_unobserved |]. intros _.
  intros w (Hc & Ht). split; [| exact Ht]. cbn. rewrite Ha.
  now apply retuned_update.
Qed.

(** The part of [optimizeCascadeRules] that follows the performance query. *)
Lemma optimizeCascadeRules_loop_tuned (recent : Trigger -> bool) (w0 : World)
    (this : CascadeEngine) (rows : list RulePerformance) :
  (forall row, In row rows -> In row (rulePerformance recent w0)) ->
  preserves (tuned recent w0)
    (bind (forEach optimizeRule rows) (fun _ =>
     bind (loadCascadeRules this) (fun loaded =>
     match snd loaded with
     | Ok _ =>
         bind (logger LInfo "Cascade rule optimization completed") (fun _ =>
         ret (fst loaded))
     | Throw _ =>
         bind (logger LError "Error optimizing cascade rules") (fun _ =>
         ret (fst loaded))
     end))).
Proof.
  intros Hrows. pose proof (tuned_unobserved recent w0) as HP.
  apply preserves_bind.
  - apply preserves_forEach_In. intros row Hrow.
    now apply optimizeRule_tuned, Hrows.
  - intros _. apply preserves_bind; [now apply preserves_loadCascadeRules |].
    intros loaded. destruct (snd loaded);
      (apply preserves_bind; [now apply preserves_logger |]);
      intros _; apply preserves_ret.
Qed.

Lemma optimizeCascadeRules_tuned (recent : Trigger -> bool) (this : CascadeEngine)
    (w : World) :
  tuned recent w (snd (optimizeCascadeRules recent this w)).
Proof.
  pose proof (tuned_unobserved recent w) as HP.
  unfold optimizeCascadeRules.
  set (tail := fun rows : list RulePerformance => bind (forEach optimizeRule rows) _).
  assert (Htail : forall rows,
             (forall row, In row rows -> In row (rulePerformance recent w)) ->
             preserves (tuned recent w) (tail rows))
    by (intros rows; apply optimizeCascadeRules_loop_tuned).
  unfold try_catch, bind, logger, modify, query, gets, throw, ret.
  cbn [faults set_log log].
  pose proof (tuned_refl recent w) as H0.
  destruct (faults w) as [| [] fs].
  - set (w1 := set_log _ w).
    change (rulePerformance recent w1) with (rulePerformance recent w).
    assert (H1 : tuned recent w w1) by now apply HP.
    specialize (Htail _ (fun row H => H) w1 H1).
    destruct (tail (rulePerformance recent w) w1) as [[e | x] w2]; cbn in *;
      [exact Htail | now apply HP].
  - unfold bind, logger, modify. cbn. exact H0.
  - set (w1 := set_faults fs _).
    change (rulePerformance recent w1) with (rulePerformance recent w).
    assert (H1 : tuned recent w w1) by (apply HP; now apply HP).
    specialize (Htail _ (fun row H => H) w1 H1).
    destruct (tail (rulePerformance recent w) w1) as [[e | x] w2]; cbn in *;
      [exact Htail | now apply HP].
Qed.

Lemma decimal4_bounds (x : Q) :
  (x - (1 # 20000) < decimal4 x /\ decimal4 x <= x + (1 # 20000))%Q.
Proof.
  unfold decimal4.
  pose proof (Qfloor_le (x * 10000 + (1 # 2))) as Hlo.
  pose proof (Qlt_floor (x * 10000 + (1 # 2))) as Hhi.
  rewrite inject_Z_plus in Hhi.
  set (f := inject_Z (Qfloor (x * 10000 + (1 # 2)))) in *.
  change (inject_Z 1) with 1%Q in Hhi.
  unfold Qdiv. change (/ 10000)%Q with (1 # 10000)%Q.
  split; lra.
Qed.

Lemma decimal4_unit (x : Q) :
  (0 <= x /\ x <= 1)%Q -> (0 <= decimal4 x /\ decimal4 x <= 1)%Q.
Proof.
  intros [H0 H1]. unfold decimal4.
  assert (Hlo : (0 <= Qfloor (x * 10000 + (1 # 2)))%Z).
  { change 0%Z with (Qfloor 0). apply Qfloor_resp_le. lra. }
  assert (Hhi : (Qfloor (x * 10000 + (1 # 2)) <= 10000)%Z).
  { apply Z.le_trans with (Qfloor (10000 + (1 # 2)));
      [apply Qfloor_resp_le; lra | vm_compute; discriminate]. }
  rewrite Zle_Qle in Hlo, Hhi.
  set (f := inject_Z (Qfloor (x * 10000 + (1 # 2)))) in *.
  change (inject_Z 0) with 0%Q in Hlo. change (inject_Z 10000) with 10000%Q in Hhi.
  unfold Qdiv. change (/ 10000)%Q with (1 # 10000)%Q.
  split; lra.
Qed.

Lemma measuredRate_unit (recent : Trigger -> bool) (i : nat) (w : World) :
  measured recent i w = true ->
  (0 <= measuredRate recent i w /\ measuredRate recent i w <= 1)%Q.
Proof.
  unfold measured, measuredRate. intros H. apply Nat.leb_le in H.
  apply ratio_bounds; [apply filter_length_le | lia].
Qed.

(** X23. The rule optimization writes nothing but conversion rates of
    measured rules.  Whatever queries are rejected, it leaves orders, trigger
    records, timers and services alone, keeps the rule rows in place with
    all their other columns, and changes the rate of a row only if the rule
    has at least ten trigger records in the window - and then to the measured
    share of conversions, stored to four decimals, a number in [0, 1]. *)
Theorem optimization_retunes_measured_rules_only (recent : Trigger -> bool)
    (this : CascadeEngine) (w : World) :
  let w' := snd (optimizeCascadeRules recent this w) in
  cascade_triggers w' = cascade_triggers w
  /\ service_orders w' = service_orders w
  /\ timers w' = timers w
  /\ services w' = services w
  /\ Forall2 (fun sc sc' =>
       sc_id sc' = sc_id sc
       /\ sc_entry_service_id sc' = sc_entry_service_id sc
       /\ sc_triggered_service_id sc' = sc_triggered_service_id sc
       /\ sc_priority sc' = sc_priority sc
       /\ sc_conditions sc' = sc_conditions sc
       /\ sc_is_active sc' = sc_is_active sc
       /\ (sc_conversion_rate sc' = sc_conversion_rate sc
           \/ ((10 <= length (recentTriggersOf recent (sc_id sc) w))%nat
               /\ sc_conversion_rate sc' = decimal4 (measuredRate recent (sc_id sc) w)
               /\ (0 <= sc_conversion_rate sc' /\ sc_conversion_rate sc' <= 1)%Q)))
     (service_cascades w) (service_cascades w').
Proof.
  cbn zeta.
  destruct (optimizeCascadeRules_tuned recent this w) as (Hc & Ht & Hs & Ho & Hk).
  repeat (split; [assumption |]).
  eapply Forall2_impl; [exact Hc |].
  intros sc sc' [-> | [Hm ->]]; cbn.
  - repeat split. now left.
  - repeat split. right.
    split; [now apply Nat.leb_le |]. split; [reflexivity |].
    now apply decimal4_unit, measuredRate_unit.
Qed.

Lemma retuned_trans (recent : Trigger -> bool) (w : World) (a b c : CascadeRow) :
  retuned recent w a b -> retuned recent w b c -> retuned recent w a c.
Proof.
  intros [-> | [Hm ->]] [-> | [Hm' ->]]; [now left | now right | now right |].
  right. split; [exact Hm | reflexivity].
Qed.

Lemma Forall2_retuned_refl (recent : Trigger -> bool) (w : World) (cs : list CascadeRow) :
  Forall2 (retuned recent w) cs cs.
Proof. induction cs; constructor; [now left | assumption]. Qed.

Lemma Forall2_retuned_trans (recent : Trigger -> bool) (w : World)
    (l1 l2 l3 : list CascadeRow) :
  Forall2 (retuned recent w) l1 l2 -> Forall2 (retuned recent w) l2 l3 ->
  Forall2 (retuned recent w) l1 l3.
Proof.
  intros H. revert l3. induction H as [| a b l1 l2 Hab _ IH]; intros l3 H23;
    inversion H23; subst; constructor.
  - eapply retuned_trans; eassumption.
  - now apply IH.
Qed.

Lemma Forall2_In_r {A B} (R : A -> B -> Prop) (l : list A) (l' : list B) (b : B) :
  Forall2 R l l' -> In b l' -> exists a, In a l /\ R a b.
Proof.
  induction 1 as [| a0 b0 l l' Hab _ IH]; intros Hin; [destruct Hin |].
  destruct Hin as [<- | Hin].
  - exists a0. split; [now left | exact Hab].
  - destruct (IH Hin) as (a & Ha & HR). exists a. split; [now right | exact HR].
Qed.

(** A row that carries the measured rate of its rule keeps it. *)
Lemma retuned_settled (recent : Trigger -> bool) (w : World) (sc sc' : CascadeRow) :
  retuned recent w sc sc' ->
  sc_conversion_rate sc = decimal4 (measuredRate recent (sc_id sc) w) ->
  sc_conversion_rate sc' = decimal4 (measuredRate recent (sc_id sc') w).
Proof. intros [-> | [_ ->]] H; [exact H | reflexivity]. Qed.

(** With no query rejected, the loop of [optimizeCascadeRules] runs to its
    end, and every rule whose row deviates by more than 0.1 ends with the
    measured rate. *)
Lemma optimizeCascadeRules_loop_settles (recent : Trigger -> bool) (w0 : World)
    (rows : list RulePerformance) :
  (forall row, In row rows -> In row (rulePerformance recent w0)) ->
  forall w, faults w = [] ->
  exists w',
    forEach optimizeRule rows w = (Ok tt, w')
    /\ faults w' = []
    /\ cascade_triggers w' = cascade_triggers w
    /\ services w' = services w
    /\ Forall2 (retuned recent w0) (service_cascades w) (service_cascades w')
    /\ (forall row, In row rows ->
        Qltb (1 # 10) (Qabs (actualRate row - expected_rate row)) = true ->
        forall sc', In sc' (service_cascades w') -> sc_id sc' = rp_id row ->
        sc_conversion_rate sc' = decimal4 (measuredRate recent (sc_id sc') w0)).
Proof.
  induction rows as [| row rows IH]; intros Hrows w Hf.
  - exists w. cbn. repeat split; auto using Forall2_retuned_refl.
    intros row [].
  - destruct (rulePerformance_row recent w0 row (Hrows row (or_introl eq_refl)))
      as (Hm & Ha & _).
    cbn [forEach]. unfold bind at 1.
    assert (Hstep : exists w1,
               optimizeRule row w = (Ok tt, w1) /\ faults w1 = []
               /\ cascade_triggers w1 = cascade_triggers w
               /\ services w1 = services w
               /\ Forall2 (retuned recent w0) (service_cascades w) (service_cascades w1)
               /\ (Qltb (1 # 10) (Qabs (actualRate row - expected_rate row)) = true ->
                   forall sc1, In sc1 (service_cascades w1) -> sc_id sc1 = rp_id row ->
                   sc_conversion_rate sc1
                   = decimal4 (measuredRate recent (sc_id sc1) w0))).
    { unfold optimizeRule.
      destruct (Qltb (1 # 10) (Qabs (actualRate row - expected_rate row))).
      - unfold update_service_cascades, bind, query, modify, logger, ret.
        rewrite Hf. cbn. eexists. split; [reflexivity |]. cbn.
        repeat split; auto.
        + rewrite Ha. apply retuned_update; [exact Hm | apply Forall2_retuned_refl].
        + intros _ sc1 Hin Hid. apply in_map_iff in Hin as (sc & <- & _).
          destruct (Nat.eqb (sc_id sc) (rp_id row)) eqn:E.
          * cbn. apply Nat.eqb_eq in E. now rewrite Ha, E.
          * apply Nat.eqb_neq in E. contradiction.
      - exists w. cbn. repeat split; auto using Forall2_retuned_refl.
        discriminate. }
    destruct Hstep as (w1 & -> & Hf1 & Ht1 & Hs1 & Hc1 & Hrow1).
    destruct (IH (fun r Hr => Hrows r (or_intror Hr)) w1 Hf1)
      as (w' & -> & Hf' & Ht' & Hs' & Hc' & Hrows').
    exists w'. split; [reflexivity |]. split; [exact Hf' |].
    split; [congruence |]. split; [congruence |].
    split; [eapply Forall2_retuned_trans; eassumption |].
    intros r [<- | Hr] Hsig sc' Hin Hid.
    + destruct (Forall2_In_r _ _ _ _ Hc' Hin) as (sc1 & Hin1 & HR).
      apply (retuned_settled recent w0 sc1 sc' HR).
      apply Hrow1; [exact Hsig | exact Hin1 |].
      rewrite <- Hid. symmetry. eapply retuned_id. exact HR.
    + now apply (Hrows' r Hr Hsig).
Qed.

Lemma loadCascadeRules_nofault (this : CascadeEngine) (w : World) :
  faults w = [] ->
  loadCascadeRules this w
  = match snd (groupRows (activeRows w) ∅) with
    | Ok _ =>
        (Ok (withRules (fst (groupRows (activeRows w) ∅)) this, Ok tt),
         set_log (log w ++ [(LInfo, "Loaded cascade rules")]) w)
    | Throw _ =>
        (Ok (withRules (fst (groupRows (activeRows w) ∅)) this,
             Throw CascadeError503),
         set_log (log w ++ [(LError, "Service cascade failed")]) w)
    end.
Proof.
  intros Hf.
  unfold loadCascadeRules, attempt, bind, query, gets, logger, modify, ret.
  rewrite Hf. cbv zeta. destruct (snd (groupRows (activeRows w) ∅)); reflexivity.
Qed.

(** A run of the optimization in which no query is rejected. *)
Lemma optimizeCascadeRules_nofault (recent : Trigger -> bool) (this : CascadeEngine)
    (w : World) :
  faults w = [] ->
  exists w',
    optimizeCascadeRules recent this w
    = (Ok (withRules (fst (groupRows (activeRows w') ∅)) this), w')
    /\ faults w' = []
    /\ cascade_triggers w' = cascade_triggers w
    /\ Forall2 (retuned recent w) (service_cascades w) (service_cascades w')
    /\ (forall row, In row (rulePerformance recent w) ->
        Qltb (1 # 10) (Qabs (actualRate row - expected_rate row)) = true ->
        forall sc', In sc' (service_cascades w') -> sc_id sc' = rp_id row ->
        sc_conversion_rate sc' = decimal4 (measuredRate recent (sc_id sc') w))
    /\ (forallb parses (activeRows w') = false ->
        In (LError, "Error optimizing cascade rules") (log w')).
Proof.
  intros Hf. unfold optimizeCascadeRules.
  set (tail := fun rows : list RulePerformance => bind (forEach optimizeRule rows) _).
  unfold try_catch, bind at 1 2 3, logger at 1, modify, query, gets.
  cbn [faults set_log log]. rewrite Hf.
  set (w1 := set_log _ w).
  change (rulePerformance recent w1) with (rulePerformance recent w).
  destruct (optimizeCascadeRules_loop_settles recent w (rulePerformance recent w)
              (fun row H => H) w1 Hf)
    as (w2 & Hloop & Hf2 & Ht2 & Hs2 & Hc2 & Hrows2).
  subst tail. cbv beta. unfold bind at 1. rewrite Hloop.
  unfold bind at 1. rewrite (loadCascadeRules_nofault this w2 Hf2).
  destruct (forallb parses (activeRows w2)) eqn:Hp.
  - rewrite (groupRows_parsed _ ∅ Hp). cbn [fst snd].
    unfold bind, logger, modify, ret. cbn [log set_log].
    match goal with |- exists w', (_, ?x) = _ /\ _ => exists x end.
    change (activeRows (set_log _ _)) with (activeRows w2).
    rewrite (groupRows_parsed _ ∅ Hp). cbn [fst].
    split; [reflexivity |]. cbn.
    repeat split; auto. congruence.
  - destruct (groupRows_fails (activeRows w2) ∅ Hp) as (error & E).
    rewrite E. cbn [fst snd].
    unfold bind, logger, modify, ret. cbn [log set_log].
    match goal with |- exists w', (_, ?x) = _ /\ _ => exists x end.
    change (activeRows (set_log _ _)) with (activeRows w2).
    split; [reflexivity |]. cbn.
    repeat split; auto. intros _. rewrite !in_app_iff. cbn. tauto.
Qed.

(** After such a run no rule deviates from its measured rate by more than
    0.1. *)
Lemma optimizeCascadeRules_settles (recent : Trigger -> bool) (w w' : World) :
  cascade_triggers w' = cascade_triggers w ->
  Forall2 (retuned recent w) (service_cascades w) (service_cascades w') ->
  (forall row, In row (rulePerformance recent w) ->
   Qltb (1 # 10) (Qabs (actualRate row - expected_rate row)) = true ->
   forall sc', In sc' (service_cascades w') -> sc_id sc' = rp_id row ->
   sc_conversion_rate sc' = decimal4 (measuredRate recent (sc_id sc') w)) ->
  forall row, In row (rulePerformance recent w') ->
  Qltb (1 # 10) (Qabs (actualRate row - expected_rate row)) = false.
Proof.
  intros Ht Hc Hrows row2 Hrow2.
  apply rulePerformance_row in Hrow2 as (Hm2 & Ha2 & sc' & Hin' & Hid2 & He2).
  assert (Hsame : forall i, recentTriggersOf recent i w' = recentTriggersOf recent i w)
    by (intros i; unfold recentTriggersOf; now rewrite Ht).
  unfold measured in Hm2. unfold measuredRate in Ha2. rewrite !Hsame in *.
  fold (measured recent (rp_id row2) w) in Hm2.
  fold (measuredRate recent (rp_id row2) w) in Ha2.
  destruct (Forall2_In_r _ _ _ _ Hc Hin') as (sc & Hin & HR).
  pose proof (retuned_id _ _ _ _ HR) as Hid.
  rewrite Ha2, He2, Hid2.
  pose proof (decimal4_bounds (measuredRate recent (sc_id sc') w)) as [Hd1 Hd2].
  assert (Hclose : sc_conversion_rate sc'
                   = decimal4 (measuredRate recent (sc_id sc') w) ->
                   Qltb (1 # 10) (Qabs (measuredRate recent (sc_id sc') w
                                        - sc_conversion_rate sc')) = false).
  { intros ->. apply Qltb_ge, Qabs_Qle_condition. split; lra. }
  set (row := {| rp_id := sc_id sc;
                 expected_rate := sc_conversion_rate sc;
                 total_triggers := length (recentTriggersOf recent (sc_id sc) w);
                 successful_conversions :=
                   length (List.filter t_converted
                             (recentTriggersOf recent (sc_id sc) w)) |}).
  assert (Hrow : In row (rulePerformance recent w)).
  { unfold rulePerformance. apply In_omap. exists sc. split; [exact Hin |].
    assert (Hm : measured recent (sc_id sc) w = true)
      by (rewrite <- Hid, <- Hid2; exact Hm2).
    unfold measured in Hm. cbn zeta. rewrite Hm. reflexivity. }
  destruct (rulePerformance_row recent w row Hrow) as (_ & Ha & _).
  destruct (Qltb (1 # 10) (Qabs (actualRate row - expected_rate row))) eqn:Hsig.
  - apply Hclose. apply (Hrows row Hrow Hsig sc' Hin'). cbn. exact Hid.
  - destruct HR as [-> | [_ ->]].
    + rewrite Ha in Hsig. exact Hsig.
    + apply Hclose. cbn. reflexivity.
Qed.

Lemma forEach_skip {A} (f : A -> M unit) (l : list A) (w : World) :
  (forall x, In x l -> f x w = (Ok tt, w)) -> forEach f l w = (Ok tt, w).
Proof.
  induction l as [| x l IH]; intros Hf; cbn [forEach]; [reflexivity |].
  unfold bind. rewrite (Hf x (or_introl eq_refl)).
  apply IH. intros y Hy. apply Hf. now right.
Qed.

(** A run over rules none of which deviates writes no rate. *)
Lemma optimizeCascadeRules_settled (recent : Trigger -> bool) (this : CascadeEngine)
    (w : World) :
  faults w = [] ->
  (forall row, In row (rulePerformance recent w) ->
   Qltb (1 # 10) (Qabs (actualRate row - expected_rate row)) = false) ->
  service_cascades (snd (optimizeCascadeRules recent this w)) = service_cascades w.
Proof.
  intros Hf Hrows. unfold optimizeCascadeRules.
  set (tail := fun rows : list RulePerformance => bind (forEach optimizeRule rows) _).
  unfold try_catch, bind at 1 2 3, logger at 1, modify, query, gets.
  cbn [faults set_log log]. rewrite Hf.
  set (w1 := set_log _ w).
  change (rulePerformance recent w1) with (rulePerformance recent w).
  subst tail. cbv beta. unfold bind at 1.
  rewrite forEach_skip.
  2:{ intros row Hrow. unfold optimizeRule. now rewrite (Hrows row Hrow). }
  unfold bind at 1. rewrite (loadCascadeRules_nofault this w1 Hf).
  destruct (snd (groupRows (activeRows w1) ∅)); reflexivity.
Qed.



(** X25. One pass settles the rates: when no query is rejected, a second run
    of the optimization over the same trigger records changes no rule row -
    every measured rule is by then within 0.1 of its measured rate. *)
Theorem optimization_settles_in_one_pass (recent : Trigger -> bool)
    (this this' : CascadeEngine) (w : World) :
  faults w = [] ->
  let w1 := snd (optimizeCascadeRules recent this w) in
  service_cascades (snd (optimizeCascadeRules recent this' w1)) = service_cascades w1.
Proof.
  intros Hf w1. subst w1.
  destruct (optimizeCascadeRules_nofault recent this w Hf)
    as (w1 & -> & Hf1 & Ht1 & Hc1 & Hrows1).
  cbn [snd].
  apply optimizeCascadeRules_settled; [exact Hf1 |].
  now apply (optimizeCascadeRules_settles recent w w1).
Qed.

Lemma optimization_settles_in_one_pass_witness :
  faults busyWorld = []
  /\ List.map sc_conversion_rate
       (service_cascades (snd (optimizeCascadeRules (fun _ => true) newEngine busyWorld)))
     = [(2000 # 10000)%Q]
  /\ service_cascades
       (snd (optimizeCascadeRules (fun _ => true) newEngine
               (snd (optimizeCascadeRules (fun _ => true) newEngine busyWorld))))
     = service_cascades (snd (optimizeCascadeRules (fun _ => true) newEngine busyWorld)).
Proof.
  split; [reflexivity |]. split; [vm_compute; reflexivity |].
  exact (optimization_settles_in_one_pass (fun _ => true) newEngine newEngine
           busyWorld eq_refl).
Defined.

(** ** Initialization and the pricing profile *)

(** X26. Initialization succeeds exactly when the query of the rules is not
    rejected and the conditions of every row it returns parse: it then
    leaves an initialized engine whose index is built from the active rules
    of the store.  Otherwise it logs the failure and rethrows the 503 error
    of the cascade handler, and the engine stays uninitialized: untouched
    when the query is rejected, with the index as the loop left it when
    conditions arrive as an object. *)
Theorem initialize_outcome (this : CascadeEngine) (w : World) :
  match faults w with
  | true :: _ =>
      fst (initialize this w) = Ok (this, Throw CascadeError503)
      /\ In (LError, "Failed to initialize cascade engine:")
            (log (snd (initialize this w)))
  | _ =>
      if forallb parses (activeRows w)
      then exists e,
             fst (initialize this w) = Ok (e, Ok tt)
             /\ isInitialized e = true
             /\ cascadeRules e = groupRules (activeRules w)
             /\ conversionThreshold e = conversionThreshold this
      else fst (initialize this w)
           = Ok (withRules (fst (groupRows (activeRows w) ∅)) this,
                 Throw CascadeError503)
           /\ In (LError, "Failed to initialize cascade engine:")
                 (log (snd (initialize this w)))
  end.
Proof.
  assert (Hacc : hd false (faults w) = false ->
                 if forallb parses (activeRows w)
                 then exists e,
                        fst (initialize this w) = Ok (e, Ok tt)
                        /\ isInitialized e = true
                        /\ cascadeRules e = groupRules (activeRules w)
                        /\ conversionThreshold e = conversionThreshold this
                 else fst (initialize this w)
                      = Ok (withRules (fst (groupRows (activeRows w) ∅)) this,
                            Throw CascadeError503)
                      /\ In (LError, "Failed to initialize cascade engine:")
                            (log (snd (initialize this w)))).
  { intros Hf.
    destruct (forallb parses (activeRows w)) eqn:Hp; unfold initialize, bind.
    - rewrite (loadCascadeRules_loaded this w Hf Hp). cbn.
      eexists. repeat split.
    - rewrite (loadCascadeRules_accepted this w Hf).
      destruct (groupRows_fails (activeRows w) ∅ Hp) as (error & E).
      rewrite E. cbn. split; [reflexivity |]. rewrite !in_app_iff. cbn. tauto. }
  destruct (faults w) as [| [] fs] eqn:Hf; [now apply Hacc | | now apply Hacc].
  unfold initialize, bind.
  rewrite (loadCascadeRules_rejected this w) by now rewrite Hf.
  cbn. split; [reflexivity |]. rewrite !in_app_iff. cbn. tauto.
Qed.

Lemma initialize_outcome_witness :
  faults objectWorld = []
  /\ forallb parses (activeRows objectWorld) = false
  /\ fst (initialize newEngine objectWorld)
     = Ok (withRules (fst (groupRows (activeRows objectWorld) ∅)) newEngine,
           Throw CascadeError503)
  /\ isInitialized (engineOf objectWorld) = false.
Proof.
  split; [reflexivity |]. split; [vm_compute; reflexivity |].
  split; [| vm_compute; reflexivity].
  exact (proj1 (initialize_outcome newEngine objectWorld)).
Defined.



(** ** A store that rejects the update of the trigger record *)

(** X28. When the update of the trigger record is rejected, and the update in
    the [catch] block after it, the timer callback rejects: the order it has
    inserted stays in the store, the trigger record is still unconverted and
    carries no order, and neither the journey row nor any notification is
    written.  (The generic [database.update] also sets [updated_at], a column
    that [cascade_triggers] does not have in schema.sql.) *)
Theorem rejected_trigger_update_strands_order (S2N : string -> Num) (rule : Rule)
    (client : Client) (trigger : Trigger) (d : nat) (w : World) (service : Service)
    (fs : list bool) :
  faults w = false :: false :: true :: true :: fs ->
  List.find (fun s => Nat.eqb (s_id s) (triggeredServiceId rule)) (services w)
  = Some service ->
  fst (createTriggeredService S2N rule client trigger d w)
  = Throw (Error "query rejected")
  /\ service_orders (snd (createTriggeredService S2N rule client trigger d w))
     = service_orders w ++ [triggeredOrder S2N rule client trigger d service (next_id w)]
  /\ cascade_triggers (snd (createTriggeredService S2N rule client trigger d w))
     = cascade_triggers w
  /\ client_journey (snd (createTriggeredService S2N rule client trigger d w))
     = client_journey w
  /\ notifications (snd (createTriggeredService S2N rule client trigger d w))
     = notifications w.
Proof.
  intros Hf Hs.
  remember (createTriggeredService S2N rule client trigger d w) as res eqn:Hres.
  unfold createTriggeredService in Hres.
  revert Hres. runT. rewrite Hf. runT. rewrite Hs. runT.
  intros ->. cbn [fst snd]. runT.
  repeat split; reflexivity.
Qed.

Lemma rejected_trigger_update_strands_order_witness :
  faults strandedWorld = [false; false; true; true]
  /\ fst (createTriggeredService parseDecimal scenarioRule scenarioClient
            (newTrigger 100 1 21 scenarioRule) 0 strandedWorld)
     = Throw (Error "query rejected")
  /\ cascade_triggers
       (snd (createTriggeredService parseDecimal scenarioRule scenarioClient
               (newTrigger 100 1 21 scenarioRule) 0 strandedWorld))
     = cascade_triggers strandedWorld.
Proof.
  split; [reflexivity |].
  destruct (rejected_trigger_update_strands_order parseDecimal scenarioRule
              scenarioClient (newTrigger 100 1 21 scenarioRule) 0 strandedWorld
              (mkService 2 "B" 2000 "financial") [] eq_refl eq_refl)
    as (H1 & _ & H3 & _).
  split; [exact H1 | exact H3].
Defined.

(** X29. When the update of the client row is rejected, the completion hook
    goes on - the rejection is logged inside the revenue tracking - but the
    cached profiles of the customer are not dropped: the cascade is evaluated
    in a world whose two caches are those from before the completion, so a
    profile cached earlier is the one the rules are checked against. *)
Theorem rejected_lifetime_update_keeps_cached_profiles (S2N : string -> Num)
    (engine : CascadeEngine) (orderId clientId : nat) (w : World)
    (o : Order) (c : ClientRow) (fs : list bool) :
  faults w = false :: false :: false :: true :: fs ->
  hd false fs = false ->
  isInitialized engine = true ->
  List.find (fun o => Nat.eqb (o_id o) orderId) (service_orders w) = Some o ->
  List.find (fun c => Nat.eqb (c_id c) clientId) (clients w) = Some c ->
  exists w1,
    handleServiceCompletion S2N engine orderId clientId w
    = logger LRevenue "Service completed"
        (snd (triggerCascade S2N engine orderId clientId 0 w1))
    /\ cache_client_profile w1 = cache_client_profile w
    /\ cache_revenue w1 = cache_revenue w
    /\ service_orders w1 = service_orders w
    /\ clients w1 = clients w
    /\ faults w1 = fs.
Proof.
  intros Hf Hfs Hi Ho Hc.
  remember (handleServiceCompletion S2N engine orderId clientId w) as res eqn:Hres.
  runH Hres. rewrite Hf in Hres. runH Hres.
  rewrite Ho in Hres. runH Hres. rewrite Hc in Hres. runH Hres.
  match type of Hres with
  | context [triggerCascade S2N engine orderId clientId 0 ?x] => set (w1 := x) in *
  end.
  exists w1.
  assert (Hok : fst (triggerCascade S2N engine orderId clientId 0 w1) = Ok tt).
  { apply (proj2 (triggerCascade_outcome S2N engine orderId clientId 0 w1) Hi).
    right. exact Hfs. }
  destruct (triggerCascade S2N engine orderId clientId 0 w1) as [r w2] eqn:E.
  cbn [fst] in Hok. subst r. subst res.
  split; [reflexivity |]. repeat split.
Qed.

Lemma rejected_lifetime_update_keeps_cached_profiles_witness :
  exists w1,
    handleServiceCompletion parseDecimal (engineOf raceWorld) 21 1 rejectedUpdateWorld
    = logger LRevenue "Service completed"
        (snd (triggerCascade parseDecimal (engineOf raceWorld) 21 1 0 w1))
    /\ cache_client_profile w1 = cache_client_profile rejectedUpdateWorld.
Proof.
  destruct (rejected_lifetime_update_keeps_cached_profiles parseDecimal
              (engineOf raceWorld) 21 1 rejectedUpdateWorld
              (mkOrder 21 1 1 in_progress 5000) (mkClient 1 (num 720)) []
              eq_refl eq_refl eq_refl eq_refl eq_refl)
    as (w1 & H & Hc & _).
  exists w1. split; [exact H | exact Hc].
Defined.
